(** * Request admission and answer serving: a shallow embedding

    The definitions below embed, function by function, the Python code of
    [rate_limiter.py] (TokenBucket, SlidingWindowCounter, RateLimiter),
    [Rag.py] (RAGCache, GeminiRESTChat._call_api, RAGBot.invoke,
    RAGBot.invoke_for_Res, RAGBot._extract_price_from_menu) and [app.py]
    (RAGCacheManager.get_or_create_rag).

    Conventions.
    - A reading of [time.time()] is an explicit argument of type [Q]
      (seconds); float arithmetic is idealised as exact rational arithmetic.
    - A Python [int] is a [Z]; a Python [str] whose characters matter is a
      list of code points ([pystr]); dictionary keys, reasons and hex digests
      are ASCII and kept as [string].
    - A Python dict is a [gmap]; [d[k]] on a missing key raises [KeyError].
    - A call either returns or raises: [outcome].  Objects are mutated in
      place, so the state after a raise is the state reached so far.
    - Locks are not modelled in the sequential parts; the cache manager of
      [app.py] gets an interleaving semantics whose atomic steps are its
      critical sections. *)

From Stdlib Require Import ZArith QArith Qminmax Qround Lqa Lia List String Ascii Bool.
From stdpp Require Import base gmap strings list.

Local Open Scope Z_scope.
Local Open Scope Q_scope.
Local Open Scope string_scope.
Local Open Scope list_scope.

(** ** Python values shared by the modules *)

Abbreviation pystr := (list N).

Inductive exn : Type :=
  | KeyError (key : string)
  | AttributeError (attr : string)
  | ZeroDivisionError
  | TypeError (what : string)
  | OtherError (what : string).

Inductive outcome (A : Type) : Type :=
  | Returned (a : A)
  | Raised (e : exn).
Arguments Returned {A} a.
Arguments Raised {A} e.

Definition Qlt_bool (a b : Q) : bool := negb (Qle_bool b a).

(** [min(a, b)]: the first argument unless the second is strictly smaller. *)
Definition py_min (a b : Q) : Q := if Qlt_bool b a then b else a.

(** [int(x)] on a float: truncation towards zero. *)
Definition py_int (x : Q) : Z := Z.quot (Qnum x) (Zpos (Qden x)).

(** ** rate_limiter.py *)

Record RateLimitConfig : Type := mkRateLimitConfig {
  request_per_minitue : Z;
  request_per_hour : Z;
  request_per_day : Z;
  brust_size : Z;
  brust_window : Z;
  duplicate_message_window : Z;
  max_message_lengh : Z;
  suspicious_requests_per_minitue : Z;
  block_durtion : Z
}.

Definition default_config : RateLimitConfig := {|
  request_per_minitue := 300;
  request_per_hour := 5000;
  request_per_day := 50000;
  brust_size := 120;
  brust_window := 60;
  duplicate_message_window := 10;
  max_message_lengh := 4000;
  suspicious_requests_per_minitue := 100;
  block_durtion := 120
|}.

(** *** TokenBucket *)

Record TokenBucket : Type := mkTokenBucket {
  capacity : Z;
  refill_rate : Q;
  tokens : Q;
  last_refill : Q
}.

(** [TokenBucket.__init__]; [now] is the reading of [time.time()]. *)
Definition TokenBucket_init (capacity : Z) (refill_rate : Q) (now : Q) : TokenBucket :=
  {| capacity := capacity; refill_rate := refill_rate;
     tokens := inject_Z capacity; last_refill := now |}.

(** The token count after the refill of [consume], before any subtraction. *)
Definition refilled (b : TokenBucket) (now : Q) : Q :=
  let elapsed := now - last_refill b in
  py_min (inject_Z (capacity b)) (tokens b + elapsed * refill_rate b).

(** [TokenBucket.consume(tokens)]; [now] is its reading of [time.time()]. *)
Definition consume (b : TokenBucket) (n : Z) (now : Q) : bool * TokenBucket :=
  let t := refilled b now in
  if Qle_bool (inject_Z n) t
  then (true, {| capacity := capacity b; refill_rate := refill_rate b;
                 tokens := t - inject_Z n; last_refill := now |})
  else (false, {| capacity := capacity b; refill_rate := refill_rate b;
                  tokens := t; last_refill := now |}).

(** [TokenBucket.get_wait_time]; float division by [0.0] raises. *)
Definition get_wait_time (b : TokenBucket) : outcome Q :=
  if Qle_bool 1 (tokens b) then Returned 0
  else if Qeq_bool (refill_rate b) 0 then Raised ZeroDivisionError
  else Returned ((1 - tokens b) / refill_rate b).

(** *** SlidingWindowCounter *)

Record SlidingWindowCounter : Type := mkSlidingWindowCounter {
  window_size : Z;
  request : list Q
}.

Definition SlidingWindowCounter_init (window_size : Z) : SlidingWindowCounter :=
  {| window_size := window_size; request := [] |}.

(** [while d and d[0] < cutoff: d.popleft()] *)
Fixpoint popleft_while_lt (cutoff : Q) (d : list Q) : list Q :=
  match d with
  | [] => []
  | x :: r => if Qlt_bool x cutoff then popleft_while_lt cutoff r else d
  end.

Definition _cleanup (c : SlidingWindowCounter) (current_time : Q) : SlidingWindowCounter :=
  let cutoff := current_time - inject_Z (window_size c) in
  {| window_size := window_size c; request := popleft_while_lt cutoff (request c) |}.

Definition add_request (c : SlidingWindowCounter) (timestamp : Q) : SlidingWindowCounter :=
  _cleanup {| window_size := window_size c; request := request c ++ [timestamp] |} timestamp.

Definition get_count (c : SlidingWindowCounter) (timestamp : Q) : Z * SlidingWindowCounter :=
  let c' := _cleanup c timestamp in
  (Z.of_nat (length (request c')), c').

(** *** RateLimiter *)

Record RateLimiter : Type := mkRateLimiter {
  config : RateLimitConfig;
  token_bucket : gmap string TokenBucket;
  minitue_counters : gmap string SlidingWindowCounter;
  hour_counters : gmap string SlidingWindowCounter;
  day_counters : gmap string SlidingWindowCounter;
  last_messages : gmap string (string * Q);
  burst_tracker : gmap string (list Q);
  blocked_users : gmap string Q;
  stats : gmap string Z;
  _cleanup_interval : Q;
  _last_cleanup : Q
}.

(** In-place updates of one attribute. *)
Definition set_token_bucket (f : gmap string TokenBucket -> gmap string TokenBucket)
    (s : RateLimiter) : RateLimiter :=
  mkRateLimiter (config s) (f (token_bucket s)) (minitue_counters s) (hour_counters s)
    (day_counters s) (last_messages s) (burst_tracker s) (blocked_users s) (stats s)
    (_cleanup_interval s) (_last_cleanup s).
Definition set_minitue_counters
    (f : gmap string SlidingWindowCounter -> gmap string SlidingWindowCounter)
    (s : RateLimiter) : RateLimiter :=
  mkRateLimiter (config s) (token_bucket s) (f (minitue_counters s)) (hour_counters s)
    (day_counters s) (last_messages s) (burst_tracker s) (blocked_users s) (stats s)
    (_cleanup_interval s) (_last_cleanup s).
Definition set_hour_counters
    (f : gmap string SlidingWindowCounter -> gmap string SlidingWindowCounter)
    (s : RateLimiter) : RateLimiter :=
  mkRateLimiter (config s) (token_bucket s) (minitue_counters s) (f (hour_counters s))
    (day_counters s) (last_messages s) (burst_tracker s) (blocked_users s) (stats s)
    (_cleanup_interval s) (_last_cleanup s).
Definition set_day_counters
    (f : gmap string SlidingWindowCounter -> gmap string SlidingWindowCounter)
    (s : RateLimiter) : RateLimiter :=
  mkRateLimiter (config s) (token_bucket s) (minitue_counters s) (hour_counters s)
    (f (day_counters s)) (last_messages s) (burst_tracker s) (blocked_users s) (stats s)
    (_cleanup_interval s) (_last_cleanup s).
Definition set_last_messages (f : gmap string (string * Q) -> gmap string (string * Q))
    (s : RateLimiter) : RateLimiter :=
  mkRateLimiter (config s) (token_bucket s) (minitue_counters s) (hour_counters s)
    (day_counters s) (f (last_messages s)) (burst_tracker s) (blocked_users s) (stats s)
    (_cleanup_interval s) (_last_cleanup s).
Definition set_burst_tracker (f : gmap string (list Q) -> gmap string (list Q))
    (s : RateLimiter) : RateLimiter :=
  mkRateLimiter (config s) (token_bucket s) (minitue_counters s) (hour_counters s)
    (day_counters s) (last_messages s) (f (burst_tracker s)) (blocked_users s) (stats s)
    (_cleanup_interval s) (_last_cleanup s).
Definition set_blocked_users (f : gmap string Q -> gmap string Q)
    (s : RateLimiter) : RateLimiter :=
  mkRateLimiter (config s) (token_bucket s) (minitue_counters s) (hour_counters s)
    (day_counters s) (last_messages s) (burst_tracker s) (f (blocked_users s)) (stats s)
    (_cleanup_interval s) (_last_cleanup s).
Definition set_stats (f : gmap string Z -> gmap string Z)
    (s : RateLimiter) : RateLimiter :=
  mkRateLimiter (config s) (token_bucket s) (minitue_counters s) (hour_counters s)
    (day_counters s) (last_messages s) (burst_tracker s) (blocked_users s) (f (stats s))
    (_cleanup_interval s) (_last_cleanup s).
Definition set_last_cleanup (t : Q) (s : RateLimiter) : RateLimiter :=
  mkRateLimiter (config s) (token_bucket s) (minitue_counters s) (hour_counters s)
    (day_counters s) (last_messages s) (burst_tracker s) (blocked_users s) (stats s)
    (_cleanup_interval s) t.

(** [RateLimiter.__init__(config)]; [now] is the reading stored in
    [_last_cleanup].  The keys of [stats] are those of the source. *)
Definition RateLimiter_init (cfg : RateLimitConfig) (now : Q) : RateLimiter := {|
  config := cfg;
  token_bucket := ∅;
  minitue_counters := ∅;
  hour_counters := ∅;
  day_counters := ∅;
  last_messages := ∅;
  burst_tracker := ∅;
  blocked_users := ∅;
  stats := <["total_requests" := 0%Z]> (<["blocked_requests" := 0%Z]>
           (<["spam_detected" := 0%Z]> (<["burst_violations" := 0%Z]> ∅)));
  _cleanup_interval := 300;
  _last_cleanup := now
|}.

(** The answer of [check_rate_limit]: (allowed, reason, retry_after). *)
Definition response : Type := bool * option string * option Z.

(** A statement of a method body falls through, returns, or raises. *)
Inductive flow (A : Type) : Type :=
  | Next (a : A)
  | Return (r : response)
  | Raise (e : exn).
Arguments Next {A} a.
Arguments Return {A} r.
Arguments Raise {A} e.

Definition M (A : Type) : Type := RateLimiter -> flow A * RateLimiter.

Definition ret {A} (a : A) : M A := fun s => (Next a, s).
Definition bind {A B} (m : M A) (k : A -> M B) : M B :=
  fun s => match m s with
           | (Next a, s') => k a s'
           | (Return r, s') => (Return r, s')
           | (Raise e, s') => (Raise e, s')
           end.
Definition self : M RateLimiter := fun s => (Next s, s).
Definition modify (f : RateLimiter -> RateLimiter) : M unit := fun s => (Next tt, f s).
Definition return_ {A} (r : response) : M A := fun s => (Return r, s).
Definition raise {A} (e : exn) : M A := fun s => (Raise e, s).
Definition pass : M unit := ret tt.

Notation "'let!' x := m 'in' k" := (bind m (fun x => k))
  (at level 10, x name, m at level 100, k at level 200).
Notation "m ;;; k" := (bind m (fun _ => k))
  (at level 100, k at level 200, right associativity).

(** The result of a whole method call. *)
Definition call (m : M unit) (s : RateLimiter) : outcome response * RateLimiter :=
  match m s with
  | (Return r, s') => (Returned r, s')
  | (Raise e, s') => (Raised e, s')
  | (Next _, s') => (Raised (OtherError "fell off the end"), s')
  end.

(** [self.stats[key] += 1]: the read of a missing key raises [KeyError]. *)
Definition stats_incr (key : string) : M unit :=
  let! s := self in
  match stats s !! key with
  | Some v => modify (set_stats (insert key (v + 1)%Z))
  | None => raise (KeyError key)
  end.

(** The attributes of the singleton returned by [get_logger()] in
    [encryption_utils.py]: what [__new__], [_initialize] and the class body
    define.  Reading any other attribute raises [AttributeError]. *)
Definition logger_attributes : list string :=
  ["_instance"; "_lock"; "_initialized"; "logger"; "_initialize"; "info_";
   "log_query"; "log_client_operation"; "log_security_event"; "log_error";
   "_safe_log_error"].

Definition logger_getattr (name : string) : outcome unit :=
  if bool_decide (name ∈ logger_attributes) then Returned tt
  else Raised (AttributeError name).

Definition lift {A} (o : outcome A) : M A :=
  fun s => match o with
           | Returned a => (Next a, s)
           | Raised e => (Raise e, s)
           end.

(** The readings of [time.time()] taken during one [check_rate_limit]:
    by the method itself, by [TokenBucket.__init__] when the bucket is
    created, and by [TokenBucket.consume]. *)
Record Clock : Type := mkClock {
  t_check : Q;
  t_bucket_init : Q;
  t_consume : Q
}.

Definition counter_add
    (get : RateLimiter -> gmap string SlidingWindowCounter)
    (set : (gmap string SlidingWindowCounter -> gmap string SlidingWindowCounter) ->
           RateLimiter -> RateLimiter)
    (user_id : string) (timestamp : Q) : M unit :=
  let! s := self in
  match get s !! user_id with
  | Some c => modify (set (insert user_id (add_request c timestamp)))
  | None => raise (KeyError user_id)
  end.

Definition counter_count
    (get : RateLimiter -> gmap string SlidingWindowCounter)
    (set : (gmap string SlidingWindowCounter -> gmap string SlidingWindowCounter) ->
           RateLimiter -> RateLimiter)
    (user_id : string) (timestamp : Q) : M Z :=
  let! s := self in
  match get s !! user_id with
  | Some c =>
      modify (set (insert user_id (snd (get_count c timestamp)))) ;;;
      ret (fst (get_count c timestamp))
  | None => raise (KeyError user_id)
  end.

(** [RateLimiter._cleanup_old_data].  Each list comprehension followed by a
    loop of [del]/[pop] is a filter of the dictionary; [get_count] cleans
    every day counter it visits. *)
Definition _cleanup_old_data (current_time : Q) : M unit :=
  modify (set_last_cleanup current_time) ;;;
  let cutoff := current_time - 3600 in
  modify (set_last_messages
            (filter (fun kv : string * (string * Q) =>
                       Qlt_bool (snd (snd kv)) cutoff = false))) ;;;
  modify (set_blocked_users
            (filter (fun kv : string * Q => Qle_bool (snd kv) current_time = false))) ;;;
  let! s := self in
  let inactive_users : gset string :=
    dom (filter (fun kv : string * SlidingWindowCounter =>
                   fst (get_count (snd kv) current_time) = 0%Z) (day_counters s)) in
  modify (set_day_counters (fmap (fun c => snd (get_count c current_time)))) ;;;
  modify (set_token_bucket
            (filter (fun kv : string * TokenBucket => fst kv ∉ inactive_users))) ;;;
  modify (set_minitue_counters
            (filter (fun kv : string * SlidingWindowCounter => fst kv ∉ inactive_users))) ;;;
  modify (set_hour_counters
            (filter (fun kv : string * SlidingWindowCounter => fst kv ∉ inactive_users))) ;;;
  modify (set_day_counters
            (filter (fun kv : string * SlidingWindowCounter => fst kv ∉ inactive_users))) ;;;
  modify (set_burst_tracker
            (filter (fun kv : string * list Q => fst kv ∉ inactive_users))) ;;;
  if bool_decide (inactive_users = ∅) then pass
  else lift (logger_getattr "logging").

Section RateLimiterMethods.

(** [hashlib] is a library: [sha256_hexdigest x] stands for
    [hashlib.sha256(x.encode()).hexdigest()] and [md5_lower_strip m] for
    [hashlib.md5(m.lower().strip().encode()).hexdigest()]. *)
Variable sha256_hexdigest : pystr -> string.
Variable md5_lower_strip : pystr -> string.

(** [f"{client_id}:{phone_number}"], hashed, first 16 hex digits. *)
Definition _get_user_id (phone_number client_id : pystr) : string :=
  let combined := client_id ++ [58%N] ++ phone_number in
  String.substring 0 16 (sha256_hexdigest combined).

Definition check_rate_limit (phone_number client_id message : pystr) (clk : Clock)
    : M unit :=
  let user_id := _get_user_id phone_number client_id in
  let current_time := t_check clk in
  stats_incr "total_requests" ;;;
  let! s := self in
  match blocked_users s !! user_id with
  | Some unblock_time =>
      if Qlt_bool current_time unblock_time
      then return_ (false, Some "Temporary block due to suspicious activity",
                    Some (py_int (unblock_time - current_time)))
      else modify (set_blocked_users (delete user_id))
  | None => pass
  end ;;;
  let! s := self in
  match token_bucket s !! user_id with
  | Some _ => pass
  | None =>
      modify (set_token_bucket
                (insert user_id
                   (TokenBucket_init (brust_size (config s))
                      (inject_Z (request_per_minitue (config s)) / 60)
                      (t_bucket_init clk))))
  end ;;;
  let! s := self in
  match minitue_counters s !! user_id with
  | Some _ => pass
  | None =>
      modify (set_minitue_counters (insert user_id (SlidingWindowCounter_init 60))) ;;;
      modify (set_hour_counters (insert user_id (SlidingWindowCounter_init 3600))) ;;;
      modify (set_day_counters (insert user_id (SlidingWindowCounter_init 86400))) ;;;
      modify (set_burst_tracker (insert user_id []))
  end ;;;
  let message_hash := md5_lower_strip message in
  let! s := self in
  match last_messages s !! user_id with
  | Some (last_hash, last_time) =>
      if bool_decide (last_hash = message_hash)
         && Qlt_bool (current_time - last_time)
                     (inject_Z (duplicate_message_window (config s)))
      then stats_incr "spam_detected" ;;;
           return_ (false,
                    Some "Duplicated message detected. Please wait before responding.",
                    Some 30%Z)
      else pass
  | None => pass
  end ;;;
  modify (set_last_messages (insert user_id (message_hash, current_time))) ;;;
  let! s := self in
  (if (max_message_lengh (config s) <? Z.of_nat (length message))%Z
   then return_ (false, Some "Message too long. Please keep it under 2000 character.",
                 None)
   else pass) ;;;
  match burst_tracker s !! user_id with
  | None => raise (KeyError user_id)
  | Some tracker =>
      let burst_cutoff := current_time - inject_Z (brust_window (config s)) in
      let tracker' := popleft_while_lt burst_cutoff (tracker ++ [current_time]) in
      modify (set_burst_tracker (insert user_id tracker')) ;;;
      (if (brust_size (config s) <? Z.of_nat (length tracker'))%Z
       then stats_incr "burst_voilations" ;;;
            return_ (false, Some "Too many requests in short time. Please slow down.",
                     Some 10%Z)
       else pass)
  end ;;;
  let! s := self in
  match token_bucket s !! user_id with
  | None => raise (KeyError user_id)
  | Some bucket =>
      let bucket' := snd (consume bucket 1 (t_consume clk)) in
      modify (set_token_bucket (insert user_id bucket')) ;;;
      if fst (consume bucket 1 (t_consume clk)) then pass
      else match get_wait_time bucket' with
           | Returned w =>
               return_ (false, Some "Rate limit exceeded. Please wait.",
                        Some (py_int w + 1)%Z)
           | Raised e => raise e
           end
  end ;;;
  counter_add minitue_counters set_minitue_counters user_id current_time ;;;
  counter_add hour_counters set_hour_counters user_id current_time ;;;
  counter_add day_counters set_day_counters user_id current_time ;;;
  let! minute_count :=
    counter_count minitue_counters set_minitue_counters user_id current_time in
  let! hour_count :=
    counter_count hour_counters set_hour_counters user_id current_time in
  let! day_count :=
    counter_count day_counters set_day_counters user_id current_time in
  let! s := self in
  if (suspicious_requests_per_minitue (config s) <? minute_count)%Z then
    modify (set_blocked_users
              (insert user_id (current_time + inject_Z (block_durtion (config s))))) ;;;
    stats_incr "blocked_requests" ;;;
    return_ (false, Some "Suspicious activity detected. Temporarily blocked.",
             Some (block_durtion (config s)))
  else if (request_per_minitue (config s) <? minute_count)%Z then
    return_ (false, Some "Too many requests in per minute. Please wait.", Some 60%Z)
  else if (request_per_hour (config s) <? hour_count)%Z then
    return_ (false, Some "Hourly request limit reached. Please try again later.",
             Some 300%Z)
  else if (request_per_day (config s) <? day_count)%Z then
    return_ (false, Some "Dailty request limit reached. Please try again tommorow.",
             Some 3600%Z)
  else
    (if Qlt_bool (_cleanup_interval s) (current_time - _last_cleanup s)
     then _cleanup_old_data current_time
     else pass) ;;;
    return_ (true, None, None).

(** [RateLimiter.unblock_user]: [Some true]/[Some false] is the value returned. *)
Definition unblock_user (phone_number client_id : pystr) (s : RateLimiter)
    : bool * RateLimiter :=
  let user_id := _get_user_id phone_number client_id in
  match blocked_users s !! user_id with
  | Some _ => (true, set_blocked_users (delete user_id) s)
  | None => (false, s)
  end.

(** [RateLimiter.reset_user_limits]: [pop(user_id, None)] on every map. *)
Definition reset_user_limits (phone_number client_id : pystr) (s : RateLimiter)
    : RateLimiter :=
  let user_id := _get_user_id phone_number client_id in
  set_blocked_users (delete user_id)
    (set_last_messages (delete user_id)
      (set_burst_tracker (delete user_id)
        (set_hour_counters (delete user_id)
          (set_day_counters (delete user_id)
            (set_minitue_counters (delete user_id)
              (set_token_bucket (delete user_id) s)))))).

(** The public operations a caller can issue, and a run of them on one
    limiter object; the answers of the [check_rate_limit] calls are
    collected in order. *)
Inductive operation : Type :=
  | Check (phone_number client_id message : pystr) (clk : Clock)
  | Unblock (phone_number client_id : pystr)
  | Reset (phone_number client_id : pystr).

Fixpoint run (ops : list operation) (s : RateLimiter)
    : list (outcome response) * RateLimiter :=
  match ops with
  | [] => ([], s)
  | Check p c m clk :: rest =>
      let r := call (check_rate_limit p c m clk) s in
      let rs := run rest (snd r) in
      (fst r :: fst rs, snd rs)
  | Unblock p c :: rest => run rest (snd (unblock_user p c s))
  | Reset p c :: rest => run rest (reset_user_limits p c s)
  end.

End RateLimiterMethods.

(** ** Python strings *)

(** Code points of a UTF-8 encoded literal of this file. *)
Fixpoint utf8_decode (bytes : list N) : pystr :=
  match bytes with
  | [] => []
  | b :: r =>
      if (b <? 128)%N then b :: utf8_decode r
      else if (b <? 224)%N then
        match r with
        | c1 :: r1 => ((b - 192) * 64 + (c1 - 128))%N :: utf8_decode r1
        | [] => []
        end
      else if (b <? 240)%N then
        match r with
        | c1 :: c2 :: r2 =>
            ((b - 224) * 4096 + (c1 - 128) * 64 + (c2 - 128))%N :: utf8_decode r2
        | _ => []
        end
      else
        match r with
        | c1 :: c2 :: c3 :: r3 =>
            ((b - 240) * 262144 + (c1 - 128) * 4096 + (c2 - 128) * 64 + (c3 - 128))%N
              :: utf8_decode r3
        | _ => []
        end
  end.

Definition py (literal : string) : pystr :=
  utf8_decode (map N_of_ascii (list_ascii_of_string literal)).

(** [str.isspace] of one character (the whitespace code points of CPython). *)
Definition py_isspace (c : N) : bool :=
  ((9 <=? c) && (c <=? 13) || (28 <=? c) && (c <=? 32) || (c =? 133) || (c =? 160)
   || (c =? 5760) || (8192 <=? c) && (c <=? 8202) || (c =? 8232) || (c =? 8233)
   || (c =? 8239) || (c =? 8287) || (c =? 12288))%N.

Fixpoint py_lstrip (s : pystr) : pystr :=
  match s with
  | [] => []
  | c :: r => if py_isspace c then py_lstrip r else s
  end.

Definition py_rstrip (s : pystr) : pystr := rev (py_lstrip (rev s)).

(** [s.strip()] *)
Definition py_strip (s : pystr) : pystr := py_rstrip (py_lstrip s).

(** [l[-n:]]: the last [n] items; the whole list when [n = 0] (as [-0] is
    [0]); the list without its first [-n] items when [n] is negative. *)
Definition py_slice_last {A} (n : Z) (l : list A) : list A :=
  if (n =? 0)%Z then l
  else if (0 <? n)%Z then drop (length l - Z.to_nat n) l
  else drop (Z.to_nat (- n)) l.

(** ** Rag.py: RAGCache *)

(** A dict whose insertion order is observable ([next(iter(d))]). *)
Fixpoint dict_get {V} (d : list (pystr * V)) (k : pystr) : option V :=
  match d with
  | [] => None
  | (k', v) :: r => if bool_decide (k' = k) then Some v else dict_get r k
  end.

(** [d[k] = v]: an existing key keeps its position. *)
Fixpoint dict_set {V} (d : list (pystr * V)) (k : pystr) (v : V) : list (pystr * V) :=
  match d with
  | [] => [(k, v)]
  | (k', v') :: r =>
      if bool_decide (k' = k) then (k, v) :: r else (k', v') :: dict_set r k v
  end.

(** [d.pop(k, None)]: no item under [k] is left. *)
Fixpoint dict_pop {V} (d : list (pystr * V)) (k : pystr) : list (pystr * V) :=
  match d with
  | [] => []
  | (k', v') :: r =>
      if bool_decide (k' = k) then dict_pop r k else (k', v') :: dict_pop r k
  end.

(** What a cache entry holds besides its timestamp: [cache_query_result]
    stores ['context'] and ['relevance'], [set] stores ['value']. *)
Inductive cached : Type :=
  | QueryResult (context : pystr) (relevance : Q)
  | CachedValue (value : pystr).

Record entry : Type := mkEntry {
  payload : cached;
  timestamp : Q
}.

Record turn : Type := mkTurn {
  role : string;
  content : pystr;
  turn_timestamp : Q
}.

(** The attributes of [RAGCache] that the methods below read or write. *)
Record RAGCache : Type := mkRAGCache {
  conversation_history : gmap pystr (list turn);
  query_cache : list (pystr * entry);
  max_history_size : Z;
  max_query_cache : Z
}.

Definition RAGCache_init (max_history_size max_query_cache : Z) : RAGCache :=
  {| conversation_history := ∅; query_cache := [];
     max_history_size := max_history_size; max_query_cache := max_query_cache |}.

Definition set_query_cache (f : list (pystr * entry) -> list (pystr * entry))
    (c : RAGCache) : RAGCache :=
  {| conversation_history := conversation_history c; query_cache := f (query_cache c);
     max_history_size := max_history_size c; max_query_cache := max_query_cache c |}.

(** [RAGCache.add_to_history]; [now] is the reading of [time.time()]. *)
Definition add_to_history (client_id : pystr) (role : string) (content : pystr) (now : Q)
    (c : RAGCache) : RAGCache :=
  match py_strip content with
  | [] => c
  | stripped =>
      let turns := default [] (conversation_history c !! client_id)
                   ++ [mkTurn role stripped now] in
      {| conversation_history :=
           <[client_id := py_slice_last (max_history_size c) turns]>
             (conversation_history c);
         query_cache := query_cache c;
         max_history_size := max_history_size c;
         max_query_cache := max_query_cache c |}
  end.

(** [if len(d) >= max: del d[next(iter(d))]]; on an empty dict
    [next(iter(d))] raises [StopIteration], which is [None] here. *)
Definition evict_if_full (max : Z) (d : list (pystr * entry))
    : option (list (pystr * entry)) :=
  if (max <=? Z.of_nat (length d))%Z
  then match d with [] => None | _ :: r => Some r end
  else Some d.

Section RAGCacheMethods.

(** [sha256_lower q] stands for
    [hashlib.sha256(q.lower().encode()).hexdigest()]. *)
Variable sha256_lower : pystr -> pystr.

(** [RAGCache.cache_query_result] *)
Definition cache_query_result (query context : pystr) (relevance_score : Q) (now : Q)
    (c : RAGCache) : RAGCache :=
  match query, context with
  | [], _ | _, [] => c
  | _, _ =>
      let query_hash := sha256_lower query in
      match evict_if_full (max_query_cache c) (query_cache c) with
      | Some d =>
          set_query_cache
            (fun _ => dict_set d query_hash
                        (mkEntry (QueryResult context relevance_score) now)) c
      | None => c (* the [except] clause logs and returns *)
      end
  end.

(** [RAGCache.get_cached_query]; [now] is the reading of [time.time()]
    compared with the entry's timestamp. *)
Definition get_cached_query (query : pystr) (max_age_seconds : Z) (now : Q)
    (c : RAGCache) : option entry * RAGCache :=
  match query with
  | [] => (None, c)
  | _ =>
      let query_hash := sha256_lower query in
      match dict_get (query_cache c) query_hash with
      | Some data =>
          if Qle_bool (now - timestamp data) (inject_Z max_age_seconds)
          then (Some data, c)
          else (None, set_query_cache (fun d => dict_pop d query_hash) c)
      | None => (None, set_query_cache (fun d => dict_pop d query_hash) c)
      end
  end.

End RAGCacheMethods.

(** [RAGCache.get] *)
Definition RAGCache_get (key : pystr) (c : RAGCache) : option entry :=
  dict_get (query_cache c) key.

(** [RAGCache.set]; [now] is the reading of [time.time()]. *)
Definition RAGCache_set (key value : pystr) (now : Q) (c : RAGCache) : RAGCache :=
  match evict_if_full (max_query_cache c) (query_cache c) with
  | Some d => set_query_cache (fun _ => dict_set d key (mkEntry (CachedValue value) now)) c
  | None => c (* the [except] clause logs and returns *)
  end.

(** ** app.py: RAGCacheManager *)

(** A cached item: the [RAGBot] object (identified by its rank among the
    objects constructed so far), the client data and the expiry time. *)
Record cache_item : Type := mkCacheItem {
  rag : nat;
  client_data : gmap string (option pystr);
  expires_at : Q
}.

Record RAGCacheManager : Type := mkRAGCacheManager {
  _cache : list (pystr * cache_item);
  _ttl_seconds : Z;
  _max_cache_size : Z;
  _hits : Z;
  _misses : Z
}.

Definition RAGCacheManager_init (ttl_minutes max_cache_size : Z) : RAGCacheManager :=
  {| _cache := []; _ttl_seconds := (ttl_minutes * 60)%Z;
     _max_cache_size := max_cache_size; _hits := 0%Z; _misses := 0%Z |}.

(** [min(d.keys(), key=lambda k: d[k]['expires_at'])]: the first key, in
    insertion order, whose expiry is minimal. *)
Fixpoint oldest_key (d : list (pystr * cache_item)) : option pystr :=
  match d with
  | [] => None
  | (k, v) :: r =>
      match oldest_key r with
      | Some k' =>
          match dict_get r k' with
          | Some v' => if Qlt_bool (expires_at v') (expires_at v) then Some k' else Some k
          | None => Some k
          end
      | None => Some k
      end
  end.

(** [RAGCacheManager._evict_oldest] *)
Definition _evict_oldest (d : list (pystr * cache_item)) : list (pystr * cache_item) :=
  match oldest_key d with
  | Some k => dict_pop d k
  | None => d
  end.

(** What one call of [get_or_create_rag] receives from outside: its
    arguments, its reading of [time.time()], the dict [get_client] returns
    (as the unwrap loop leaves it; [None] when there is no such client) and
    whether [RAGBot(...)] returns ([false]: it raises). *)
Record request_env : Type := mkRequestEnv {
  req_client_id : pystr;
  req_time : Q;
  req_client : option (gmap string (option pystr));
  req_build_ok : bool
}.

(** Where a call stands.  The two [with self._lock:] blocks are the steps
    out of [AtLookup] and [AtStore]; a call is preemptible between them. *)
Inductive position : Type :=
  | AtLookup
  | AtFetch
  | AtBuild (data : gmap string (option pystr)) (uploaded_doc : pystr)
  | AtStore (bot : nat) (data : gmap string (option pystr))
  | Finished (result : option (nat * gmap string (option pystr))).

(** The manager shared by all calls, the [RAGBot] objects constructed so
    far (the client id of each, in order of construction; every
    construction embeds its document), and the calls in flight. *)
Record system : Type := mkSystem {
  manager : RAGCacheManager;
  constructed : list pystr;
  calls : list (request_env * position)
}.

Section CacheManager.

(** [str(we_are())], appended to the uploaded document. *)
Variable we_are : pystr.

(** First critical section: lookup, hit or miss. *)
Definition lookup_step (e : request_env) (m : RAGCacheManager)
    : RAGCacheManager * position :=
  match dict_get (_cache m) (req_client_id e) with
  | Some cached_item =>
      if Qlt_bool (req_time e) (expires_at cached_item)
      then ({| _cache := _cache m; _ttl_seconds := _ttl_seconds m;
               _max_cache_size := _max_cache_size m;
               _hits := (_hits m + 1)%Z; _misses := _misses m |},
            Finished (Some (rag cached_item, client_data cached_item)))
      else ({| _cache := _cache m; _ttl_seconds := _ttl_seconds m;
               _max_cache_size := _max_cache_size m;
               _hits := _hits m; _misses := (_misses m + 1)%Z |}, AtFetch)
  | None =>
      ({| _cache := _cache m; _ttl_seconds := _ttl_seconds m;
          _max_cache_size := _max_cache_size m;
          _hits := _hits m; _misses := (_misses m + 1)%Z |}, AtFetch)
  end.

(** Outside the lock: [get_client], the unwrap loop and the checks of the
    uploaded document. *)
Definition fetch_step (e : request_env) : position :=
  match req_client e with
  | None => Finished None
  | Some data =>
      if bool_decide (data = ∅) then Finished None
      else match data !! "Uploaded Document" with
           | Some (Some uploaded_doc) =>
               match uploaded_doc with
               | [] => Finished None
               | _ =>
                   if (Z.of_nat (length (py_strip uploaded_doc)) <? 10)%Z
                   then Finished None
                   else AtBuild data (uploaded_doc ++ we_are)
               end
           | _ => Finished None
           end
  end.

(** Second critical section: store, then evict when over the size. *)
Definition store_step (e : request_env) (bot : nat)
    (data : gmap string (option pystr)) (m : RAGCacheManager) : RAGCacheManager :=
  let stored :=
    dict_set (_cache m) (req_client_id e)
      (mkCacheItem bot data (req_time e + inject_Z (_ttl_seconds m))) in
  {| _cache := if (_max_cache_size m <? Z.of_nat (length stored))%Z
               then _evict_oldest stored else stored;
     _ttl_seconds := _ttl_seconds m; _max_cache_size := _max_cache_size m;
     _hits := _hits m; _misses := _misses m |}.

(** One atomic step of call number [i]; [None] when it has finished or
    does not exist. *)
Definition step (i : nat) (σ : system) : option system :=
  match calls σ !! i with
  | None => None
  | Some (e, AtLookup) =>
      let r := lookup_step e (manager σ) in
      Some (mkSystem (fst r) (constructed σ) (<[i := (e, snd r)]> (calls σ)))
  | Some (e, AtFetch) =>
      Some (mkSystem (manager σ) (constructed σ) (<[i := (e, fetch_step e)]> (calls σ)))
  | Some (e, AtBuild data doc) =>
      if req_build_ok e
      then Some (mkSystem (manager σ) (constructed σ ++ [req_client_id e])
                   (<[i := (e, AtStore (length (constructed σ)) data)]> (calls σ)))
      else Some (mkSystem (manager σ) (constructed σ)
                   (<[i := (e, Finished None)]> (calls σ)))
  | Some (e, AtStore bot data) =>
      Some (mkSystem (store_step e bot data (manager σ)) (constructed σ)
              (<[i := (e, Finished (Some (bot, data)))]> (calls σ)))
  | Some (e, Finished _) => None
  end.

(** A schedule names the call that moves next; a step that cannot be
    taken is skipped. *)
Fixpoint exec (schedule : list nat) (σ : system) : system :=
  match schedule with
  | [] => σ
  | i :: rest => exec rest (default σ (step i σ))
  end.

Definition start (m : RAGCacheManager) (requests : list request_env) : system :=
  mkSystem m [] (map (fun e => (e, AtLookup)) requests).

End CacheManager.

(** ** Values decoded from JSON *)

Set Warnings "-register-all".

Inductive json : Type :=
  | JNull
  | JBool (b : bool)
  | JNum (x : Q)
  | JStr (s : pystr)
  | JList (items : list json)
  | JDict (fields : list (pystr * json)).

(** Truth value of a Python object. *)
Definition py_truthy (j : json) : bool :=
  match j with
  | JNull => false
  | JBool b => b
  | JNum x => negb (Qeq_bool x 0)
  | JStr s => match s with [] => false | _ => true end
  | JList l => match l with [] => false | _ => true end
  | JDict d => match d with [] => false | _ => true end
  end.

(** [x.get(key, default)]: only a dict has [get]. *)
Definition json_get (x : json) (key : pystr) (dflt : json) : outcome json :=
  match x with
  | JDict d => Returned (default dflt (dict_get d key))
  | _ => Raised (AttributeError "get")
  end.

(** [x.strip()]: only a str has [strip]. *)
Definition json_strip (x : json) : outcome pystr :=
  match x with
  | JStr s => Returned (py_strip s)
  | _ => Raised (AttributeError "strip")
  end.

Definition obind {A B} (o : outcome A) (k : A -> outcome B) : outcome B :=
  match o with
  | Returned a => k a
  | Raised e => Raised e
  end.

Notation "'let?' x := m 'in' k" := (obind m (fun x => k))
  (at level 10, x name, m at level 100, k at level 200).

(** ** Regular expressions of the price verifier *)

Inductive regex : Type :=
  | Empty
  | Lit (c : N)
  | Cls (p : N -> bool)
  | Seq (a b : regex)
  | Alt (a b : regex)
  | Opt (a : regex)
  | Star (a : regex)
  | Group (a : regex).

(** A literal text, as produced by [re.escape]. *)
Definition lits (s : pystr) : regex := fold_right (fun c r => Seq (Lit c) r) Empty s.

Section Matcher.

(** How a literal of the pattern is compared with a character of the
    text: equality, or equality up to case under [re.IGNORECASE]. *)
Variable ceq : N -> N -> bool.

(** Backtracking match of [r] at the start of [inp], greedy, first
    alternative first; [k] receives the rest of the text and the text
    captured by the group. *)
Fixpoint rmatch (r : regex) (inp : pystr) (cap : option pystr)
    (k : pystr -> option pystr -> option (option pystr * pystr))
    : option (option pystr * pystr) :=
  match r with
  | Empty => k inp cap
  | Lit c =>
      match inp with
      | x :: rest => if ceq c x then k rest cap else None
      | [] => None
      end
  | Cls p =>
      match inp with
      | x :: rest => if p x then k rest cap else None
      | [] => None
      end
  | Seq a b => rmatch a inp cap (fun inp' cap' => rmatch b inp' cap' k)
  | Alt a b =>
      match rmatch a inp cap k with
      | Some m => Some m
      | None => rmatch b inp cap k
      end
  | Opt a =>
      match rmatch a inp cap k with
      | Some m => Some m
      | None => k inp cap
      end
  | Star a =>
      (fix loop (fuel : nat) (inp : pystr) (cap : option pystr) :=
         match fuel with
         | O => k inp cap
         | S fuel' =>
             match rmatch a inp cap
                     (fun inp' cap' =>
                        if (length inp' <? length inp)%nat
                        then loop fuel' inp' cap' else None) with
             | Some m => Some m
             | None => k inp cap
             end
         end) (length inp) inp cap
  | Group a =>
      rmatch a inp cap
        (fun inp' _ => k inp' (Some (take (length inp - length inp') inp)))
  end.

(** The group of the leftmost match: [re.findall(r, text)[0]] when
    [re.findall] is not empty. *)
Fixpoint first_match (r : regex) (text : pystr) : option pystr :=
  match rmatch r text None (fun rest cap => Some (cap, rest)) with
  | Some (cap, _) => Some (default [] cap)
  | None =>
      match text with
      | [] => None
      | _ :: rest => first_match r rest
      end
  end.

End Matcher.

Definition is_digit (c : N) : bool := ((48 <=? c) && (c <=? 57))%N.

(** [\s*], [\s+], [[.\-:]*], [(?:₹|rs\.?|inr)?] and
    [(\d+(?:\.\d{1,2})?)]. *)
Definition re_spaces : regex := Star (Cls py_isspace).
Definition re_spaces1 : regex := Seq (Cls py_isspace) re_spaces.
Definition re_leaders : regex :=
  Star (Cls (fun c => (c =? 46) || (c =? 45) || (c =? 58))%N).
Definition re_currency : regex :=
  Opt (Alt (Lit 8377) (Alt (Seq (lits (py "rs")) (Opt (Lit 46))) (lits (py "inr")))).
Definition re_number : regex :=
  Group (Seq (Seq (Cls is_digit) (Star (Cls is_digit)))
             (Opt (Seq (Lit 46) (Seq (Cls is_digit) (Opt (Cls is_digit)))))).
Definition re_price : regex := Seq re_currency (Seq re_spaces re_number).
Definition re_price_after : regex :=
  Seq re_spaces (Seq re_leaders (Seq re_spaces re_price)).

(** [float(s)] for a text of the shape [\d+(?:\.\d{1,2})?]. *)
Definition digits_value (s : pystr) : Z :=
  fold_left (fun acc c => (acc * 10 + (Z.of_N c - 48))%Z) s 0%Z.

Fixpoint split_at_dot (s : pystr) : pystr * pystr :=
  match s with
  | [] => ([], [])
  | c :: r => if (c =? 46)%N then ([], r)
              else (c :: fst (split_at_dot r), snd (split_at_dot r))
  end.

Definition py_float (s : pystr) : Q :=
  let whole := fst (split_at_dot s) in
  let frac := snd (split_at_dot s) in
  inject_Z (digits_value whole)
  + inject_Z (digits_value frac) / inject_Z (10 ^ Z.of_nat (length frac)).

(** [text.find(sub)]: the first index at which [sub] occurs. *)
Fixpoint py_find (sub text : pystr) : option nat :=
  if bool_decide (take (length sub) text = sub) then Some O
  else match text with
       | [] => None
       | _ :: rest => option_map S (py_find sub rest)
       end.

(** ** Rag.py: RAGBot *)

(** The attributes of a [RAGBot] the two entry points read or write:
    whether [self.chain] and [self.retriever] are set, and the cache that
    holds the conversation history. *)
Record RAGBot : Type := mkRAGBot {
  client_id : pystr;
  chain : bool;
  retriever : bool;
  cache : RAGCache
}.

Definition set_cache (f : RAGCache -> RAGCache) (bot : RAGBot) : RAGBot :=
  {| client_id := client_id bot; chain := chain bot; retriever := retriever bot;
     cache := f (cache bot) |}.

(** The parameters of [logger.log_error(self, function, error, context)]:
    a call that passes any other keyword raises [TypeError] before the body
    (and its [try]) is entered. *)
Definition log_error_parameters : list string := ["function"; "error"; "context"].

Definition call_log_error (keywords : list string) : outcome unit :=
  if forallb (fun k => bool_decide (k ∈ log_error_parameters)) keywords
  then Returned tt
  else Raised (TypeError "log_error() got an unexpected keyword argument").

(** [d[key] = v] *)
Definition json_set (x : json) (key : pystr) (v : json) : json :=
  match x with
  | JDict d => JDict (dict_set d key v)
  | _ => x
  end.

(** [v != x] for a float [v]: [True] and [False] compare as [1] and [0]. *)
Definition py_ne_float (v : Q) (x : json) : bool :=
  match x with
  | JNum p => negb (Qeq_bool v p)
  | JBool b => negb (Qeq_bool v (if b then 1 else 0))
  | _ => true
  end.

Definition is_dict (x : json) : bool :=
  match x with JDict _ => true | _ => false end.

Definition is_none (x : json) : bool :=
  match x with JNull => true | _ => false end.

(** [sep.join(items)] *)
Fixpoint py_join (sep : pystr) (items : list pystr) : pystr :=
  match items with
  | [] => []
  | [s] => s
  | s :: rest => s ++ sep ++ py_join sep rest
  end.

Definition failure (reason : string) : json :=
  JDict [(py "status", JBool false); (py "reason", JStr (py reason))].

(** What one call of [invoke_for_Res] receives from outside: the readings
    of [time.time()] in the two [add_to_history] calls, the result of
    [self.chain_res.invoke(inputs)] and, for every search query, the
    [page_content] of the documents [self.retriever.invoke] returns. *)
Record extraction_env : Type := mkExtractionEnv {
  ex_now_user : Q;
  ex_now_ai : Q;
  ex_chain_res : outcome json;
  ex_retrieve : pystr -> outcome (list pystr)
}.

Section Verifier.

(** [str.lower], the relation "equal up to case" of [re.IGNORECASE], and
    [str(response)] are the library's. *)
Variable str_lower : pystr -> pystr.
Variable casefold_eq : N -> N -> bool.
Variable py_str : json -> pystr.

Definition first_some {A} (l : list (option A)) : option A :=
  fold_right (fun o acc => match o with Some a => Some a | None => acc end) None l.

(** [RAGBot._extract_price_from_menu].  None of the three patterns is
    blank, so the loop skips none. *)
Definition _extract_price_from_menu (menu_context foodname : pystr)
    (size : option pystr) : option Q :=
  let foodname := py_strip (str_lower foodname) in
  let size := match size with
              | Some ((_ :: _) as s) => Some (py_strip (str_lower s))
              | _ => None
              end in
  let menu_context := str_lower menu_context in
  let size_text := match size with Some ((_ :: _) as s) => s | _ => [] end in
  let patterns :=
    [ Seq (lits foodname) re_price_after;
      Seq (lits foodname) (Seq re_spaces1 (Seq (lits size_text) re_price_after));
      Seq (lits size_text) (Seq re_spaces1 (Seq (lits foodname) re_price_after)) ] in
  match first_some (map (fun p => first_match casefold_eq p menu_context) patterns) with
  | Some m => Some (py_float m)
  | None =>
      match py_find foodname menu_context with
      | Some item_pos =>
          let nearby_text := take 100 (drop item_pos menu_context) in
          option_map py_float (first_match N.eqb re_price nearby_text)
      | None => None
      end
  end.

(** The inner [try] of [invoke_for_Res]: the price check against the menu. *)
Definition verify_price (env : extraction_env) (bot : RAGBot) (response : json)
    (foodname : pystr) (size : option pystr) (extracted_price : json) : outcome json :=
  if negb (retriever bot) then
    let? _ := logger_getattr "log_warning" in Returned response
  else
    let search_query :=
      foodname ++ py " " ++ match size with Some s => s | None => [] end ++ py " price" in
    let? docs := ex_retrieve env search_query in
    match docs with
    | [] => Returned response
    | _ =>
        let menu_context := py_join [10%N] docs in
        match _extract_price_from_menu menu_context foodname size with
        | Some verified_price =>
            if py_ne_float verified_price extracted_price
            then Returned (json_set response (py "price") (JNum verified_price))
            else Returned response
        | None => let? _ := logger_getattr "log_warning" in Returned response
        end
    end.

(** [foodname], [size] and [extracted_price] as the source reads them. *)
Definition read_extraction (response : json) : outcome (pystr * option pystr * json) :=
  let? name := json_get response (py "foodname") (JStr []) in
  let? name := json_strip name in
  let foodname := str_lower name in
  let? has_size := json_get response (py "size") JNull in
  let? size :=
    (if py_truthy has_size
     then let? s := json_get response (py "size") (JStr []) in
          let? s := json_strip s in
          Returned (Some (str_lower s))
     else Returned None) in
  let? extracted_price := json_get response (py "price") JNull in
  Returned (foodname, size, extracted_price).

(** The body of the outer [try] of [invoke_for_Res]. *)
Definition invoke_for_Res_body (query : pystr) (env : extraction_env) (bot : RAGBot)
    : outcome json * RAGBot :=
  match query with
  | [] => (Returned (failure "Please provide a question."), bot)
  | _ =>
      if negb (chain bot)
      then (Returned (failure "System not ready. Please try again."), bot)
      else
        let bot1 :=
          set_cache (add_to_history (client_id bot) "user" query (ex_now_user env)) bot in
        match ex_chain_res env with
        | Raised e => (Raised e, bot1)
        | Returned response =>
            if negb (py_truthy response) || negb (is_dict response)
            then (Returned (failure "I encountered an error processing your request."),
                  bot1)
            else
              match json_get response (py "status") JNull with
              | Raised e => (Raised e, bot1)
              | Returned status =>
                  if negb (py_truthy status) then (Returned response, bot1)
                  else
                    match read_extraction response with
                    | Raised e => (Raised e, bot1)
                    | Returned (foodname, size, extracted_price) =>
                        let response' :=
                          match foodname with
                          | [] => response
                          | _ =>
                              if is_none extracted_price then response
                              else match verify_price env bot1 response foodname size
                                           extracted_price with
                                   | Returned r => r
                                   | Raised _ => response
                                   end
                          end in
                        (Returned response',
                         set_cache (add_to_history (client_id bot) "ai"
                                      (py_str response') (ex_now_ai env)) bot1)
                    end
              end
        end
  end.

(** [RAGBot.invoke_for_Res]: the [except Exception] handler calls
    [log_error] with the keywords [client_id] and [query_length]. *)
Definition invoke_for_Res (query : pystr) (env : extraction_env) (bot : RAGBot)
    : outcome json * RAGBot :=
  match invoke_for_Res_body query env bot with
  | (Raised _, bot') =>
      (let? _ := call_log_error ["client_id"; "query_length"] in
       Returned (failure
         "I encountered an error processing your request. Please try again."),
       bot')
  | r => r
  end.

End Verifier.

(** [str.lower], [str.upper] and case-insensitive equality on the Basic Latin block;
    every other code point is left as it is.  They instantiate the library
    functions when an example is evaluated whose letters are all in that
    block. *)
Definition latin_lower_char (c : N) : N :=
  if ((65 <=? c) && (c <=? 90))%N then (c + 32)%N else c.
Definition latin_lower (s : pystr) : pystr := map latin_lower_char s.
Definition latin_casefold_eq (a b : N) : bool :=
  (latin_lower_char a =? latin_lower_char b)%N.
Definition latin_upper_char (c : N) : N :=
  if ((97 <=? c) && (c <=? 122))%N then (c - 32)%N else c.
Definition latin_upper (s : pystr) : pystr := map latin_upper_char s.

(** A stand-in for the digests of [hashlib] when a concrete run is
    evaluated: the text itself, read as ASCII (injective on the ASCII texts
    of the examples, as a digest is in practice). *)
Definition plain_digest (x : pystr) : string :=
  string_of_list_ascii (map ascii_of_N x).

(** ** Rag.py: GeminiRESTChat._call_api and RAGBot.invoke *)

(** The user-facing texts, as written in the source. *)
Definition MSG_TIMEOUT : pystr :=
  py "⌛ The request took too long — maybe the servers need a quick coffee break. Please try again soon ☕".
Definition MSG_BAD_REQUEST : pystr :=
  py "Hmm… the request didn’t look quite right. Could you please rephrase that?".
Definition MSG_TOO_MANY : pystr :=
  py "😅 Whoa, too many requests at once! Let’s pause for a second and try again.".
Definition MSG_SERVER : pystr :=
  py "The service seems to be having a rough day. Try again after a moment!".
Definition MSG_UNREACHABLE : pystr :=
  py "😕 I’m having trouble reaching the service right now. Could you try again later?".
Definition MSG_NETWORK : pystr :=
  py "🌐 Looks like there’s a little network hiccup. Please check your connection and try again!".
Definition MSG_BAD_JSON : pystr :=
  py "🤖 The server sent something strange that I couldn’t read. Let’s give it another try!".
Definition MSG_NO_CANDIDATES : pystr :=
  py "🙇 Sorry, I couldn’t process that properly. Mind trying again?".
Definition MSG_SAFETY : pystr :=
  py "I cannot generate a response because it may violate content policies.".
Definition MSG_TROUBLE : pystr :=
  py "I apologize, but I'm having trouble processing your request right now.".
Definition MSG_PARSE : pystr :=
  py "An internal error occurred while parsing the response.".
Definition MSG_UNEXPECTED : pystr :=
  py "I encountered an unexpected error. Please try rephrasing your question.".
Definition MSG_GENERATE : pystr :=
  py "Error generating response.".
Definition MSG_NO_QUESTION : pystr :=
  py "Please provide a question.".
Definition MSG_NOT_READY : pystr :=
  py "System not ready. Please try again.".
Definition MSG_NO_RESPONSE : pystr :=
  py "I apologize, but I couldn't generate a proper response. Could you rephrase your question?".
Definition MSG_INVOKE_ERROR : pystr :=
  py "I encountered an error processing your request. Please try again later.".

(** [str.encode()]: UTF-8 has no encoding of a surrogate code point
    (U+D800 to U+DFFF), and a str that holds one raises
    [UnicodeEncodeError]. *)
Definition is_surrogate (c : N) : bool := ((55296 <=? c) && (c <=? 57343))%N.

Definition py_encodes (s : pystr) : bool := forallb (fun c => negb (is_surrogate c)) s.

(** [encryption_utils.hash_for_logging]: ["EMPTY"] for an empty str, else
    the first sixteen digits of the SHA-256 digest of the encoded str.  The
    value only reaches the log; what the caller sees is whether the call
    returns. *)
Definition hash_for_logging (sensitive_data : pystr) : outcome unit :=
  match sensitive_data with
  | [] => Returned tt
  | _ => if py_encodes sensitive_data then Returned tt
         else Raised (OtherError "UnicodeEncodeError")
  end.

(** How [requests.post(...)] followed by [raise_for_status()] ends, and
    what [response.json()] gives ([None]: it raises [ValueError]). *)
Inductive http_result : Type :=
  | Timeout
  | HTTPError (status_code : Z)
  | ConnectionError
  | RequestException
  | UnexpectedError
  | Response (body : option json).

Section AnswerEngine.

(** [str.upper] is the library's. *)
Variable str_upper : pystr -> pystr.

(** [x.upper()]: only a str has [upper]. *)
Definition json_upper (x : json) : outcome pystr :=
  match x with
  | JStr s => Returned (str_upper s)
  | _ => Raised (AttributeError "upper")
  end.

(** [x or y] *)
Definition py_or (x y : json) : json := if py_truthy x then x else y.

(** The texts joined by [" ".join(...)]: [p.get("text", "").strip()] for
    every dict [p] of [parts] whose ["text"] is truthy. *)
Fixpoint part_texts (parts : list json) : outcome (list pystr) :=
  match parts with
  | [] => Returned []
  | JDict d :: rest =>
      if py_truthy (default JNull (dict_get d (py "text")))
      then let? t := json_strip (default (JStr []) (dict_get d (py "text"))) in
           let? ts := part_texts rest in
           Returned (t :: ts)
      else part_texts rest
  | _ :: rest => part_texts rest
  end.

(** The outer [try] of [_call_api], after the request. *)
Definition read_candidates (result : json) : outcome pystr :=
  let? candidates := json_get result (py "candidates") JNull in
  match candidates with
  | JList (first :: _) =>
      let candidate := py_or first (JDict []) in
      let? reason := json_get candidate (py "finishReason") JNull in
      let? finish_reason := json_upper (py_or reason (JStr [])) in
      if bool_decide (finish_reason = py "SAFETY") then Returned MSG_SAFETY
      else
        let? content := json_get candidate (py "content") JNull in
        let? parts := json_get (py_or content (JDict [])) (py "parts") JNull in
        match parts with
        | JList ((_ :: _) as ps) =>
            match part_texts ps with
            | Raised _ => Returned MSG_PARSE
            | Returned texts =>
                let text := py_join (py " ") texts in
                match py_strip text with
                | [] => Returned MSG_TROUBLE
                | stripped => Returned stripped
                end
            end
        | _ => Returned MSG_TROUBLE
        end
  | _ => Returned MSG_NO_CANDIDATES
  end.

(** [GeminiRESTChat._call_api] *)
Definition _call_api (http : http_result) : pystr :=
  match http with
  | Timeout => MSG_TIMEOUT
  | HTTPError status_code =>
      if (status_code =? 400)%Z then MSG_BAD_REQUEST
      else if (status_code =? 429)%Z then MSG_TOO_MANY
      else if (500 <=? status_code)%Z then MSG_SERVER
      else MSG_UNREACHABLE
  | ConnectionError => MSG_NETWORK
  | RequestException => MSG_UNREACHABLE
  | UnexpectedError => MSG_UNEXPECTED
  | Response None => MSG_BAD_JSON
  | Response (Some result) =>
      match read_candidates result with
      | Returned text => text
      | Raised _ => MSG_UNEXPECTED
      end
  end.

(** What one call of [invoke] receives from outside: the readings of
    [time.time()] in the two [add_to_history] calls, how the import of
    [manager] and the two Firestore look-ups end, whether the LangChain
    pipeline itself raises, and how the request of the model ends. *)
Record answer_env : Type := mkAnswerEnv {
  an_now_user : Q;
  an_now_ai : Q;
  an_import : outcome unit;
  an_user_name : outcome pystr;
  an_user_goals : outcome pystr;
  an_pipeline : option exn;
  an_http : http_result
}.

(** [self.chain.invoke(inputs)]: prompt, model, [StrOutputParser]. *)
Definition chain_invoke (env : answer_env) : outcome pystr :=
  match an_pipeline env with
  | Some e => Raised e
  | None => Returned (_call_api (an_http env))
  end.

(** The check of the last character: [last_char not in '.!?।।।']. *)
Definition ends_sentence (response : pystr) : bool :=
  match last response with
  | Some c => ((c =? 46) || (c =? 33) || (c =? 63) || (c =? 2404))%N
  | None => false
  end.

(** The lines of [invoke] between the call of the chain and the return. *)
Definition complete_response (response : pystr) : pystr :=
  let response :=
    match response with
    | [] => MSG_NO_RESPONSE
    | _ => if (length (py_strip response) <? 3)%nat then MSG_NO_RESPONSE else response
    end in
  let response := py_strip response in
  if (20 <? length response)%nat && negb (ends_sentence response)
  then response ++ py "..."
  else response.

(** The body of the [try] of [invoke]. *)
Definition invoke_body (query launguage : pystr) (env : answer_env) (bot : RAGBot)
    : outcome pystr * RAGBot :=
  match query with
  | [] => (Returned MSG_NO_QUESTION, bot)
  | _ =>
      if negb (chain bot) then (Returned MSG_NOT_READY, bot)
      else
        let bot1 :=
          set_cache (add_to_history (client_id bot) "user" query (an_now_user env)) bot in
        match an_import env with
        | Raised e => (Raised e, bot1)
        | Returned _ =>
            let current_user_name :=
              match an_user_name env with Returned n => n | Raised _ => py "User" end in
            let current_user_goals :=
              match an_user_goals env with Returned g => g | Raised _ => py "None" end in
            match chain_invoke env with
            | Raised e => (Raised e, bot1)
            | Returned response =>
                let response := complete_response response in
                (Returned response,
                 set_cache (add_to_history (client_id bot) "ai" response
                              (an_now_ai env)) bot1)
            end
        end
  end.

(** [RAGBot.invoke]: the handler builds the context of the log entry with
    [hash_for_logging(self.client_id)], logs (positional arguments only)
    and returns its text. *)
Definition invoke (query launguage : pystr) (env : answer_env) (bot : RAGBot)
    : outcome pystr * RAGBot :=
  match invoke_body query launguage env bot with
  | (Raised _, bot') =>
      (let? _ := hash_for_logging (client_id bot') in
       let? _ := call_log_error [] in Returned MSG_INVOKE_ERROR, bot')
  | r => r
  end.

End AnswerEngine.

(** ** rate_limiter.py: the statistics and the public interface *)

Section RateLimiterStatistics.

Variable sha256_hexdigest : pystr -> string.
Variable md5_lower_strip : pystr -> string.

(** [RateLimiter.get_user_stats]; [current_time] is its reading of
    [time.time()].  The dict of an identity without minute counter has four
    keys, the other one five; every [get_count] cleans the counter it
    reads. *)
Definition get_user_stats (phone_number client_id : pystr) (current_time : Q)
    (s : RateLimiter) : outcome json * RateLimiter :=
  let user_id := _get_user_id sha256_hexdigest phone_number client_id in
  match minitue_counters s !! user_id with
  | None =>
      (Returned (JDict [ (py "requests_last_minute", JNum 0);
                         (py "requests_last_hour", JNum 0);
                         (py "requests_last_day", JNum 0);
                         (py "is_blocked", JBool false) ]), s)
  | Some minute =>
      let s1 :=
        set_minitue_counters (insert user_id (snd (get_count minute current_time))) s in
      match hour_counters s1 !! user_id with
      | None => (Raised (KeyError user_id), s1)
      | Some hour =>
          let s2 :=
            set_hour_counters (insert user_id (snd (get_count hour current_time))) s1 in
          match day_counters s2 !! user_id with
          | None => (Raised (KeyError user_id), s2)
          | Some day =>
              let s3 :=
                set_day_counters (insert user_id (snd (get_count day current_time))) s2 in
              (Returned
                 (JDict [ (py "requests_last_minute",
                           JNum (inject_Z (fst (get_count minute current_time))));
                          (py "requests_last_hour",
                           JNum (inject_Z (fst (get_count hour current_time))));
                          (py "requests_last_day",
                           JNum (inject_Z (fst (get_count day current_time))));
                          (py "is_blocked",
                           JBool (bool_decide (is_Some (blocked_users s3 !! user_id))));
                          (py "tokens_available",
                           JNum match token_bucket s3 !! user_id with
                                | Some bucket => tokens bucket
                                | None => 0
                                end) ]), s3)
          end
      end
  end.

(** [RateLimiter.get_global_stats]: the counters of [stats] and three
    sizes. *)
Definition get_global_stats (s : RateLimiter) : gmap string Z :=
  <["tracked_messages" := Z.of_nat (size (last_messages s))]>
    (<["blocked_users" := Z.of_nat (size (blocked_users s))]>
       (<["active_users" := Z.of_nat (size (minitue_counters s))]> (stats s))).

(** A call of one of the six public methods of the limiter that [app.py]
    uses (the webhook and the five rate-limit endpoints), and what the
    caller gets back. *)
Inductive public_call : Type :=
  | CheckRateLimit (phone_number client_id message : pystr) (clk : Clock)
  | UnblockUser (phone_number client_id : pystr)
  | ResetUserLimits (phone_number client_id : pystr)
  | GetUserStats (phone_number client_id : pystr) (current_time : Q)
  | GetGlobalStats.

Inductive answer : Type :=
  | Admission (r : outcome response)
  | Unblocked (success : bool)
  | ResetDone
  | UserStats (r : outcome json)
  | GlobalStats (d : gmap string Z).

Definition serve_one (c : public_call) (s : RateLimiter) : answer * RateLimiter :=
  match c with
  | CheckRateLimit p c m clk =>
      let r := call (check_rate_limit sha256_hexdigest md5_lower_strip p c m clk) s in
      (Admission (fst r), snd r)
  | UnblockUser p c =>
      let r := unblock_user sha256_hexdigest p c s in (Unblocked (fst r), snd r)
  | ResetUserLimits p c => (ResetDone, reset_user_limits sha256_hexdigest p c s)
  | GetUserStats p c t =>
      let r := get_user_stats p c t s in (UserStats (fst r), snd r)
  | GetGlobalStats => (GlobalStats (get_global_stats s), s)
  end.

(** The calls served one after the other by one limiter object. *)
Fixpoint serve (calls : list public_call) (s : RateLimiter) : list answer * RateLimiter :=
  match calls with
  | [] => ([], s)
  | c :: rest =>
      let r := serve_one c s in
      let rs := serve rest (snd r) in
      (fst r :: fst rs, snd rs)
  end.

End RateLimiterStatistics.

(** ** Rag.py: the conversation history *)

(** [RAGCache.get_history]: a copy of the list, empty for an unknown
    client. *)
Definition get_history (client_id : pystr) (c : RAGCache) : list turn :=
  default [] (conversation_history c !! client_id).

(** [RAGCache.clear_history] *)
Definition clear_history (client_id : pystr) (c : RAGCache) : RAGCache :=
  {| conversation_history := delete client_id (conversation_history c);
     query_cache := query_cache c;
     max_history_size := max_history_size c;
     max_query_cache := max_query_cache c |}.

(** ** app.py: the maintenance methods of RAGCacheManager *)

Definition set__cache (f : list (pystr * cache_item) -> list (pystr * cache_item))
    (m : RAGCacheManager) : RAGCacheManager :=
  {| _cache := f (_cache m); _ttl_seconds := _ttl_seconds m;
     _max_cache_size := _max_cache_size m; _hits := _hits m; _misses := _misses m |}.

(** [RAGCacheManager.invalidate] *)
Definition invalidate (client_id : pystr) (m : RAGCacheManager) : RAGCacheManager :=
  set__cache (fun d => dict_pop d client_id) m.

(** [RAGCacheManager.cleanup_expired]; [current_time] is its reading of
    [time.time()]. *)
Definition cleanup_expired (current_time : Q) (m : RAGCacheManager) : RAGCacheManager :=
  set__cache
    (List.filter (fun kv : pystr * cache_item =>
                    negb (Qle_bool (expires_at (snd kv)) current_time))) m.

(** * Vocabulary of the statements *)

(** A run of [consume] calls on one bucket: the argument and the reading of
    the clock of each call. *)
Definition consume_all (b : TokenBucket) (calls : list (Z * Q)) : TokenBucket :=
  fold_left (fun b c => snd (consume b (fst c) (snd c))) calls b.

Definition within_capacity (b : TokenBucket) : Prop :=
  0 <= tokens b /\ tokens b <= inject_Z (capacity b).

(** Arguments are not negative and no reading of the clock is earlier than
    the one before it, starting from [last]. *)
Fixpoint orderly (last : Q) (calls : list (Z * Q)) : Prop :=
  match calls with
  | [] => True
  | c :: rest => (0 <= fst c)%Z /\ last <= snd c /\ orderly (snd c) rest
  end.

(** The claim as it is worded: any arguments, any call times, any bucket. *)
Definition tokens_always_within_capacity : Prop :=
  forall (cap : Z) (rate t0 : Q) (calls : list (Z * Q)),
    within_capacity (consume_all (TokenBucket_init cap rate t0) calls).

(** The events recorded by successive [add_request] calls. *)
Definition record_all (c : SlidingWindowCounter) (timestamps : list Q)
    : SlidingWindowCounter :=
  fold_left add_request timestamps c.

(** Number of timestamps in the half-open interval [(lo, hi]] and in the
    closed interval [[lo, hi]]. *)
Definition count_half_open (lo hi : Q) (timestamps : list Q) : Z :=
  Z.of_nat (length (List.filter (fun x => Qlt_bool lo x && Qle_bool x hi) timestamps)).

Definition count_closed (lo hi : Q) (timestamps : list Q) : Z :=
  Z.of_nat (length (List.filter (fun x => Qle_bool lo x && Qle_bool x hi) timestamps)).

Fixpoint nondecreasing (l : list Q) : Prop :=
  match l with
  | [] => True
  | x :: rest => Forall (Qle x) rest /\ nondecreasing rest
  end.

(** The claim as it is worded: the half-open window, any sequence. *)
Definition counts_half_open_window : Prop :=
  forall (w : Z) (timestamps : list Q) (t : Q),
    Forall (fun x => x <= t) timestamps ->
    fst (get_count (record_all (SlidingWindowCounter_init w) timestamps) t)
    = count_half_open (t - inject_Z w) t timestamps.

Definition hoare {A} (P : RateLimiter -> Prop) (m : M A)
    (Q : A -> RateLimiter -> Prop) (R : response -> RateLimiter -> Prop)
    (E : exn -> RateLimiter -> Prop) : Prop :=
  forall s, P s ->
    match m s with
    | (Next a, s') => Q a s'
    | (Return r, s') => R r s'
    | (Raise e, s') => E e s'
    end.

(** No statement of the three methods assigns [self.config]. *)
Definition keeps_config {A} (m : M A) : Prop :=
  forall s, config (snd (m s)) = config s.

Definition minute_rejection : response :=
  (false, Some "Too many requests in per minute. Please wait.", Some 60%Z).

(** The suspicious threshold is not above the per-minute limit. *)
Definition suspicious_first (s : RateLimiter) : Prop :=
  (suspicious_requests_per_minitue (config s) <= request_per_minitue (config s))%Z.

Definition duplicate_rejection : response :=
  (false, Some "Duplicated message detected. Please wait before responding.", Some 30%Z).

(** The two counters that the path to the duplicate check increments exist
    ([__init__] creates them and nothing removes a key of [stats]). *)
Definition counts_requests (s : RateLimiter) : Prop :=
  is_Some (stats s !! "total_requests") /\ is_Some (stats s !! "spam_detected").

(** No block is in force for [user_id] at time [now]. *)
Definition not_blocked (user_id : string) (now : Q) (s : RateLimiter) : Prop :=
  forall unblock_time, blocked_users s !! user_id = Some unblock_time -> unblock_time <= now.

(** The run of the counterexample: an identity sends 101 messages, four a
    second, alternating between two texts; the last one trips the suspicious
    threshold and is recorded as the last message. *)
Definition text_a : pystr := py "hello".
Definition text_b : pystr := py "hello again".
Definition sender : pystr := py "919999999999".
Definition tenant : pystr := py "client-A".
Definition at_time (t : Q) : Clock := mkClock t t t.
Definition nth_message (k : nat) : operation :=
  Check sender tenant (if Nat.even k then text_a else text_b) (at_time (Z.of_nat k # 4)).
Definition flood : list operation := map nth_message (seq 1 101).
Definition flooded : RateLimiter :=
  snd (run plain_digest plain_digest flood (RateLimiter_init default_config 0)).

(** The claim as it is worded, on the states the limiter can reach. *)
Definition duplicate_gets_short_hint : Prop :=
  forall sha md5 ops t0 p c m clk last_time,
    let s := snd (run sha md5 ops (RateLimiter_init default_config t0)) in
    last_messages s !! _get_user_id sha p c = Some (md5 m, last_time) ->
    t_check clk - last_time < 10 ->
    fst (call (check_rate_limit sha md5 p c m clk) s) = Returned duplicate_rejection.

(** The misspelt key of the burst path is not a key of [stats]. *)
Definition no_misspelt_key (s : RateLimiter) : Prop :=
  stats s !! "burst_voilations" = None.

(** The burst queue of an identity as the burst check will find it: the
    stored queue, or the empty queue that is created for a new identity. *)
Definition burst_queue (user_id : string) (s : RateLimiter) : option (list Q) :=
  match minitue_counters s !! user_id with
  | Some _ => burst_tracker s !! user_id
  | None => Some []
  end.

Definition block_rejection (retry_after : Z) : response :=
  (false, Some "Temporary block due to suspicious activity", Some retry_after).

Definition length_rejection : response :=
  (false, Some "Message too long. Please keep it under 2000 character.", None).

Definition burst_rejection : response :=
  (false, Some "Too many requests in short time. Please slow down.", Some 10%Z).

(** The flood of 101 messages, then twenty times: the administrator lifts
    the block ([unblock_user], the endpoint of [app.py]) and the identity
    sends one more message.  Every one of these is blocked again at the
    window thresholds, after it was pushed on the burst queue. *)
Definition unblocked_flood : list operation :=
  flood ++ flat_map (fun k => [Unblock sender tenant; nth_message k]) (seq 102 19)
        ++ [Unblock sender tenant].

Definition before_burst : RateLimiter :=
  snd (run plain_digest plain_digest unblocked_flood (RateLimiter_init default_config 0)).

(** Two identities a day apart: the second call is the first one after the
    first identity's day window has emptied, and runs the sweep. *)
Definition a_day_later : list operation :=
  [ Check sender tenant text_a (at_time 1);
    Check (py "918888888888") tenant text_a (at_time 86402) ].

(** The claim as it is worded, for the accessor [get]: whatever the time
    of the call, the entry returned is not older than the TTL. *)
Definition get_respects_ttl (ttl : Z) : Prop :=
  forall (c : RAGCache) (key : pystr) (now : Q) (e : entry),
    RAGCache_get key c = Some e -> now - timestamp e <= inject_Z ttl.

Definition dosa_menu : pystr := py "Masala Dosa - ₹90".

(** The model's extraction, with the keys of the response schema (and of
    the callers of [invoke_for_Res]): the item is under ["food_name"]. *)
Definition dosa_extraction : json :=
  JDict [ (py "status", JBool true); (py "reason", JNull);
          (py "food_name", JStr (py "masala dosa")); (py "size", JNull);
          (py "price", JNum 120); (py "quantity", JNum 1) ].

(** The same extraction with the item also under ["foodname"], the key
    that the price check reads. *)
Definition dosa_extraction_foodname : json :=
  JDict [ (py "status", JBool true); (py "reason", JNull);
          (py "food_name", JStr (py "masala dosa"));
          (py "foodname", JStr (py "masala dosa")); (py "size", JNull);
          (py "price", JNum 120); (py "quantity", JNum 1) ].

Definition dosa_env (extraction : json) : extraction_env :=
  mkExtractionEnv 1 2 (Returned extraction) (fun _ => Returned [dosa_menu]).

Definition dosa_bot : RAGBot := mkRAGBot (py "client-A") true true (RAGCache_init 50 200).

(** Every text [invoke] can return without a generated answer: the texts
    of [_call_api] as [invoke] completes them (the time-out text ends in an
    emoji, so it gets the three dots), and the texts of [invoke] itself. *)
Definition fallback_messages : list pystr :=
  [ MSG_TIMEOUT ++ py "..."; MSG_BAD_REQUEST; MSG_TOO_MANY; MSG_SERVER; MSG_UNREACHABLE;
    MSG_NETWORK; MSG_BAD_JSON; MSG_NO_CANDIDATES; MSG_SAFETY; MSG_TROUBLE; MSG_PARSE;
    MSG_UNEXPECTED; MSG_NO_QUESTION; MSG_NOT_READY; MSG_NO_RESPONSE; MSG_INVOKE_ERROR ].

(** The texts [_call_api] returns when it has no generated answer. *)
Definition api_messages : list pystr :=
  [ MSG_TIMEOUT; MSG_BAD_REQUEST; MSG_TOO_MANY; MSG_SERVER; MSG_UNREACHABLE; MSG_NETWORK;
    MSG_BAD_JSON; MSG_NO_CANDIDATES; MSG_SAFETY; MSG_TROUBLE; MSG_PARSE; MSG_UNEXPECTED ].

Definition client_a : pystr := py "client-A".

Definition client_a_data : gmap string (option pystr) :=
  {[ "Uploaded Document" := Some (py "Masala Dosa - ₹90, Idli - ₹40, Tea - ₹15") ]}.

Definition request_a (t : Q) : request_env := mkRequestEnv client_a t (Some client_a_data) true.

(** Both calls look up before either stores. *)
Definition overlapping : list nat := [0; 1; 0; 0; 1; 1; 0; 1]%nat.

(** The second call starts when the first has finished. *)
Definition one_after_the_other : list nat := [0; 0; 0; 0; 1; 1; 1; 1]%nat.

(** The claim as it is worded: two calls for a client id without entry,
    under any interleaving, construct at most one [RAGBot]. *)
Definition builds_at_most_once : Prop :=
  forall (we_are : pystr) (m : RAGCacheManager) (e1 e2 : request_env)
         (schedule : list nat),
    req_client_id e1 = req_client_id e2 ->
    dict_get (_cache m) (req_client_id e1) = None ->
    (length (constructed (exec we_are schedule (start m [e1; e2]))) <= 1)%nat.

(** Calls that may still construct. *)
Definition may_build (p : position) : nat :=
  match p with
  | AtLookup | AtFetch | AtBuild _ _ => 1
  | AtStore _ _ | Finished _ => 0
  end.

Definition pending (cs : list (request_env * position)) : nat :=
  sum_list (map (fun c => may_build (snd c)) cs).

(** What the statements before the duplicate check keep. *)
Definition before_duplicate_check (sha256_hexdigest : pystr -> string)
    (phone_number client_id : pystr) (cfg : RateLimitConfig) (last_hash : string)
    (last_time : Q) (s : RateLimiter) : Prop :=
  config s = cfg
  /\ last_messages s !! _get_user_id sha256_hexdigest phone_number client_id
     = Some (last_hash, last_time).

(** The recorded message does not make the incoming one a duplicate. *)
Definition fresh_message (md5_lower_strip : pystr -> string) (message : pystr)
    (clk : Clock) (cfg : RateLimitConfig) (recorded : option (string * Q)) : Prop :=
  match recorded with
  | Some (last_hash, last_time) =>
      last_hash = md5_lower_strip message ->
      inject_Z (duplicate_message_window cfg) <= t_check clk - last_time
  | None => True
  end.

(** What holds from the entry of the method to the burst check, on a path
    that passes the block test. *)
Definition past_the_gate (sha256_hexdigest : pystr -> string) (phone_number client_id : pystr)
    (clk : Clock) (cfg : RateLimitConfig) (recorded : option (string * Q))
    (queue : option (list Q)) (s : RateLimiter) : Prop :=
  let user_id := _get_user_id sha256_hexdigest phone_number client_id in
  config s = cfg
  /\ is_Some (stats s !! "total_requests")
  /\ no_misspelt_key s
  /\ not_blocked user_id (t_check clk) s
  /\ last_messages s !! user_id = recorded
  /\ burst_queue user_id s = queue.

(** What holds once the trackers of the identity exist. *)
Definition at_the_checks (sha256_hexdigest : pystr -> string) (phone_number client_id : pystr)
    (clk : Clock) (cfg : RateLimitConfig) (recorded : option (string * Q))
    (queue : option (list Q)) (s : RateLimiter) : Prop :=
  past_the_gate sha256_hexdigest phone_number client_id clk cfg recorded queue s
  /\ burst_tracker s !! _get_user_id sha256_hexdigest phone_number client_id = queue.

(** What holds once the incoming message is recorded. *)
Definition message_recorded (sha256_hexdigest md5_lower_strip : pystr -> string)
    (phone_number client_id message : pystr) (clk : Clock) (cfg : RateLimitConfig)
    (queue : option (list Q)) (s : RateLimiter) : Prop :=
  let user_id := _get_user_id sha256_hexdigest phone_number client_id in
  config s = cfg /\ no_misspelt_key s
  /\ burst_tracker s !! user_id = queue
  /\ last_messages s !! user_id = Some (md5_lower_strip message, t_check clk).

(** ** The response of the generation service *)

(** [d.get(key)]: [None] for a missing key. *)
Definition dict_field (d : list (pystr * json)) (key : pystr) : json :=
  default JNull (dict_get d key).

(** The fields of [x or {}], when that is a dict. *)
Definition object_or_empty (x : json) : option (list (pystr * json)) :=
  match x with
  | JDict d => Some d
  | _ => if py_truthy x then None else Some []
  end.

(** The text [x or ""], when that is a str. *)
Definition text_or_empty (x : json) : option pystr :=
  match x with
  | JStr s => Some s
  | _ => if py_truthy x then None else Some []
  end.

(** A part that contributes no text: it is not a dict, or its ["text"] is
    missing or falsy. *)
Definition silent (p : json) : Prop :=
  match p with
  | JDict d => py_truthy (dict_field d (py "text")) = false
  | _ => True
  end.

(** A part whose ["text"] is truthy and not a str. *)
Definition unreadable (p : json) : Prop :=
  match p with
  | JDict d =>
      py_truthy (dict_field d (py "text")) = true
      /\ forall s, dict_field d (py "text") <> JStr s
  | _ => False
  end.

(** The stripped texts of the parts that have one, in order. *)
Inductive spoken : list json -> list pystr -> Prop :=
  | spoken_nil : spoken [] []
  | spoken_silent p rest texts :
      silent p -> spoken rest texts -> spoken (p :: rest) texts
  | spoken_text d s rest texts :
      dict_get d (py "text") = Some (JStr s) -> s <> [] ->
      spoken rest texts -> spoken (JDict d :: rest) (py_strip s :: texts).

(** The service answered: the body is an object whose first candidate is
    not blocked and has parts with a text that is not blank; the answer is
    the texts of the parts, joined by a space and stripped. *)
Inductive generated (str_upper : pystr -> pystr) : http_result -> pystr -> Prop :=
  | generated_text fields first others candidate reason content parts texts :
      dict_get fields (py "candidates") = Some (JList (first :: others)) ->
      object_or_empty first = Some candidate ->
      text_or_empty (dict_field candidate (py "finishReason")) = Some reason ->
      str_upper reason <> py "SAFETY" ->
      object_or_empty (dict_field candidate (py "content")) = Some content ->
      dict_get content (py "parts") = Some (JList parts) ->
      spoken parts texts ->
      py_strip (py_join (py " ") texts) <> [] ->
      generated str_upper (Response (Some (JDict fields)))
        (py_strip (py_join (py " ") texts)).

(** The failures of the generation service, by what [_call_api] observes:
    of the request, of the body, of the first candidate and of its
    parts. *)
Inductive generation_failure (str_upper : pystr -> pystr) : http_result -> Prop :=
  | failure_timeout : generation_failure str_upper Timeout
  | failure_status code : generation_failure str_upper (HTTPError code)
  | failure_connection : generation_failure str_upper ConnectionError
  | failure_request : generation_failure str_upper RequestException
  | failure_unexpected : generation_failure str_upper UnexpectedError
  | failure_body_not_json : generation_failure str_upper (Response None)
  | failure_body_not_object body :
      is_dict body = false -> generation_failure str_upper (Response (Some body))
  | failure_no_candidates fields :
      match dict_get fields (py "candidates") with
      | Some (JList (_ :: _)) => False
      | _ => True
      end ->
      generation_failure str_upper (Response (Some (JDict fields)))
  | failure_candidate_not_object fields first others :
      dict_get fields (py "candidates") = Some (JList (first :: others)) ->
      object_or_empty first = None ->
      generation_failure str_upper (Response (Some (JDict fields)))
  | failure_finish_reason_not_text fields first others candidate :
      dict_get fields (py "candidates") = Some (JList (first :: others)) ->
      object_or_empty first = Some candidate ->
      text_or_empty (dict_field candidate (py "finishReason")) = None ->
      generation_failure str_upper (Response (Some (JDict fields)))
  | failure_safety_block fields first others candidate reason :
      dict_get fields (py "candidates") = Some (JList (first :: others)) ->
      object_or_empty first = Some candidate ->
      text_or_empty (dict_field candidate (py "finishReason")) = Some reason ->
      str_upper reason = py "SAFETY" ->
      generation_failure str_upper (Response (Some (JDict fields)))
  | failure_content_not_object fields first others candidate :
      dict_get fields (py "candidates") = Some (JList (first :: others)) ->
      object_or_empty first = Some candidate ->
      object_or_empty (dict_field candidate (py "content")) = None ->
      generation_failure str_upper (Response (Some (JDict fields)))
  | failure_no_parts fields first others candidate content :
      dict_get fields (py "candidates") = Some (JList (first :: others)) ->
      object_or_empty first = Some candidate ->
      object_or_empty (dict_field candidate (py "content")) = Some content ->
      match dict_get content (py "parts") with
      | Some (JList (_ :: _)) => False
      | _ => True
      end ->
      generation_failure str_upper (Response (Some (JDict fields)))
  | failure_part_unreadable fields first others candidate content parts :
      dict_get fields (py "candidates") = Some (JList (first :: others)) ->
      object_or_empty first = Some candidate ->
      object_or_empty (dict_field candidate (py "content")) = Some content ->
      dict_get content (py "parts") = Some (JList parts) ->
      Exists unreadable parts ->
      generation_failure str_upper (Response (Some (JDict fields)))
  | failure_blank_text fields first others candidate content parts texts :
      dict_get fields (py "candidates") = Some (JList (first :: others)) ->
      object_or_empty first = Some candidate ->
      object_or_empty (dict_field candidate (py "content")) = Some content ->
      dict_get content (py "parts") = Some (JList parts) ->
      spoken parts texts ->
      py_strip (py_join (py " ") texts) = [] ->
      generation_failure str_upper (Response (Some (JDict fields))).

(** The failures inside [invoke]: of the import, of the pipeline, of the
    generation service, and an answer of fewer than three characters. *)
Inductive internal_failure (str_upper : pystr -> pystr) (env : answer_env) : Prop :=
  | failure_import e : an_import env = Raised e -> internal_failure str_upper env
  | failure_pipeline e : an_pipeline env = Some e -> internal_failure str_upper env
  | failure_generation :
      generation_failure str_upper (an_http env) -> internal_failure str_upper env
  | failure_short_answer answer :
      generated str_upper (an_http env) answer ->
      (length (py_strip answer) < 3)%nat ->
      internal_failure str_upper env.

(** * Vocabulary of the further properties *)

(** An identity has its bucket, its three counters and its burst queue,
    or none of the five. *)
Definition tracked (user_id : string) (s : RateLimiter) : Prop :=
  is_Some (token_bucket s !! user_id) /\ is_Some (minitue_counters s !! user_id)
  /\ is_Some (hour_counters s !! user_id) /\ is_Some (day_counters s !! user_id)
  /\ is_Some (burst_tracker s !! user_id).

Definition untracked (user_id : string) (s : RateLimiter) : Prop :=
  token_bucket s !! user_id = None /\ minitue_counters s !! user_id = None
  /\ hour_counters s !! user_id = None /\ day_counters s !! user_id = None
  /\ burst_tracker s !! user_id = None.

Definition trackers_aligned (s : RateLimiter) : Prop :=
  forall user_id, tracked user_id s \/ untracked user_id s.

(** The three counters of [stats] that are incremented under their own
    name exist. *)
Definition counters_present (s : RateLimiter) : Prop :=
  is_Some (stats s !! "total_requests") /\ is_Some (stats s !! "spam_detected")
  /\ is_Some (stats s !! "blocked_requests").

(** Every bucket refills at the rate of the configuration. *)
Definition rates_from_config (s : RateLimiter) : Prop :=
  forall user_id bucket, token_bucket s !! user_id = Some bucket ->
    refill_rate bucket = inject_Z (request_per_minitue (config s)) / 60.

Definition well_formed (s : RateLimiter) : Prop :=
  trackers_aligned s /\ counters_present s /\ rates_from_config s.

(** The exceptions that leave [check_rate_limit]: the misspelt key of the
    burst counter, the missing attribute of the logger in the sweep, and the
    division by a refill rate of zero. *)
Definition known_failure (cfg : RateLimitConfig) (e : exn) : Prop :=
  e = KeyError "burst_voilations" \/ e = AttributeError "logging"
  \/ (e = ZeroDivisionError /\ request_per_minitue cfg = 0%Z).

Definition admission_fails_as_known (cfg : RateLimitConfig) (a : answer) : Prop :=
  match a with
  | Admission (Raised e) => known_failure cfg e
  | _ => True
  end.

Definition stats_returned (a : answer) : Prop :=
  match a with
  | UserStats (Raised _) => False
  | _ => True
  end.

(** The dict of an identity that has no minute counter. *)
Definition no_activity : json :=
  JDict [ (py "requests_last_minute", JNum 0); (py "requests_last_hour", JNum 0);
          (py "requests_last_day", JNum 0); (py "is_blocked", JBool false) ].

(** Counting the answers of a session. *)
Definition is_admission (a : answer) : bool :=
  match a with Admission _ => true | _ => false end.

Definition rejected_with (reason : string) (a : answer) : bool :=
  match a with
  | Admission (Returned (_, Some reason', _)) => String.eqb reason' reason
  | _ => false
  end.

Definition count_answers (p : answer -> bool) (answers : list answer) : Z :=
  Z.of_nat (length (List.filter p answers)).

Definition duplicate_reason : string :=
  "Duplicated message detected. Please wait before responding.".

Definition suspicious_reason : string :=
  "Suspicious activity detected. Temporarily blocked.".

(** One state has the keys, the configuration and the refill rates of
    another. *)
Definition same_shape (s s' : RateLimiter) : Prop :=
  config s' = config s
  /\ (forall u, is_Some (token_bucket s' !! u) <-> is_Some (token_bucket s !! u))
  /\ (forall u, is_Some (minitue_counters s' !! u) <-> is_Some (minitue_counters s !! u))
  /\ (forall u, is_Some (hour_counters s' !! u) <-> is_Some (hour_counters s !! u))
  /\ (forall u, is_Some (day_counters s' !! u) <-> is_Some (day_counters s !! u))
  /\ (forall u, is_Some (burst_tracker s' !! u) <-> is_Some (burst_tracker s !! u))
  /\ (forall k, is_Some (stats s !! k) -> is_Some (stats s' !! k))
  /\ (forall u b', token_bucket s' !! u = Some b' ->
        exists b, token_bucket s !! u = Some b /\ refill_rate b' = refill_rate b).

(** What holds between the creation of the trackers of [user_id] and the
    sweep. *)
Definition tracking (cfg : RateLimitConfig) (user_id : string) (s : RateLimiter) : Prop :=
  well_formed s /\ config s = cfg /\ tracked user_id s.

(** The configuration is [cfg] and the call has been counted. *)
Definition counted_under (cfg : RateLimitConfig) (s : RateLimiter) : Prop :=
  config s = cfg /\ is_Some (stats s !! "total_requests").

Definition admitted : response := (true, None, None).

(** The trackers of [user_id], where they exist, are within the limits of
    the configuration. *)
Definition within_limits (cfg : RateLimitConfig) (user_id : string) (s : RateLimiter)
    : Prop :=
  (forall q, burst_tracker s !! user_id = Some q ->
             (Z.of_nat (length q) <= brust_size cfg)%Z)
  /\ (forall k, minitue_counters s !! user_id = Some k ->
                (Z.of_nat (length (request k)) <= suspicious_requests_per_minitue cfg)%Z
                /\ (Z.of_nat (length (request k)) <= request_per_minitue cfg)%Z)
  /\ (forall k, hour_counters s !! user_id = Some k ->
                (Z.of_nat (length (request k)) <= request_per_hour cfg)%Z)
  /\ (forall k, day_counters s !! user_id = Some k ->
                (Z.of_nat (length (request k)) <= request_per_day cfg)%Z).

(** A counter of [user_id], where it exists, holds at most [n] timestamps. *)
Definition holds_at_most (get : RateLimiter -> gmap string SlidingWindowCounter)
    (user_id : string) (n : Z) (s : RateLimiter) : Prop :=
  forall k, get s !! user_id = Some k -> (Z.of_nat (length (request k)) <= n)%Z.

Definition burst_within (cfg : RateLimitConfig) (user_id : string) (s : RateLimiter)
    : Prop :=
  forall q, burst_tracker s !! user_id = Some q ->
            (Z.of_nat (length q) <= brust_size cfg)%Z.

(** An identity the limiter holds nothing about: no tracker, no last
    message, no block. *)
Definition new_identity (user_id : string) (s : RateLimiter) : Prop :=
  untracked user_id s /\ last_messages s !! user_id = None
  /\ blocked_users s !! user_id = None.

(** Every limit of the configuration lets one message through. *)
Definition lenient (cfg : RateLimitConfig) : Prop :=
  (1 <= brust_size cfg)%Z /\ (1 <= request_per_minitue cfg)%Z
  /\ (1 <= request_per_hour cfg)%Z /\ (1 <= request_per_day cfg)%Z
  /\ (1 <= suspicious_requests_per_minitue cfg)%Z.

(** One [add_to_history] call: its arguments and its reading of the clock. *)
Record history_call : Type := mkHistoryCall {
  hc_client : pystr;
  hc_role : string;
  hc_content : pystr;
  hc_now : Q
}.

Definition record_turns (c : RAGCache) (calls : list history_call) : RAGCache :=
  fold_left (fun c h => add_to_history (hc_client h) (hc_role h) (hc_content h)
                          (hc_now h) c) calls c.

(** The turns that the calls hold for [client_id]: the calls of that client
    whose content is not blank, with the content stripped. *)
Definition turns_of (client_id : pystr) (calls : list history_call) : list turn :=
  flat_map (fun h =>
              if bool_decide (hc_client h = client_id)
              then match py_strip (hc_content h) with
                   | [] => []
                   | stripped => [mkTurn (hc_role h) stripped (hc_now h)]
                   end
              else []) calls.

(** The last [n] items of a list. *)
Definition last_n {A} (n : nat) (l : list A) : list A := drop (length l - n) l.

(** The calls on the query cache that change it. *)
Inductive cache_call : Type :=
  | CacheQueryResult (query context : pystr) (relevance_score : Q) (now : Q)
  | GetCachedQuery (query : pystr) (max_age_seconds : Z) (now : Q)
  | CacheSet (key value : pystr) (now : Q).

Definition cache_session (sha256_lower : pystr -> pystr) (calls : list cache_call)
    (c : RAGCache) : RAGCache :=
  fold_left (fun c call =>
               match call with
               | CacheQueryResult q ctx rel now =>
                   cache_query_result sha256_lower q ctx rel now c
               | GetCachedQuery q age now =>
                   snd (get_cached_query sha256_lower q age now c)
               | CacheSet k v now => RAGCache_set k v now c
               end) calls c.

Definition keys {V} (d : list (pystr * V)) : list pystr := map fst d.

(** The cache of the manager has distinct keys and at most
    [_max_cache_size] entries, none when that size is not positive. *)
Definition bounded (m : RAGCacheManager) : Prop :=
  NoDup (keys (_cache m))
  /\ (Z.of_nat (length (_cache m)) <= Z.max 0 (_max_cache_size m))%Z.

(** The lookup of call [e] on manager [m]: where the call goes, and the
    two counters. *)
Definition lookup_outcome (e : request_env) (m : RAGCacheManager) : position * Z * Z :=
  (snd (lookup_step e m), _hits (fst (lookup_step e m)), _misses (fst (lookup_step e m))).

(** One call run alone to its end: its four steps. *)
Definition alone : list nat := [0; 0; 0; 0]%nat.

Definition handler_type_error : exn :=
  TypeError "log_error() got an unexpected keyword argument".

Definition block_reason : string := "Temporary block due to suspicious activity".

(** The sweep ran at [t] and the interval between sweeps is [interval]. *)
Definition swept_at (t interval : Q) (s : RateLimiter) : Prop :=
  _last_cleanup s = t /\ _cleanup_interval s = interval.

Definition is_attribute_error (e : exn) : Prop :=
  match e with AttributeError _ => True | _ => False end.

(** The [check_rate_limit] calls of a session that read the clock at most
    [interval] after [t]. *)
Definition within_interval (t interval : Q) (c : public_call) : Prop :=
  match c with
  | CheckRateLimit _ _ _ clk => t_check clk - t <= interval
  | _ => True
  end.

Definition no_attribute_error (a : answer) : Prop :=
  match a with
  | Admission (Raised e) => ~ is_attribute_error e
  | _ => True
  end.

(** The inputs on which the digests and the arithmetic of the limiter do
    not raise: a digest is taken of the UTF-8 encoding of a str, which a str
    that holds a surrogate does not have, and an int enters the float
    arithmetic by a conversion, which is exact up to [2 ^ 53]. *)
Definition encodable_call (c : public_call) : Prop :=
  match c with
  | CheckRateLimit phone_number client_id message _ =>
      py_encodes phone_number = true /\ py_encodes client_id = true
      /\ py_encodes message = true
  | UnblockUser phone_number client_id
  | ResetUserLimits phone_number client_id
  | GetUserStats phone_number client_id _ =>
      py_encodes phone_number = true /\ py_encodes client_id = true
  | GetGlobalStats => True
  end.

Definition float_exact (n : Z) : Prop := (- 2 ^ 53 <= n <= 2 ^ 53)%Z.

Definition float_config (cfg : RateLimitConfig) : Prop :=
  float_exact (request_per_minitue cfg) /\ float_exact (request_per_hour cfg)
  /\ float_exact (request_per_day cfg) /\ float_exact (brust_size cfg)
  /\ float_exact (brust_window cfg) /\ float_exact (duplicate_message_window cfg)
  /\ float_exact (max_message_lengh cfg)
  /\ float_exact (suspicious_requests_per_minitue cfg)
  /\ float_exact (block_durtion cfg).


(** * Properties *)

(** ** Comparisons on [Q] *)

Lemma Qlt_bool_iff (a b : Q) : Qlt_bool a b = true <-> a < b.
Proof.
  unfold Qlt_bool. rewrite negb_true_iff.
  split; intros H.
  - apply Qnot_le_lt. intros Hle. apply Qle_bool_iff in Hle. congruence.
  - destruct (Qle_bool b a) eqn:E; [|reflexivity].
    apply Qle_bool_iff in E. exfalso. apply (Qlt_not_le _ _ H E).
Qed.

Lemma Qlt_bool_false (a b : Q) : Qlt_bool a b = false <-> b <= a.
Proof.
  unfold Qlt_bool. rewrite negb_false_iff. apply Qle_bool_iff.
Qed.

Lemma Qle_bool_false (a b : Q) : Qle_bool a b = false <-> b < a.
Proof.
  split; intros H.
  - apply Qnot_le_lt. intros Hle. apply Qle_bool_iff in Hle. congruence.
  - destruct (Qle_bool a b) eqn:E; [|reflexivity].
    apply Qle_bool_iff in E. exfalso. apply (Qlt_not_le _ _ H E).
Qed.

Lemma inject_Z_nonneg (n : Z) : (0 <= n)%Z -> 0 <= inject_Z n.
Proof. intros H. unfold Qle. simpl. lia. Qed.

Lemma py_min_le_l (a b : Q) : py_min a b <= a.
Proof.
  unfold py_min. destruct (Qlt_bool b a) eqn:E.
  - apply Qlt_bool_iff in E. lra.
  - lra.
Qed.

Lemma py_min_ge (a b c : Q) : c <= a -> c <= b -> c <= py_min a b.
Proof. unfold py_min. destruct (Qlt_bool b a); auto. Qed.

(** ** TokenBucket *)

Lemma consume_capacity b n now : capacity (snd (consume b n now)) = capacity b.
Proof. unfold consume. destruct (Qle_bool _ _); reflexivity. Qed.

Lemma consume_refill_rate b n now : refill_rate (snd (consume b n now)) = refill_rate b.
Proof. unfold consume. destruct (Qle_bool _ _); reflexivity. Qed.

Lemma consume_last_refill b n now : last_refill (snd (consume b n now)) = now.
Proof. unfold consume. destruct (Qle_bool _ _); reflexivity. Qed.

Lemma refilled_bounds b now :
  within_capacity b -> 0 <= refill_rate b -> last_refill b <= now ->
  0 <= refilled b now /\ refilled b now <= inject_Z (capacity b).
Proof.
  intros [Hlo Hhi] Hrate Hnow. unfold refilled. split.
  - apply py_min_ge; [lra|].
    assert (0 <= (now - last_refill b) * refill_rate b)
      by (apply Qmult_le_0_compat; lra).
    lra.
  - apply py_min_le_l.
Qed.

Lemma consume_within_capacity b n now :
  within_capacity b -> 0 <= refill_rate b -> last_refill b <= now -> (0 <= n)%Z ->
  within_capacity (snd (consume b n now)).
Proof.
  intros Hb Hrate Hnow Hn.
  destruct (refilled_bounds b now Hb Hrate Hnow) as [Hlo Hhi].
  pose proof (inject_Z_nonneg n Hn) as Hn'.
  unfold within_capacity, consume.
  destruct (Qle_bool (inject_Z n) (refilled b now)) eqn:E; simpl.
  - apply Qle_bool_iff in E. split; lra.
  - split; assumption.
Qed.

Lemma consume_all_within_capacity calls : forall b,
  within_capacity b -> 0 <= refill_rate b -> orderly (last_refill b) calls ->
  within_capacity (consume_all b calls).
Proof.
  induction calls as [|[n now] rest IH]; intros b Hb Hrate Hord; simpl in *.
  - exact Hb.
  - destruct Hord as (Hn & Hnow & Hrest).
    apply IH.
    + apply consume_within_capacity; assumption.
    + rewrite consume_refill_rate. exact Hrate.
    + rewrite consume_last_refill. exact Hrest.
Qed.

(** C7, counterexample: on the bucket of the default configuration
    (capacity 120, 5 tokens per second) [consume(-1)] leaves 121 tokens, and
    a clock that steps back by 30 seconds after the bucket was emptied leaves
    a negative count. *)
Lemma C7_counterexample :
  ~ tokens_always_within_capacity
  /\ tokens (consume_all (TokenBucket_init 120 5 0) [((-1)%Z, 0)]) == 121
  /\ tokens (consume_all (TokenBucket_init 120 5 100) [(120%Z, 100); (1%Z, 70)]) == -150.
Proof.
  split; [|split].
  - intros H. specialize (H 120%Z 5 0 [((-1)%Z, 0)]).
    destruct H as [_ H]. vm_compute in H. apply H. reflexivity.
  - vm_compute. reflexivity.
  - vm_compute. reflexivity.
Qed.

(** C7, amended: for a bucket of non-negative capacity and refill rate, and
    calls whose arguments are not negative and whose clock readings never go
    back, the token count stays between 0 and the capacity after every call;
    and a [consume] that returns false, whatever its argument and time,
    leaves exactly the refilled count (nothing is subtracted) and keeps
    capacity and rate. *)
Theorem C7_token_count_within_capacity :
  (forall (cap : Z) (rate t0 : Q) (calls : list (Z * Q)),
      (0 <= cap)%Z -> 0 <= rate -> orderly t0 calls ->
      within_capacity (consume_all (TokenBucket_init cap rate t0) calls))
  /\ (forall (b : TokenBucket) (n : Z) (now : Q),
        fst (consume b n now) = false ->
        tokens (snd (consume b n now)) = refilled b now
        /\ refilled b now < inject_Z n
        /\ capacity (snd (consume b n now)) = capacity b
        /\ refill_rate (snd (consume b n now)) = refill_rate b).
Proof.
  split.
  - intros cap rate t0 calls Hcap Hrate Hord.
    apply consume_all_within_capacity; simpl; try assumption.
    unfold within_capacity; simpl.
    split; [apply inject_Z_nonneg; exact Hcap | apply Qle_refl].
  - intros b n now H. unfold consume in *.
    destruct (Qle_bool (inject_Z n) (refilled b now)) eqn:E; simpl in *;
      [discriminate|].
    apply Qle_bool_false in E. repeat split; auto.
Qed.

Lemma C7_token_count_within_capacity_witness :
  within_capacity
    (consume_all (TokenBucket_init 120 5 0) [(1%Z, 0); (200%Z, 3 # 2); (1%Z, 2)])
  /\ tokens (snd (consume (TokenBucket_init 120 5 0) 200 1)) = 120.
Proof.
  split.
  - apply (proj1 C7_token_count_within_capacity); [lia | lra |].
    simpl. repeat split; try lia; try lra.
  - apply (proj2 C7_token_count_within_capacity). reflexivity.
Defined.

(** ** SlidingWindowCounter *)

Lemma nondecreasing_snoc l x :
  nondecreasing (l ++ [x]) <-> nondecreasing l /\ Forall (fun y => y <= x) l.
Proof.
  induction l as [|a l IH]; simpl.
  - split; [intros _|intros _]; repeat constructor.
  - rewrite IH, Forall_app, Forall_singleton, Forall_cons_iff. tauto.
Qed.

Lemma nondecreasing_filter (p : Q -> bool) l :
  nondecreasing l -> nondecreasing (List.filter p l).
Proof.
  induction l as [|a l IH]; simpl; [tauto|].
  intros [Ha Hl]. destruct (p a); simpl; auto.
  split; auto.
  rewrite Forall_forall in *. intros y Hy.
  apply Ha. apply list_elem_of_In in Hy. apply list_elem_of_In.
  apply filter_In in Hy. tauto.
Qed.

Lemma filter_keeps_all (p : Q -> bool) l :
  Forall (fun x => p x = true) l -> List.filter p l = l.
Proof.
  induction 1 as [|a l Ha _ IH]; simpl; [reflexivity|].
  rewrite Ha, IH. reflexivity.
Qed.

(** On an ordered queue, popping stale entries from the front removes
    exactly the entries older than the cutoff. *)
Lemma popleft_while_lt_filter cutoff l :
  nondecreasing l ->
  popleft_while_lt cutoff l = List.filter (fun x => Qle_bool cutoff x) l.
Proof.
  induction l as [|a l IH]; simpl; [reflexivity|].
  intros [Ha Hl]. destruct (Qlt_bool a cutoff) eqn:E.
  - apply Qlt_bool_iff in E.
    assert (Qle_bool cutoff a = false) as -> by (apply Qle_bool_false; exact E).
    auto.
  - apply Qlt_bool_false in E.
    assert (Qle_bool cutoff a = true) as -> by (apply Qle_bool_iff; exact E).
    f_equal. symmetry. apply filter_keeps_all.
    eapply Forall_impl; [exact Ha|].
    intros y Hy. simpl in Hy. apply Qle_bool_iff. lra.
Qed.

Lemma filter_filter_cutoff c1 c2 l :
  c1 <= c2 ->
  List.filter (fun x => Qle_bool c2 x) (List.filter (fun x => Qle_bool c1 x) l)
  = List.filter (fun x => Qle_bool c2 x) l.
Proof.
  intros Hc. induction l as [|a l IH]; simpl; [reflexivity|].
  destruct (Qle_bool c1 a) eqn:E1; simpl.
  - rewrite IH. reflexivity.
  - destruct (Qle_bool c2 a) eqn:E2; [|exact IH].
    apply Qle_bool_iff in E2. apply Qle_bool_false in E1. lra.
Qed.

Lemma filter_upper_bound lo hi l :
  Forall (fun x => x <= hi) l ->
  List.filter (fun x => Qle_bool lo x) l
  = List.filter (fun x => Qle_bool lo x && Qle_bool x hi) l.
Proof.
  induction l as [|a l IH]; simpl; [reflexivity|].
  intros H. apply Forall_cons_iff in H. destruct H as [Ha Hl].
  assert (Qle_bool a hi = true) as -> by (apply Qle_bool_iff; exact Ha).
  rewrite andb_true_r, (IH Hl). reflexivity.
Qed.

Lemma record_all_window_size c l : window_size (record_all c l) = window_size c.
Proof.
  unfold record_all. revert c.
  induction l as [|a l IH]; intros c; simpl; [reflexivity|].
  rewrite IH. reflexivity.
Qed.

Lemma record_all_snoc c l x : record_all c (l ++ [x]) = add_request (record_all c l) x.
Proof. unfold record_all. rewrite fold_left_app. reflexivity. Qed.

(** After recording an ordered sequence, the queue is ordered, holds only
    recorded events, and agrees with the whole sequence on every window that
    ends at or after the last event. *)
Lemma record_all_invariant (w : Z) (l : list Q) :
  nondecreasing l ->
  let req := request (record_all (SlidingWindowCounter_init w) l) in
  nondecreasing req
  /\ Forall (fun y => In y l) req
  /\ forall hi, Forall (fun y => y <= hi) l ->
       List.filter (fun x => Qle_bool (hi - inject_Z w) x) req
       = List.filter (fun x => Qle_bool (hi - inject_Z w) x) l.
Proof.
  induction l as [|x l IH] using rev_ind; intros Hl.
  - simpl. repeat split; constructor.
  - apply nondecreasing_snoc in Hl. destruct Hl as [Hl Hx].
    destruct (IH Hl) as (Hsorted & Hsub & Hwin). clear IH.
    rewrite record_all_snoc. unfold add_request, _cleanup. simpl.
    rewrite record_all_window_size. simpl.
    set (req := request (record_all (SlidingWindowCounter_init w) l)) in *.
    assert (Hreqx : Forall (fun y => y <= x) req).
    { rewrite Forall_forall in *. intros y Hy.
      apply Hx. apply list_elem_of_In. apply Hsub. exact Hy. }
    assert (Hs' : nondecreasing (req ++ [x])) by (apply nondecreasing_snoc; auto).
    rewrite (popleft_while_lt_filter _ _ Hs').
    split; [apply nondecreasing_filter; exact Hs'|]. split.
    + rewrite Forall_forall. intros y Hy.
      apply list_elem_of_In in Hy. apply filter_In in Hy. destruct Hy as [Hy _].
      apply in_app_iff in Hy. apply in_app_iff. destruct Hy as [Hy|Hy]; [left|right; exact Hy].
      rewrite Forall_forall in Hsub. apply Hsub. apply list_elem_of_In. exact Hy.
    + intros hi Hhi. apply Forall_app in Hhi. destruct Hhi as [Hhil Hhix].
      apply Forall_inv in Hhix. cbv beta in Hhix.
      rewrite filter_filter_cutoff by lra.
      rewrite !List.filter_app. f_equal. apply Hwin. exact Hhil.
Qed.

(** C4, counterexample: with a window of 60 seconds, an event recorded at
    time 0 is still counted at time 60, although [(0, 60]] excludes it.  And
    the eviction only pops from the front: recorded out of time order, an
    old event behind a recent one stays counted, whichever way the interval
    is closed. *)
Lemma C4_counterexample :
  ~ counts_half_open_window
  /\ fst (get_count (record_all (SlidingWindowCounter_init 60) [0]) 60) = 1%Z
  /\ count_half_open (60 - 60) 60 [0] = 0%Z
  /\ fst (get_count (record_all (SlidingWindowCounter_init 60) [100; 0]) 100) = 2%Z
  /\ count_half_open (100 - 60) 100 [100; 0] = 1%Z
  /\ count_closed (100 - 60) 100 [100; 0] = 1%Z.
Proof.
  split; [|repeat split; reflexivity].
  intros H. specialize (H 60%Z [0] 60).
  assert (Hall : Forall (fun x => x <= 60) [0]) by (repeat constructor; lra).
  specialize (H Hall). vm_compute in H. discriminate.
Qed.

(** C4, amended: for every window size [w], every sequence of timestamps
    recorded in non-decreasing order and every query time [t] not earlier
    than any of them, [get_count(t)] is the number of recorded events in the
    closed interval [[t - w, t]]: an event exactly at [t - w] is counted. *)
Theorem C4_get_count_closed_window (w : Z) (timestamps : list Q) (t : Q) :
  nondecreasing timestamps ->
  Forall (fun x => x <= t) timestamps ->
  fst (get_count (record_all (SlidingWindowCounter_init w) timestamps) t)
  = count_closed (t - inject_Z w) t timestamps.
Proof.
  intros Hsorted Hbound.
  destruct (record_all_invariant w timestamps Hsorted) as (Hs & _ & Hwin).
  unfold get_count, _cleanup, count_closed. simpl.
  rewrite record_all_window_size. simpl.
  rewrite (popleft_while_lt_filter _ _ Hs), (Hwin t Hbound).
  do 2 f_equal. apply filter_upper_bound. exact Hbound.
Qed.

Lemma C4_get_count_closed_window_witness :
  fst (get_count (record_all (SlidingWindowCounter_init 60) [0; 30; 61]) 61) = 2%Z.
Proof.
  rewrite (C4_get_count_closed_window 60 [0; 30; 61] 61).
  - reflexivity.
  - simpl. repeat split; repeat constructor; lra.
  - repeat constructor; lra.
Defined.

(** ** Reasoning about method bodies

    [hoare P m Q R E]: started in a state that satisfies [P], the statement
    [m] falls through with a value and state in [Q], returns an answer in
    [R], or raises in [E]. *)

Section HoareRules.

Context {A B : Type}.
Variable R : response -> RateLimiter -> Prop.
Variable E : exn -> RateLimiter -> Prop.

Lemma hoare_bind P (m : M A) (k : A -> M B) Q' Q :
  hoare P m Q' R E -> (forall a, hoare (Q' a) (k a) Q R E) ->
  hoare P (bind m k) Q R E.
Proof.
  intros Hm Hk s Hs. unfold bind. specialize (Hm s Hs).
  destruct (m s) as [[a|r|e] s']; auto. apply Hk. exact Hm.
Qed.

Lemma hoare_self_bind P (k : RateLimiter -> M B) Q :
  (forall s0, P s0 -> hoare (eq s0) (k s0) Q R E) ->
  hoare P (bind self k) Q R E.
Proof.
  intros Hk s Hs. unfold bind, self. apply (Hk s Hs). reflexivity.
Qed.

Lemma hoare_pre (P P' : RateLimiter -> Prop) (m : M A) Q :
  (forall s, P s -> P' s) -> hoare P' m Q R E -> hoare P m Q R E.
Proof. intros HP Hm s Hs. apply Hm, HP, Hs. Qed.

Lemma hoare_ret P (a : A) (Q : A -> RateLimiter -> Prop) :
  (forall s, P s -> Q a s) -> hoare P (ret a) Q R E.
Proof. intros H s Hs. apply H, Hs. Qed.

Lemma hoare_return P r (Q : A -> RateLimiter -> Prop) :
  (forall s, P s -> R r s) -> hoare P (return_ r) Q R E.
Proof. intros H s Hs. apply H, Hs. Qed.

Lemma hoare_raise P e (Q : A -> RateLimiter -> Prop) :
  (forall s, P s -> E e s) -> hoare P (raise e) Q R E.
Proof. intros H s Hs. apply H, Hs. Qed.

Lemma hoare_lift P (o : outcome A) (Q : A -> RateLimiter -> Prop) :
  (forall s, P s -> match o with Returned a => Q a s | Raised e => E e s end) ->
  hoare P (lift o) Q R E.
Proof. intros H s Hs. specialize (H s Hs). unfold lift. destruct o; exact H. Qed.

End HoareRules.

Lemma hoare_modify R E P f (Q : unit -> RateLimiter -> Prop) :
  (forall s, P s -> Q tt (f s)) -> hoare P (modify f) Q R E.
Proof. intros H s Hs. apply H, Hs. Qed.

Lemma hoare_pass R E P (Q : unit -> RateLimiter -> Prop) :
  (forall s, P s -> Q tt s) -> hoare P pass Q R E.
Proof. intros H s Hs. apply H, Hs. Qed.

Lemma hoare_stats_incr R E P key (Q : unit -> RateLimiter -> Prop) :
  (forall s v, P s -> stats s !! key = Some v ->
               Q tt (set_stats (insert key (v + 1)%Z) s)) ->
  (forall s, P s -> stats s !! key = None -> E (KeyError key) s) ->
  hoare P (stats_incr key) Q R E.
Proof.
  intros Hq He s Hs. unfold stats_incr, bind, self.
  destruct (stats s !! key) eqn:Hk; [apply Hq|apply He]; auto.
Qed.

Lemma hoare_counter_add R E P get set user_id ts (Q : unit -> RateLimiter -> Prop) :
  (forall s c, P s -> get s !! user_id = Some c ->
               Q tt (set (insert user_id (add_request c ts)) s)) ->
  (forall s, P s -> get s !! user_id = None -> E (KeyError user_id) s) ->
  hoare P (counter_add get set user_id ts) Q R E.
Proof.
  intros Hq He s Hs. unfold counter_add, bind, self.
  destruct (get s !! user_id) eqn:Hk; [apply Hq|apply He]; auto.
Qed.

Lemma hoare_counter_count R E P get set user_id ts (Q : Z -> RateLimiter -> Prop) :
  (forall s c, P s -> get s !! user_id = Some c ->
               Q (fst (get_count c ts)) (set (insert user_id (snd (get_count c ts))) s)) ->
  (forall s, P s -> get s !! user_id = None -> E (KeyError user_id) s) ->
  hoare P (counter_count get set user_id ts) Q R E.
Proof.
  intros Hq He s Hs. unfold counter_count, bind, self.
  destruct (get s !! user_id) eqn:Hk; [apply Hq|apply He]; auto.
Qed.

(** What [call] answers follows from the triple of the body. *)
Lemma hoare_call (P : RateLimiter -> Prop) (m : M unit) Q R E s :
  hoare P m Q R E -> P s ->
  match call m s with
  | (Returned r, s') => R r s'
  | (Raised e, s') => E e s' \/ exists u, Q u s'
  end.
Proof.
  intros H Hs. specialize (H s Hs). unfold call.
  destruct (m s) as [[a|r|e] s']; eauto.
Qed.

Lemma keeps_config_bind {A B} (m : M A) (k : A -> M B) :
  keeps_config m -> (forall a, keeps_config (k a)) -> keeps_config (bind m k).
Proof.
  intros Hm Hk s. unfold bind. specialize (Hm s).
  destruct (m s) as [[a|r|e] s']; simpl in *; auto.
  rewrite Hk. exact Hm.
Qed.

Lemma keeps_config_self_bind {B} (k : RateLimiter -> M B) :
  (forall s0, keeps_config (k s0)) -> keeps_config (bind self k).
Proof. intros Hk s. unfold bind, self. apply Hk. Qed.

Lemma keeps_config_stats_incr key : keeps_config (stats_incr key).
Proof.
  intros s. unfold stats_incr, bind, self. destruct (stats s !! key); reflexivity.
Qed.

Lemma keeps_config_counter_add get set u ts :
  (forall f s, config (set f s) = config s) -> keeps_config (counter_add get set u ts).
Proof.
  intros Hset s. unfold counter_add, bind, self.
  destruct (get s !! u); simpl; [apply Hset|reflexivity].
Qed.

Lemma keeps_config_counter_count get set u ts :
  (forall f s, config (set f s) = config s) -> keeps_config (counter_count get set u ts).
Proof.
  intros Hset s. unfold counter_count, bind, self.
  destruct (get s !! u); simpl; [apply Hset|reflexivity].
Qed.

Lemma keeps_config_lift {A} (o : outcome A) : keeps_config (lift o).
Proof. intros s. unfold lift. destruct o; reflexivity. Qed.

Lemma keeps_config_modify f :
  (forall s, config (f s) = config s) -> keeps_config (modify f).
Proof. intros H s. apply H. Qed.

Lemma keeps_config_return {A} r : keeps_config (@return_ A r).
Proof. intros s. reflexivity. Qed.

Lemma keeps_config_raise {A} e : keeps_config (@raise A e).
Proof. intros s. reflexivity. Qed.

Lemma keeps_config_ret {A} (a : A) : keeps_config (ret a).
Proof. intros s. reflexivity. Qed.

(** One syntactic step through a method body. *)
Ltac keeps_config_step :=
  lazymatch goal with
  | |- keeps_config (bind self _) => apply keeps_config_self_bind; intros ?
  | |- keeps_config (bind _ _) => apply keeps_config_bind; [|intros ?]
  | |- keeps_config (match ?x with _ => _ end) => destruct x
  | |- keeps_config (stats_incr _) => apply keeps_config_stats_incr
  | |- keeps_config (counter_add _ _ _ _) =>
      apply keeps_config_counter_add; intros; reflexivity
  | |- keeps_config (counter_count _ _ _ _) =>
      apply keeps_config_counter_count; intros; reflexivity
  | |- keeps_config (lift _) => apply keeps_config_lift
  | |- keeps_config (modify _) => apply keeps_config_modify; intros; reflexivity
  | |- keeps_config (return_ _) => apply keeps_config_return
  | |- keeps_config (raise _) => apply keeps_config_raise
  | |- keeps_config pass => apply keeps_config_ret
  | |- keeps_config (ret _) => apply keeps_config_ret
  end.

Lemma keeps_config_cleanup now : keeps_config (_cleanup_old_data now).
Proof. unfold _cleanup_old_data. repeat keeps_config_step. Qed.

Lemma keeps_config_check sha md5 p c m clk :
  keeps_config (check_rate_limit sha md5 p c m clk).
Proof.
  unfold check_rate_limit.
  repeat lazymatch goal with
         | |- keeps_config (_cleanup_old_data _) => apply keeps_config_cleanup
         | _ => keeps_config_step
         end.
Qed.

(** One syntactic step through a method body, keeping the invariant [Inv]
    between statements; [side] discharges the conditions on the state. *)
Ltac hoare_step Inv side :=
  lazymatch goal with
  | |- hoare _ (bind self _) _ _ _ =>
      apply hoare_self_bind; intros ? ?; cbv beta
  | |- hoare _ (bind _ _) _ _ _ =>
      apply (hoare_bind _ _ _ _ _ (fun _ => Inv)); [|intros ?; cbv beta]
  | |- hoare _ (match ?x with _ => _ end) _ _ _ => destruct x eqn:?
  | |- hoare _ (stats_incr _) _ _ _ => apply hoare_stats_incr; side
  | |- hoare _ (counter_add _ _ _ _) _ _ _ => apply hoare_counter_add; side
  | |- hoare _ (counter_count _ _ _ _) _ _ _ => apply hoare_counter_count; side
  | |- hoare _ (lift _) _ _ _ => apply hoare_lift; side
  | |- hoare _ (modify _) _ _ _ => apply hoare_modify; side
  | |- hoare _ (return_ _) _ _ _ => apply hoare_return; side
  | |- hoare _ (raise _) _ _ _ => apply hoare_raise; side
  | |- hoare _ pass _ _ _ => apply hoare_pass; side
  | |- hoare _ (ret _) _ _ _ => apply hoare_ret; side
  end.

(** ** The per-minute limit behind the suspicious threshold *)

Ltac suspicious_side :=
  intros; subst; unfold suspicious_first in *; cbn in *;
  repeat match goal with
         | H : (_ <? _)%Z = true |- _ => apply Z.ltb_lt in H
         | H : (_ <? _)%Z = false |- _ => apply Z.ltb_ge in H
         end;
  try match goal with
      | |- match ?o with Returned _ => _ | Raised _ => _ end => destruct o
      end;
  first [ assumption | lia | split; [discriminate | assumption]
        | split; [intros _; lia | assumption] ].

Lemma cleanup_suspicious_first now :
  hoare suspicious_first (_cleanup_old_data now) (fun _ => suspicious_first)
    (fun r s => r <> minute_rejection /\ suspicious_first s)
    (fun _ => suspicious_first).
Proof.
  unfold _cleanup_old_data.
  repeat hoare_step suspicious_first suspicious_side.
Qed.

Lemma check_suspicious_first sha md5 p c m clk :
  hoare suspicious_first (check_rate_limit sha md5 p c m clk)
    (fun _ => suspicious_first)
    (fun r s => r <> minute_rejection /\ suspicious_first s)
    (fun _ => suspicious_first).
Proof.
  unfold check_rate_limit.
  repeat lazymatch goal with
         | |- hoare _ (_cleanup_old_data _) _ _ _ =>
             eapply hoare_pre; [|apply cleanup_suspicious_first]; suspicious_side
         | _ => hoare_step suspicious_first suspicious_side
         end.
Qed.

Lemma run_suspicious_first sha md5 ops : forall s,
  suspicious_first s ->
  Forall (fun o => o <> Returned minute_rejection) (fst (run sha md5 ops s)).
Proof.
  induction ops as [|op ops IH]; intros s Hs; simpl; [constructor|].
  destruct op as [p c m clk|p c|p c].
  - pose proof (hoare_call _ _ _ _ _ s (check_suspicious_first sha md5 p c m clk) Hs)
      as Hcall.
    destruct (call (check_rate_limit sha md5 p c m clk) s) as [[r|e] s'];
      simpl; constructor.
    + intros Heq. inversion Heq. subst. tauto.
    + apply IH. tauto.
    + discriminate.
    + apply IH. destruct Hcall as [H|[_ H]]; exact H.
  - apply IH. unfold unblock_user.
    destruct (blocked_users s !! _get_user_id sha p c); exact Hs.
  - apply IH. exact Hs.
Qed.

(** C10: under the default configuration, whatever the hash functions, the
    starting time and the sequence of public operations (checks, unblocks,
    resets) on the limiter, no [check_rate_limit] call answers with the
    per-minute-limit rejection: the suspicious threshold (100) is tested
    first and is below the per-minute limit (300). *)
Theorem C10_minute_limit_unreachable
    (sha256_hexdigest md5_lower_strip : pystr -> string)
    (ops : list operation) (t0 : Q) :
  Forall (fun o => o <> Returned minute_rejection)
    (fst (run sha256_hexdigest md5_lower_strip ops
            (RateLimiter_init default_config t0))).
Proof.
  apply run_suspicious_first. unfold suspicious_first. simpl. lia.
Qed.

(** ** Duplicate suppression *)

Lemma hoare_false {A} (m : M A) Q R E : hoare (fun _ => False) m Q R E.
Proof. intros s []. Qed.

Lemma is_Some_lookup_insert (m : gmap string Z) k k' v :
  is_Some (m !! k') -> is_Some (<[k := v]> m !! k').
Proof.
  intros H. destruct (decide (k = k')) as [->|Hne].
  - rewrite lookup_insert_eq. eauto.
  - rewrite lookup_insert_ne by exact Hne. exact H.
Qed.

Section Duplicate.

Variable sha256_hexdigest : pystr -> string.
Variable md5_lower_strip : pystr -> string.
Variables phone_number client_id message : pystr.
Variable clk : Clock.
Variable cfg : RateLimitConfig.
Variable last_hash : string.
Variable last_time : Q.

Local Abbreviation user_id := (_get_user_id sha256_hexdigest phone_number client_id).
Local Abbreviation now := (t_check clk).
Local Abbreviation before_check :=
  (before_duplicate_check sha256_hexdigest phone_number client_id cfg last_hash last_time).


Ltac before_side :=
  intros; subst; unfold before_duplicate_check, counts_requests, not_blocked in *;
  cbn in *;
  try match goal with
      | |- match ?o with Returned _ => _ | Raised _ => _ end => destruct o
      end;
  first [ tauto | assumption | exact I | discriminate ].

(** Recorded longer ago than the window, or under another hash: the
    answer, if any, does not come from the duplicate check. *)
Lemma not_rejected_as_duplicate (s : RateLimiter) :
  before_check s ->
  (last_hash = md5_lower_strip message ->
   inject_Z (duplicate_message_window cfg) <= now - last_time) ->
  hoare (eq s)
    (check_rate_limit sha256_hexdigest md5_lower_strip phone_number client_id message clk)
    (fun _ _ => True)
    (fun r _ => snd (fst r) <>
                Some "Duplicated message detected. Please wait before responding.")
    (fun _ _ => True).
Proof.
  intros Hs Hold. unfold check_rate_limit. cbv zeta.
  eapply hoare_pre with (P' := before_check); [intros ? Heq; rewrite <- Heq; exact Hs|].
  (* total_requests *)
  apply (hoare_bind _ _ _ _ _ (fun _ => before_check));
    [repeat hoare_step constr:(before_check) before_side|intros _; cbv beta].
  (* the block test and the creation of the trackers *)
  do 3 (apply hoare_self_bind; intros ? ?; cbv beta;
        apply (hoare_bind _ _ _ _ _ (fun _ => before_check));
        [repeat hoare_step constr:(before_check) before_side
        |intros _; cbv beta]).
  (* the duplicate check *)
  apply hoare_self_bind; intros sd [Hcfg Hlast]; cbv beta.
  rewrite Hlast, Hcfg.
  destruct (bool_decide (last_hash = md5_lower_strip message)
            && Qlt_bool (now - last_time) (inject_Z (duplicate_message_window cfg)))
    eqn:Hdup.
  { apply andb_true_iff in Hdup. destruct Hdup as [Hh Ht].
    apply bool_decide_eq_true in Hh. apply Qlt_bool_iff in Ht.
    specialize (Hold Hh). lra. }
  (* every later answer carries another reason *)
  repeat lazymatch goal with
         | |- hoare _ (_cleanup_old_data _) _ _ _ =>
             eapply hoare_pre with (P' := fun _ => True); [tauto|];
             unfold _cleanup_old_data
         | _ => hoare_step (fun _ : RateLimiter => True)
                  ltac:(intros; cbn;
                        try match goal with
                            | |- match ?o with Returned _ => _ | Raised _ => _ end =>
                                destruct o
                            end;
                        first [exact I | discriminate])
         end.
Qed.

(** Same hash, inside the window, no block in force: the call returns
    the duplicate rejection and the recorded message is left as it was. *)
Lemma rejected_as_duplicate (s : RateLimiter) :
  before_check s -> counts_requests s -> not_blocked user_id now s ->
  last_hash = md5_lower_strip message ->
  now - last_time < inject_Z (duplicate_message_window cfg) ->
  hoare (eq s)
    (check_rate_limit sha256_hexdigest md5_lower_strip phone_number client_id message clk)
    (fun _ _ => False)
    (fun r s' => r = duplicate_rejection
                 /\ last_messages s' !! user_id = Some (last_hash, last_time))
    (fun _ _ => False).
Proof.
  intros Hs Hstats Hblock Hhash Hwindow.
  unfold check_rate_limit. cbv zeta.
  set (Inv := fun s' => before_check s' /\ counts_requests s'
                        /\ not_blocked user_id now s').
  eapply hoare_pre with (P' := Inv); [intros ? Heq; rewrite <- Heq; unfold Inv; tauto|].
  (* total_requests *)
  apply (hoare_bind _ _ _ _ _ (fun _ => Inv)).
  { apply hoare_stats_incr.
    - intros s0 v (H1 & [H2 H3] & H4) _. unfold Inv, counts_requests. cbn.
      split; [exact H1|]. split; [|exact H4].
      split; apply is_Some_lookup_insert; assumption.
    - intros s0 (_ & [[v Hv] _] & _) Hnone. congruence. }
  intros _; cbv beta.
  (* the block test *)
  apply hoare_self_bind; intros s1 (H1 & H2 & H3); cbv beta.
  apply (hoare_bind _ _ _ _ _ (fun _ => Inv)).
  { destruct (blocked_users s1 !! user_id) as [unblock_time|] eqn:Hb.
    - destruct (Qlt_bool now unblock_time) eqn:Hlt.
      + apply Qlt_bool_iff in Hlt. specialize (H3 _ Hb). lra.
      + apply hoare_modify. intros ? Heq. rewrite <- Heq. unfold Inv.
        split; [exact H1|]. split; [exact H2|].
        intros u Hu. cbn in Hu. rewrite lookup_delete_eq in Hu. discriminate.
    - apply hoare_pass. intros ? Heq. rewrite <- Heq. unfold Inv. tauto. }
  intros _; cbv beta.
  (* the creation of the trackers *)
  do 2 (apply hoare_self_bind; intros ? ?; cbv beta;
        apply (hoare_bind _ _ _ _ _ (fun _ => Inv));
        [repeat hoare_step Inv ltac:(intros; subst; unfold Inv in *; cbn in *; tauto)
        |intros _; cbv beta]).
  (* the duplicate check *)
  apply hoare_self_bind; intros sd ([Hcfg Hlast] & [_ Hspam] & _); cbv beta.
  apply (hoare_bind _ _ _ _ _ (fun _ _ => False)); [|intros; apply hoare_false].
  rewrite Hlast, Hcfg.
  assert (bool_decide (last_hash = md5_lower_strip message)
          && Qlt_bool (now - last_time) (inject_Z (duplicate_message_window cfg))
          = true) as ->.
  { apply andb_true_iff. split.
    - apply bool_decide_eq_true. exact Hhash.
    - apply Qlt_bool_iff. exact Hwindow. }
  apply (hoare_bind _ _ _ _ _
           (fun _ s' => last_messages s' !! user_id = Some (last_hash, last_time))).
  - apply hoare_stats_incr.
    + intros ? v Heq _. rewrite <- Heq. cbn. exact Hlast.
    + intros ? Heq Hnone. rewrite <- Heq in Hnone. destruct Hspam as [v Hv]. congruence.
  - intros _. apply hoare_return. intros s' Hs'. split; [reflexivity|exact Hs'].
Qed.

End Duplicate.

(** An invariant of [check_rate_limit], [unblock_user] and
    [reset_user_limits] holds after every run. *)
Lemma run_invariant sha md5 (Inv : RateLimiter -> Prop) :
  (forall p c m clk,
      hoare Inv (check_rate_limit sha md5 p c m clk)
        (fun _ => Inv) (fun _ => Inv) (fun _ => Inv)) ->
  (forall p c s, Inv s -> Inv (snd (unblock_user sha p c s))) ->
  (forall p c s, Inv s -> Inv (reset_user_limits sha p c s)) ->
  forall ops s, Inv s -> Inv (snd (run sha md5 ops s)).
Proof.
  intros Hcheck Hunblock Hreset.
  induction ops as [|op ops IH]; intros s Hs; simpl; [exact Hs|].
  destruct op as [p c m clk|p c|p c]; simpl; apply IH; auto.
  pose proof (hoare_call _ _ _ _ _ s (Hcheck p c m clk) Hs) as Hcall.
  destruct (call (check_rate_limit sha md5 p c m clk) s) as [[r|e] s']; simpl.
  - exact Hcall.
  - destruct Hcall as [H|[_ H]]; exact H.
Qed.

Ltac counts_side :=
  intros; subst; unfold counts_requests in *; cbn in *;
  try match goal with
      | |- match ?o with Returned _ => _ | Raised _ => _ end => destruct o
      end;
  first [ assumption
        | match goal with
          | H : _ /\ _ |- _ =>
              destruct H; split; apply is_Some_lookup_insert; assumption
          end ].

Lemma check_counts_requests sha md5 p c m clk :
  hoare counts_requests (check_rate_limit sha md5 p c m clk)
    (fun _ => counts_requests) (fun _ => counts_requests) (fun _ => counts_requests).
Proof.
  unfold check_rate_limit, _cleanup_old_data.
  repeat hoare_step counts_requests counts_side.
Qed.

Lemma run_counts_requests sha md5 cfg t0 ops :
  counts_requests (snd (run sha md5 ops (RateLimiter_init cfg t0))).
Proof.
  apply run_invariant.
  - apply check_counts_requests.
  - intros p c s Hs. unfold unblock_user.
    destruct (blocked_users s !! _get_user_id sha p c); exact Hs.
  - intros p c s Hs. exact Hs.
  - unfold counts_requests. simpl. split; eexists; reflexivity.
Qed.

Lemma run_config sha md5 cfg t0 ops :
  config (snd (run sha md5 ops (RateLimiter_init cfg t0))) = cfg.
Proof.
  apply (run_invariant sha md5 (fun s => config s = cfg)).
  - intros p c m clk s Hs.
    pose proof (keeps_config_check sha md5 p c m clk s) as Hk.
    destruct (check_rate_limit sha md5 p c m clk s) as [[a|r|e] s'];
      simpl in Hk; congruence.
  - intros p c s Hs. unfold unblock_user.
    destruct (blocked_users s !! _get_user_id sha p c); exact Hs.
  - intros p c s Hs. exact Hs.
  - reflexivity.
Qed.

(** C9, counterexample: after the flood the identity is blocked; its last
    message, sent again a quarter of a second later, is turned away by the
    block test, with the rest of the block (119 s) as retry hint, not by the
    duplicate check with its 30 s. *)
Lemma C9_counterexample :
  ~ duplicate_gets_short_hint
  /\ last_messages flooded !! _get_user_id plain_digest sender tenant
     = Some (plain_digest text_b, 101 # 4)
  /\ fst (call (check_rate_limit plain_digest plain_digest sender tenant text_b
                  (at_time (102 # 4))) flooded)
     = Returned (false, Some "Temporary block due to suspicious activity", Some 119%Z).
Proof.
  unfold flooded.
  set (s := snd (run plain_digest plain_digest flood (RateLimiter_init default_config 0))).
  assert (Hlast : last_messages s !! _get_user_id plain_digest sender tenant
                  = Some (plain_digest text_b, 101 # 4)) by (vm_compute; reflexivity).
  assert (Hcall : fst (call (check_rate_limit plain_digest plain_digest sender tenant
                               text_b (at_time (102 # 4))) s)
                  = Returned (false, Some "Temporary block due to suspicious activity",
                              Some 119%Z)) by (vm_compute; reflexivity).
  split; [|split; assumption].
  intros H.
  pose proof (H plain_digest plain_digest flood 0 sender tenant text_b
                (at_time (102 # 4)) (101 # 4)) as H'.
  cbv zeta in H'. fold s in H'.
  assert (Hlt : t_check (at_time (102 # 4)) - (101 # 4) < 10)
    by (vm_compute; reflexivity).
  specialize (H' Hlast Hlt). rewrite Hcall in H'. discriminate.
Qed.

(** C9, amended: in any state the limiter reaches, whatever its
    configuration, let the message's hash equal the hash recorded last for
    the identity.  Inside the duplicate window, and unless a block is in
    force for the identity (the block test comes first), the call returns
    the duplicate rejection with the 30-second hint and leaves the recorded
    message as it was.  Once the window has elapsed since the recorded
    time, no answer of the call carries the duplicate reason: the message
    is judged by the other checks only. *)
Theorem C9_duplicate_window
    (sha256_hexdigest md5_lower_strip : pystr -> string)
    (cfg : RateLimitConfig) (t0 : Q) (ops : list operation)
    (phone_number client_id message : pystr) (clk : Clock) (last_time : Q) :
  let s := snd (run sha256_hexdigest md5_lower_strip ops (RateLimiter_init cfg t0)) in
  let user_id := _get_user_id sha256_hexdigest phone_number client_id in
  let answer :=
    call (check_rate_limit sha256_hexdigest md5_lower_strip phone_number client_id
            message clk) s in
  last_messages s !! user_id = Some (md5_lower_strip message, last_time) ->
  (t_check clk - last_time < inject_Z (duplicate_message_window cfg) ->
   not_blocked user_id (t_check clk) s ->
   fst answer = Returned duplicate_rejection
   /\ last_messages (snd answer) !! user_id = Some (md5_lower_strip message, last_time))
  /\ (inject_Z (duplicate_message_window cfg) <= t_check clk - last_time ->
      forall r, fst answer = Returned r ->
        snd (fst r) <> Some "Duplicated message detected. Please wait before responding.").
Proof.
  intros s user_id answer Hlast.
  assert (Hbefore : before_duplicate_check sha256_hexdigest phone_number client_id cfg
                      (md5_lower_strip message) last_time s).
  { split; [apply run_config|exact Hlast]. }
  split.
  - intros Hwindow Hblock.
    pose proof (hoare_call _ _ _ _ _ s
                  (rejected_as_duplicate sha256_hexdigest md5_lower_strip phone_number
                     client_id message clk cfg (md5_lower_strip message) last_time s
                     Hbefore (run_counts_requests _ _ _ _ _) Hblock eq_refl Hwindow)
                  eq_refl) as Hcall.
    fold answer in Hcall. destruct answer as [[r|e] s'].
    + destruct Hcall as [-> Hs']. split; [reflexivity|exact Hs'].
    + destruct Hcall as [[]|[_ []]].
  - intros Hold r Hr.
    pose proof (hoare_call _ _ _ _ _ s
                  (not_rejected_as_duplicate sha256_hexdigest md5_lower_strip phone_number
                     client_id message clk cfg (md5_lower_strip message) last_time s
                     Hbefore (fun _ => Hold))
                  eq_refl) as Hcall.
    fold answer in Hcall. destruct answer as [[r'|e] s']; simpl in Hr; [|discriminate].
    inversion Hr. subst. exact Hcall.
Qed.

Lemma C9_duplicate_window_witness :
  let s := snd (run plain_digest plain_digest [Check sender tenant text_a (at_time 1)]
                  (RateLimiter_init default_config 0)) in
  fst (call (check_rate_limit plain_digest plain_digest sender tenant text_a (at_time 2)) s)
  = Returned duplicate_rejection
  /\ forall r,
       fst (call (check_rate_limit plain_digest plain_digest sender tenant text_a
                    (at_time 11)) s) = Returned r ->
       snd (fst r) <> Some "Duplicated message detected. Please wait before responding.".
Proof.
  intros s. split.
  - apply (C9_duplicate_window plain_digest plain_digest default_config 0
             [Check sender tenant text_a (at_time 1)] sender tenant text_a (at_time 2) 1).
    + vm_compute. reflexivity.
    + vm_compute. reflexivity.
    + intros u Hu. vm_compute in Hu. discriminate.
  - apply (C9_duplicate_window plain_digest plain_digest default_config 0
             [Check sender tenant text_a (at_time 1)] sender tenant text_a (at_time 11) 1).
    + vm_compute. reflexivity.
    + vm_compute. discriminate.
Defined.

(** ** The order of the checks *)

Lemma lookup_insert_None (m : gmap string Z) k k' v :
  is_Some (m !! k) -> m !! k' = None -> <[k := v]> m !! k' = None.
Proof.
  intros [x Hx] Hk'. rewrite lookup_insert_ne; [exact Hk'|].
  intros ->. congruence.
Qed.

Ltac misspelt_side :=
  intros; subst; unfold no_misspelt_key in *; cbn in *;
  try match goal with
      | |- match ?o with Returned _ => _ | Raised _ => _ end => destruct o
      end;
  first [ assumption
        | apply lookup_insert_None; [eexists; eassumption | assumption] ].

Lemma check_no_misspelt_key sha md5 p c m clk :
  hoare no_misspelt_key (check_rate_limit sha md5 p c m clk)
    (fun _ => no_misspelt_key) (fun _ => no_misspelt_key) (fun _ => no_misspelt_key).
Proof.
  unfold check_rate_limit, _cleanup_old_data.
  repeat hoare_step no_misspelt_key misspelt_side.
Qed.

Lemma run_no_misspelt_key sha md5 cfg t0 ops :
  no_misspelt_key (snd (run sha md5 ops (RateLimiter_init cfg t0))).
Proof.
  apply run_invariant.
  - apply check_no_misspelt_key.
  - intros p c s Hs. unfold unblock_user.
    destruct (blocked_users s !! _get_user_id sha p c); exact Hs.
  - intros p c s Hs. exact Hs.
  - reflexivity.
Qed.

Section Order.

Variable sha256_hexdigest : pystr -> string.
Variable md5_lower_strip : pystr -> string.
Variables phone_number client_id message : pystr.
Variable clk : Clock.
Variable cfg : RateLimitConfig.
Variable recorded : option (string * Q).
Variable queue : option (list Q).

Local Abbreviation user_id := (_get_user_id sha256_hexdigest phone_number client_id).
Local Abbreviation now := (t_check clk).
Local Abbreviation fresh :=
  (fresh_message md5_lower_strip message clk cfg recorded).
Local Abbreviation gate :=
  (past_the_gate sha256_hexdigest phone_number client_id clk cfg recorded queue).
Local Abbreviation checks :=
  (at_the_checks sha256_hexdigest phone_number client_id clk cfg recorded queue).
Local Abbreviation recorded_now :=
  (message_recorded sha256_hexdigest md5_lower_strip phone_number client_id message clk
     cfg queue).



Ltac gate_side :=
  intros; subst; unfold past_the_gate, no_misspelt_key, not_blocked, burst_queue in *;
  cbn in *;
  repeat match goal with
         | H : _ /\ _ |- _ => destruct H
         end;
  repeat match goal with
         | H : Qlt_bool _ _ = true |- _ => apply Qlt_bool_iff in H
         end;
  try match goal with
      | Hb : forall u, ?m !! ?k = Some u -> u <= ?n, Hk : ?m !! ?k = Some ?x,
        Hlt : ?n < ?x |- _ => specialize (Hb _ Hk); lra
      | Hs : is_Some ?x, Hn : ?x = None |- _ =>
          rewrite Hn in Hs; destruct Hs; discriminate
      end;
  repeat split;
  first [ assumption
        | congruence
        | apply is_Some_lookup_insert; assumption
        | apply lookup_insert_None; assumption
        | intros ? Hu; rewrite lookup_delete_eq in Hu; discriminate
        | idtac ].

Lemma gate_to_duplicate_check (rest : M unit) Post R E :
  hoare gate rest Post R E ->
  forall s, gate s ->
  hoare (eq s)
    (stats_incr "total_requests" ;;;
     let! s := self in
     match blocked_users s !! user_id with
     | Some unblock_time =>
         if Qlt_bool now unblock_time
         then return_ (false, Some "Temporary block due to suspicious activity",
                       Some (py_int (unblock_time - now)))
         else modify (set_blocked_users (delete user_id))
     | None => pass
     end ;;; rest) Post R E.
Proof.
  intros Hrest s Hs.
  eapply hoare_pre with (P' := gate); [intros ? Heq; rewrite <- Heq; exact Hs|].
  apply (hoare_bind _ _ _ _ _ (fun _ => gate)).
  { apply hoare_stats_incr; gate_side. }
  intros _; cbv beta.
  apply hoare_self_bind; intros ? ?; cbv beta.
  apply (hoare_bind _ _ _ _ _ (fun _ => gate)); [|intros _; exact Hrest].
  repeat hoare_step constr:(gate) gate_side.
Qed.



Lemma counters_created R E (s : RateLimiter) :
  gate s ->
  hoare (eq s)
    match minitue_counters s !! user_id with
    | Some _ => pass
    | None =>
        modify (set_minitue_counters (insert user_id (SlidingWindowCounter_init 60))) ;;;
        modify (set_hour_counters (insert user_id (SlidingWindowCounter_init 3600))) ;;;
        modify (set_day_counters (insert user_id (SlidingWindowCounter_init 86400))) ;;;
        modify (set_burst_tracker (insert user_id []))
    end
    (fun _ => checks) R E.
Proof.
  intros H3. destruct (minitue_counters s !! user_id) eqn:Hm.
  - apply hoare_pass. intros ? Heq. rewrite <- Heq. split; [exact H3|].
    destruct H3 as (_ & _ & _ & _ & _ & Hq). unfold burst_queue in Hq.
    rewrite Hm in Hq. exact Hq.
  - intros s' Heq. rewrite <- Heq. unfold bind, modify. cbn.
    destruct H3 as (Hc & Ht & Hk & Hb & Hl & Hq). unfold burst_queue in Hq.
    rewrite Hm in Hq.
    unfold at_the_checks, past_the_gate, burst_queue, no_misspelt_key, not_blocked in *.
    cbn. rewrite !lookup_insert_eq. repeat split; assumption.
Qed.

Lemma duplicate_check_passes R E (s : RateLimiter) :
  fresh -> checks s ->
  hoare (eq s)
    match last_messages s !! user_id with
    | Some (last_hash, last_time) =>
        if bool_decide (last_hash = md5_lower_strip message)
           && Qlt_bool (now - last_time) (inject_Z (duplicate_message_window (config s)))
        then stats_incr "spam_detected" ;;; return_ duplicate_rejection
        else pass
    | None => pass
    end
    (fun _ => checks) R E.
Proof.
  intros Hfresh H4.
  pose proof H4 as [(Hc & Ht & Hk & Hb & Hl & Hq) Hbt].
  rewrite Hl, Hc. unfold fresh_message in Hfresh.
  destruct recorded as [[last_hash last_time]|].
  - destruct (bool_decide (last_hash = md5_lower_strip message)
              && Qlt_bool (now - last_time) (inject_Z (duplicate_message_window cfg)))
      eqn:Hdup.
    + apply andb_true_iff in Hdup. destruct Hdup as [Hh Hw].
      apply bool_decide_eq_true in Hh. apply Qlt_bool_iff in Hw.
      specialize (Hfresh Hh). lra.
    + apply hoare_pass. intros ? Heq. rewrite <- Heq. exact H4.
  - apply hoare_pass. intros ? Heq. rewrite <- Heq. exact H4.
Qed.

Lemma recording (s : RateLimiter) :
  checks s ->
  recorded_now
    (set_last_messages (insert user_id (md5_lower_strip message, now)) s).
Proof.
  intros [(Hc & Ht & Hk & Hb & Hl & Hq) Hbt].
  unfold message_recorded, no_misspelt_key in *. cbn. rewrite lookup_insert_eq.
  repeat split; assumption.
Qed.

(** The path from the entry of the method to the length test, for a message
    that is not a duplicate: the goal that remains is the triple of the
    length test and what follows it, from a state with [recorded_now]. *)
Ltac reach_length_check Hfresh Hs :=
  unfold check_rate_limit; cbv zeta;
  apply gate_to_duplicate_check; [|exact Hs];
  (* the token bucket is created *)
  apply hoare_self_bind; intros ? ?; cbv beta;
  apply (hoare_bind _ _ _ _ _ (fun _ => gate));
    [repeat hoare_step constr:(gate) gate_side|intros _; cbv beta];
  (* the counters and the burst queue are created *)
  apply hoare_self_bind; intros ? ?; cbv beta;
  apply (hoare_bind _ _ _ _ _ (fun _ => checks));
    [apply counters_created; assumption|intros _; cbv beta];
  (* the duplicate check passes *)
  apply hoare_self_bind; intros ? ?; cbv beta;
  apply (hoare_bind _ _ _ _ _ (fun _ => checks));
    [apply duplicate_check_passes; assumption|intros _; cbv beta];
  (* the message is recorded *)
  apply (hoare_bind _ _ _ _ _ (fun _ => recorded_now));
    [apply hoare_modify; apply recording|intros _; cbv beta];
  apply hoare_self_bind; intros ? ?; cbv beta.

(** Not blocked, not a duplicate, too long: the length rejection, and the
    message has been recorded as the last one. *)
Lemma rejected_as_too_long (s : RateLimiter) :
  gate s -> fresh ->
  (max_message_lengh cfg < Z.of_nat (length message))%Z ->
  hoare (eq s)
    (check_rate_limit sha256_hexdigest md5_lower_strip phone_number client_id message clk)
    (fun _ _ => False)
    (fun r s' => r = length_rejection
                 /\ last_messages s' !! user_id = Some (md5_lower_strip message, now))
    (fun _ _ => False).
Proof.
  intros Hs Hfresh Hlong.
  reach_length_check Hfresh Hs.
  match goal with H : recorded_now _ |- _ => destruct H as (Hc & Hk & Hbt & Hl) end.
  apply (hoare_bind _ _ _ _ _ (fun _ _ => False)); [|intros; apply hoare_false].
  rewrite Hc.
  assert ((max_message_lengh cfg <? Z.of_nat (length message))%Z = true) as ->
    by (apply Z.ltb_lt; exact Hlong).
  apply hoare_return. intros ? Heq. rewrite <- Heq. split; [reflexivity|exact Hl].
Qed.

(** Not blocked, not a duplicate, not too long, and the burst queue with
    this message pushed exceeds the capacity: the call raises. *)
Lemma burst_rejection_raises (s : RateLimiter) (tracker : list Q) :
  gate s -> fresh ->
  (Z.of_nat (length message) <= max_message_lengh cfg)%Z ->
  queue = Some tracker ->
  (brust_size cfg
   < Z.of_nat (length (popleft_while_lt (now - inject_Z (brust_window cfg))
                         (tracker ++ [now]))))%Z ->
  hoare (eq s)
    (check_rate_limit sha256_hexdigest md5_lower_strip phone_number client_id message clk)
    (fun _ _ => False)
    (fun _ _ => False)
    (fun e _ => e = KeyError "burst_voilations").
Proof.
  intros Hs Hfresh Hshort Hqueue Hburst.
  reach_length_check Hfresh Hs.
  match goal with H : recorded_now _ |- _ => destruct H as (Hc & Hk & Hbt & Hl) end.
  rewrite Hc, Hbt, Hqueue.
  assert ((max_message_lengh cfg <? Z.of_nat (length message))%Z = false) as ->
    by (apply Z.ltb_ge; exact Hshort).
  apply (hoare_bind _ _ _ _ _ (fun _ s' => no_misspelt_key s'));
    [apply hoare_pass; intros ? Heq; rewrite <- Heq; exact Hk|intros _; cbv beta].
  apply (hoare_bind _ _ _ _ _ (fun _ _ => False)); [|intros; apply hoare_false].
  cbv zeta.
  apply (hoare_bind _ _ _ _ _ (fun _ s' => no_misspelt_key s'));
    [apply hoare_modify; intros ? Hkey; exact Hkey|intros _; cbv beta].
  apply Z.ltb_lt in Hburst. rewrite Hburst.
  apply (hoare_bind _ _ _ _ _ (fun _ _ => False)); [|intros; apply hoare_false].
  apply hoare_stats_incr.
  - intros s' v Hn Hv. unfold no_misspelt_key in Hn. congruence.
  - reflexivity.
Qed.

(** A block in force: the block rejection, with the rest of the block as
    retry hint. *)
Lemma rejected_as_blocked (s : RateLimiter) (unblock_time : Q) :
  is_Some (stats s !! "total_requests") ->
  blocked_users s !! user_id = Some unblock_time -> now < unblock_time ->
  hoare (eq s)
    (check_rate_limit sha256_hexdigest md5_lower_strip phone_number client_id message clk)
    (fun _ _ => False)
    (fun r _ => r = block_rejection (py_int (unblock_time - now)))
    (fun _ _ => False).
Proof.
  intros Hstats Hblocked Hnow. unfold check_rate_limit. cbv zeta.
  apply (hoare_bind _ _ _ _ _
           (fun _ s' => blocked_users s' !! user_id = Some unblock_time)).
  { apply hoare_stats_incr.
    - intros ? v Heq _. rewrite <- Heq. exact Hblocked.
    - intros ? Heq Hnone. rewrite <- Heq in Hnone. destruct Hstats. congruence. }
  intros _; cbv beta.
  apply hoare_self_bind; intros s1 H1; cbv beta.
  apply (hoare_bind _ _ _ _ _ (fun _ _ => False)); [|intros; apply hoare_false].
  rewrite H1.
  assert (Qlt_bool now unblock_time = true) as -> by (apply Qlt_bool_iff; exact Hnow).
  apply hoare_return. reflexivity.
Qed.

End Order.

(** ** Calls that raise *)

(** C1: [check_rate_limit] raises on two paths of the default
    configuration.  The burst rejection reads the key ['burst_voilations'],
    which [__init__] never creates (it creates ['burst_violations']): the
    121st message inside the burst window raises [KeyError] instead of
    returning the rejection.  The sweep logs through [logger.logging], an
    attribute the logger does not have: the first admitted call after some
    identity has been inactive for a day raises [AttributeError]. *)
Theorem C1_check_rate_limit_raises :
  fst (call (check_rate_limit plain_digest plain_digest sender tenant text_b
               (at_time (121 # 4))) before_burst)
  = Raised (KeyError "burst_voilations")
  /\ fst (run plain_digest plain_digest a_day_later (RateLimiter_init default_config 0))
     = [Returned (true, None, None); Raised (AttributeError "logging")].
Proof. split; vm_compute; reflexivity. Qed.

Lemma run_total_requests sha md5 cfg t0 ops :
  is_Some (stats (snd (run sha md5 ops (RateLimiter_init cfg t0))) !! "total_requests").
Proof. apply (run_counts_requests sha md5 cfg t0 ops). Qed.



(** ** RAGCache: expiry of cached entries *)

Lemma dict_get_pop {V} (d : list (pystr * V)) k : dict_get (dict_pop d k) k = None.
Proof.
  induction d as [|[k' v] d IH]; simpl; [reflexivity|].
  destruct (bool_decide (k' = k)) eqn:E; simpl; [exact IH|].
  rewrite E. exact IH.
Qed.

(** C5, counterexample: an entry stored by [set] at time 0 is returned by
    [get] whenever it is asked for, here at time 601, past the 600 seconds
    that [get_cached_query] allows. *)
Lemma C5_counterexample :
  ~ get_respects_ttl 600
  /\ RAGCache_get (py "k") (RAGCache_set (py "k") (py "v") 0 (RAGCache_init 50 200))
     = Some (mkEntry (CachedValue (py "v")) 0).
Proof.
  split; [|reflexivity].
  intros H.
  specialize (H (RAGCache_set (py "k") (py "v") 0 (RAGCache_init 50 200)) (py "k") 601
                (mkEntry (CachedValue (py "v")) 0) eq_refl).
  vm_compute in H. apply H. reflexivity.
Qed.

(** C5, amended: [get_cached_query] returns an entry only if its age is at
    most [max_age_seconds] (600 by default), and then leaves the cache as it
    is; an entry older than that is removed from the cache and [None] is
    returned, so that [get] no longer finds it.  ([get] itself checks no
    age.) *)
Theorem C5_get_cached_query_expiry
    (sha256_lower : pystr -> pystr) (query : pystr) (max_age_seconds : Z) (now : Q)
    (c : RAGCache) :
  (forall e c',
      get_cached_query sha256_lower query max_age_seconds now c = (Some e, c') ->
      now - timestamp e <= inject_Z max_age_seconds
      /\ c' = c
      /\ RAGCache_get (sha256_lower query) c = Some e)
  /\ (forall e,
        query <> [] ->
        RAGCache_get (sha256_lower query) c = Some e ->
        inject_Z max_age_seconds < now - timestamp e ->
        fst (get_cached_query sha256_lower query max_age_seconds now c) = None
        /\ RAGCache_get (sha256_lower query)
             (snd (get_cached_query sha256_lower query max_age_seconds now c)) = None).
Proof.
  unfold get_cached_query, RAGCache_get. split.
  - intros e c' H. destruct query as [|q0 qs]; [discriminate|].
    destruct (dict_get (query_cache c) (sha256_lower (q0 :: qs))) as [data|] eqn:Hget;
      [|discriminate].
    destruct (Qle_bool (now - timestamp data) (inject_Z max_age_seconds)) eqn:Hage;
      [|discriminate].
    inversion H. subst. apply Qle_bool_iff in Hage. auto.
  - intros e Hq Hget Hold. destruct query as [|q0 qs]; [contradiction|].
    rewrite Hget.
    assert (Qle_bool (now - timestamp e) (inject_Z max_age_seconds) = false) as ->
      by (apply Qle_bool_false; exact Hold).
    simpl. split; [reflexivity|apply dict_get_pop].
Qed.

Lemma C5_get_cached_query_expiry_witness :
  let c := cache_query_result (fun q => q) (py "price of dosa") (py "Masala Dosa 90") 1 0
             (RAGCache_init 50 200) in
  (forall e c',
      get_cached_query (fun q => q) (py "price of dosa") 600 600 c = (Some e, c') ->
      600 - timestamp e <= 600)
  /\ fst (get_cached_query (fun q => q) (py "price of dosa") 600 601 c) = None.
Proof.
  intros c. split.
  - intros e c' H.
    apply (proj1 (C5_get_cached_query_expiry (fun q => q) (py "price of dosa") 600 600 c)
             e c' H).
  - apply (proj2 (C5_get_cached_query_expiry (fun q => q) (py "price of dosa") 600 601 c)
             (mkEntry (QueryResult (py "Masala Dosa 90") 1) 0)).
    + discriminate.
    + reflexivity.
    + vm_compute. reflexivity.
Defined.

(** ** The price check of invoke_for_Res *)

(** C3: the menu says ["Masala Dosa - ₹90"], the model extracted item
    ["masala dosa"] at price 120, the retriever returns the menu line, and
    the verifier recovers 90 from it.  [invoke_for_Res] nevertheless returns
    the extraction as the model gave it, price 120: it reads the item from
    the key ["foodname"], which the response schema does not have, finds no
    item and skips the check.  Were the item under ["foodname"], the same
    call would return the price 90. *)
Theorem C3_price_not_overridden (py_str : json -> pystr) :
  _extract_price_from_menu latin_lower latin_casefold_eq dosa_menu (py "masala dosa") None
  = Some 90
  /\ fst (invoke_for_Res latin_lower latin_casefold_eq py_str (py "one masala dosa")
            (dosa_env dosa_extraction) dosa_bot)
     = Returned dosa_extraction
  /\ json_get dosa_extraction (py "price") JNull = Returned (JNum 120)
  /\ fst (invoke_for_Res latin_lower latin_casefold_eq py_str (py "one masala dosa")
            (dosa_env dosa_extraction_foodname) dosa_bot)
     = Returned (json_set dosa_extraction_foodname (py "price") (JNum 90)).
Proof. repeat split; vm_compute; reflexivity. Qed.

(** ** RAGBot.invoke never raises *)

Lemma complete_response_api_message m :
  In m api_messages -> In (complete_response m) fallback_messages.
Proof.
  intros H. unfold api_messages in H. simpl in H.
  repeat (destruct H as [<-|H];
          [vm_compute; repeat (first [left; reflexivity | right]) |]).
  destruct H.
Qed.

Lemma complete_response_short (answer : pystr) :
  (length (py_strip answer) < 3)%nat -> complete_response answer = MSG_NO_RESPONSE.
Proof.
  intros H. apply Nat.ltb_lt in H. unfold complete_response.
  destruct answer as [|c r]; [vm_compute; reflexivity|].
  rewrite H. vm_compute. reflexivity.
Qed.

Lemma truthy_text (x : json) (s : pystr) : x = JStr s -> py_truthy x = true -> s <> [].
Proof. intros -> H ->. discriminate H. Qed.

Lemma part_texts_spoken (ps : list json) :
  forall texts, part_texts ps = Returned texts -> spoken ps texts.
Proof.
  induction ps as [|p ps IH]; intros texts H.
  - inversion H. constructor.
  - destruct p as [| b | x | s | items | d];
      try (apply spoken_silent; [exact I|apply IH; exact H]).
    cbn [part_texts] in H.
    destruct (py_truthy (default JNull (dict_get d (py "text")))) eqn:E;
      [|apply spoken_silent; [exact E|apply IH; exact H]].
    destruct (dict_get d (py "text")) as [[| b | x | s | items | d']|] eqn:G;
      cbn [default from_option id json_strip obind] in H;
      cbn [default from_option id py_truthy] in E;
      try discriminate H; try discriminate E.
    destruct (part_texts ps) as [ts|e]; cbn [obind] in H; [|discriminate H].
    inversion H; subst. apply spoken_text; [exact G| |apply IH; reflexivity].
    eapply truthy_text; [reflexivity|exact E].
Qed.

Lemma part_texts_unreadable (ps : list json) (e : exn) :
  part_texts ps = Raised e -> Exists unreadable ps.
Proof.
  revert e. induction ps as [|p ps IH]; intros e H; [discriminate H|].
  destruct p as [| b | x | s | items | d];
    try (eapply Exists_cons_tl, IH; exact H).
  cbn [part_texts] in H.
  destruct (py_truthy (default JNull (dict_get d (py "text")))) eqn:E;
    [|eapply Exists_cons_tl, IH; exact H].
  destruct (dict_get d (py "text")) as [[| b | x | s | items | d']|] eqn:G;
    cbn [default from_option id json_strip obind] in H;
    try (cbn [default from_option id py_truthy] in E; discriminate E);
    try (apply Exists_cons_hd; unfold unreadable, dict_field; rewrite G;
         split; [exact E|intros s0; discriminate]).
  destruct (part_texts ps) as [ts|e']; cbn [obind] in H; [discriminate H|].
  eapply Exists_cons_tl, IH. reflexivity.
Qed.

Lemma spoken_part_texts (ps : list json) (texts : list pystr) :
  spoken ps texts -> part_texts ps = Returned texts.
Proof.
  induction 1 as [|p rest texts Hp _ IH|d s rest texts Hd Hs _ IH].
  - reflexivity.
  - destruct p; try exact IH. cbn [part_texts]. unfold silent, dict_field in Hp.
    rewrite Hp. exact IH.
  - cbn [part_texts]. rewrite Hd. cbn [default from_option id py_truthy].
    destruct s; [contradiction|]. cbn [json_strip obind]. rewrite IH. reflexivity.
Qed.

Lemma unreadable_part_texts (ps : list json) :
  Exists unreadable ps -> exists e, part_texts ps = Raised e.
Proof.
  induction ps as [|p ps IH]; intros H; [inversion H|].
  apply Exists_cons in H.
  assert (Exists unreadable ps -> forall t, exists e,
            (let? ts := part_texts ps in Returned (t :: ts)) = Raised e) as Hrest.
  { intros Hex t. destruct (IH Hex) as [e ->]. eexists; reflexivity. }
  destruct p as [| b | x | s | items | d];
    try (destruct H as [[]|H]; exact (IH H)).
  cbn [part_texts].
  destruct (py_truthy (default JNull (dict_get d (py "text")))) eqn:E.
  - destruct (dict_get d (py "text")) as [[| b | x | s | items | d']|] eqn:G;
      cbn [default from_option id json_strip obind]; try (eexists; reflexivity);
      try (cbn [default from_option id py_truthy] in E; discriminate E).
    destruct H as [[_ H]|H]; [|exact (Hrest H _)].
    exfalso. apply (H s). unfold dict_field. rewrite G. reflexivity.
  - destruct H as [[H _]|H]; [|exact (IH H)].
    unfold dict_field in H. rewrite E in H. discriminate H.
Qed.

Lemma spoken_functional (ps : list json) (texts texts' : list pystr) :
  spoken ps texts -> spoken ps texts' -> texts = texts'.
Proof.
  intros H H'. apply spoken_part_texts in H, H'. congruence.
Qed.

Section InvokeTotal.

Variable str_upper : pystr -> pystr.

Lemma read_candidates_not_object body :
  is_dict body = false -> exists e, read_candidates str_upper body = Raised e.
Proof.
  intros H. destruct body; try discriminate; eexists; reflexivity.
Qed.

Lemma get_or_empty (x : json) (key : pystr) :
  json_get (py_or x (JDict [])) key JNull
  = match object_or_empty x with
    | Some d => Returned (dict_field d key)
    | None => Raised (AttributeError "get")
    end.
Proof.
  unfold py_or, object_or_empty.
  destruct x as [| b | q | s | items | d]; cbn [py_truthy]; try reflexivity.
  - destruct b; reflexivity.
  - destruct (negb (Qeq_bool q 0)); reflexivity.
  - destruct s; reflexivity.
  - destruct items; reflexivity.
  - destruct d; reflexivity.
Qed.

Lemma upper_or_empty (x : json) :
  json_upper str_upper (py_or x (JStr []))
  = match text_or_empty x with
    | Some s => Returned (str_upper s)
    | None => Raised (AttributeError "upper")
    end.
Proof.
  unfold py_or, text_or_empty.
  destruct x as [| b | q | s | items | d]; cbn [py_truthy]; try reflexivity.
  - destruct b; reflexivity.
  - destruct (negb (Qeq_bool q 0)); reflexivity.
  - destruct s; reflexivity.
  - destruct items; reflexivity.
  - destruct d; reflexivity.
Qed.

Ltac api_message := vm_compute; tauto.

(** Every exchange is a failure answered with one of the texts of
    [_call_api], or an answer of the service that [_call_api] returns. *)
Lemma _call_api_cases http :
  (generation_failure str_upper http /\ In (_call_api str_upper http) api_messages)
  \/ generated str_upper http (_call_api str_upper http).
Proof.
  destruct http as [| code | | | | [body|]].
  1, 3, 4, 5, 7: left; split; [constructor|api_message].
  { left. split; [constructor|]. unfold _call_api.
    destruct (code =? 400)%Z; [api_message|].
    destruct (code =? 429)%Z; [api_message|].
    destruct (500 <=? code)%Z; api_message. }
  destruct body as [| b | q | s | items | fields];
    try (left; split; [apply failure_body_not_object; reflexivity|api_message]).
  unfold _call_api, read_candidates. cbn [json_get obind].
  destruct (dict_get fields (py "candidates")) as [[| b | q | s | [|first others] | d]|]
    eqn:Hc; cbn [default from_option id];
    try (left; split; [apply failure_no_candidates; rewrite Hc; exact I|api_message]).
  rewrite !get_or_empty.
  destruct (object_or_empty first) as [candidate|] eqn:Hfirst; cbn [obind];
    [|left; split; [eapply failure_candidate_not_object; eassumption|api_message]].
  rewrite upper_or_empty.
  destruct (text_or_empty (dict_field candidate (py "finishReason"))) as [reason|] eqn:Hreason;
    cbn [obind];
    [|left; split; [eapply failure_finish_reason_not_text; eassumption|api_message]].
  case_bool_decide as Hsafety;
    [left; split; [eapply failure_safety_block; eassumption|api_message]|].
  rewrite get_or_empty.
  destruct (object_or_empty (dict_field candidate (py "content"))) as [content|] eqn:Hcontent;
    cbn [obind];
    [|left; split; [eapply failure_content_not_object; eassumption|api_message]].
  unfold dict_field.
  destruct (dict_get content (py "parts")) as [[| b | q | s | [|p ps] | d]|] eqn:Hparts;
    cbn [default from_option id];
    try (left; split; [eapply failure_no_parts; try eassumption; rewrite Hparts; exact I
                      |api_message]).
  destruct (part_texts (p :: ps)) as [texts|e] eqn:Htexts.
  - destruct (py_strip (py_join (py " ") texts)) as [|c r] eqn:Hstrip.
    + left. split; [|api_message].
      eapply failure_blank_text; try eassumption. apply part_texts_spoken. exact Htexts.
    + right. rewrite <- Hstrip. eapply generated_text; try eassumption.
      * apply part_texts_spoken. exact Htexts.
      * rewrite Hstrip. discriminate.
  - left. split; [|api_message].
    eapply failure_part_unreadable; try eassumption.
    eapply part_texts_unreadable. exact Htexts.
Qed.

Lemma failure_excludes_generated http answer :
  generation_failure str_upper http -> generated str_upper http answer -> False.
Proof.
  intros Hf Hg.
  destruct Hg as [fields first others candidate reason content parts texts
                    Hc Hfirst Hreason Hsafety Hcontent Hparts Hspoken Hblank].
  inversion Hf; subst; try discriminate; try congruence.
  - match goal with H : match dict_get _ _ with _ => _ end |- _ => rewrite Hc in H end.
    contradiction.
  - assert (content0 = content) as -> by congruence.
    match goal with H : match dict_get _ _ with _ => _ end |- _ => rewrite Hparts in H end.
    destruct parts; [|contradiction].
    inversion Hspoken; subst. apply Hblank. reflexivity.
  - assert (content0 = content) as -> by congruence.
    assert (parts0 = parts) as -> by congruence.
    match goal with H : Exists unreadable _ |- _ =>
      apply unreadable_part_texts in H; destruct H as [e He] end.
    apply spoken_part_texts in Hspoken. congruence.
  - assert (content0 = content) as -> by congruence.
    assert (parts0 = parts) as -> by congruence.
    match goal with H : spoken parts ?t |- _ =>
      assert (t = texts) as -> by (eapply spoken_functional; eassumption) end.
    contradiction.
Qed.

Lemma _call_api_failure http :
  generation_failure str_upper http -> In (_call_api str_upper http) api_messages.
Proof.
  intros Hf. destruct (_call_api_cases http) as [[_ H]|H]; [exact H|].
  destruct (failure_excludes_generated _ _ Hf H).
Qed.

Lemma _call_api_generated http answer :
  generated str_upper http answer -> _call_api str_upper http = answer.
Proof.
  intros Hg. destruct (_call_api_cases http) as [[Hf _]|H].
  - destruct (failure_excludes_generated _ _ Hf Hg).
  - destruct Hg as [fields first others candidate reason content parts texts
                      Hc Hfirst Hreason Hsafety Hcontent Hparts Hspoken Hblank].
    remember (_call_api str_upper (Response (Some (JDict fields)))) as t eqn:Et. clear Et.
    inversion H; subst.
    assert (first0 = first) as -> by congruence.
    assert (candidate0 = candidate) as -> by congruence.
    assert (content0 = content) as -> by congruence.
    assert (parts0 = parts) as -> by congruence.
    match goal with H : spoken parts ?t |- _ =>
      assert (t = texts) as -> by (eapply spoken_functional; eassumption) end.
    reflexivity.
Qed.

End InvokeTotal.

Lemma own_messages_are_fallbacks :
  In MSG_NO_QUESTION fallback_messages /\ In MSG_NOT_READY fallback_messages
  /\ In MSG_INVOKE_ERROR fallback_messages /\ In MSG_NO_RESPONSE fallback_messages.
Proof. repeat split; vm_compute; tauto. Qed.

Lemma hash_for_logging_returns (s : pystr) :
  py_encodes s = true -> hash_for_logging s = Returned tt.
Proof. intros H. unfold hash_for_logging. rewrite H. destruct s; reflexivity. Qed.

(** C8: for every question, language and behaviour of the outside world
    (clock, import, Firestore look-ups, LangChain pipeline, HTTP exchange),
    and for every bot whose client id has a UTF-8 encoding (the handler
    hashes it for the log), [invoke] returns a text, it never raises.  The
    text is one of the sixteen fixed [fallback_messages] whenever the
    question is empty, the bot is not ready, or an internal failure occurs:
    the import or the pipeline raises, the generation service fails (time-out,
    connection failure, error status, any other request error, body that is
    not JSON or not an object, no candidates, a first candidate that is not
    an object, a finish reason that is not a text, safety block, content
    that is not an object, no parts, a part whose text is not a str, blank
    text), or the answer has fewer than three characters.  These failures
    are all there are: a call with a question on a ready bot that meets none
    of them returns the answer of the service, as [invoke] completes it (a
    Firestore look-up that raises is absorbed by its own handler: the name
    or the goals take their default and the call goes on). *)
Theorem C8_invoke_returns_text
    (str_upper : pystr -> pystr) (query launguage : pystr) (env : answer_env)
    (bot : RAGBot) :
  py_encodes (client_id bot) = true ->
  exists text,
    fst (invoke str_upper query launguage env bot) = Returned text
    /\ (query = [] \/ chain bot = false \/ internal_failure str_upper env ->
        In text fallback_messages)
    /\ (query <> [] -> chain bot = true ->
        internal_failure str_upper env
        \/ exists answer, generated str_upper (an_http env) answer
                          /\ text = complete_response answer).
Proof.
  intros Hid. destruct own_messages_are_fallbacks as (Hq & Hr & He & Hn).
  unfold invoke, invoke_body, chain_invoke.
  destruct query as [|q0 qs].
  { exists MSG_NO_QUESTION. split; [reflexivity|]. split; [intros _; exact Hq|].
    intros H; contradiction. }
  destruct (chain bot) eqn:Hchain; cbn [negb].
  2:{ exists MSG_NOT_READY. split; [reflexivity|]. split; [intros _; exact Hr|].
      intros _ H; discriminate H. }
  destruct (an_import env) as [[]|e] eqn:Himport.
  2:{ exists MSG_INVOKE_ERROR. cbn [client_id set_cache].
      rewrite (hash_for_logging_returns _ Hid). split; [reflexivity|].
      split; [intros _; exact He|]. intros _ _. left. eapply failure_import. exact Himport. }
  destruct (an_pipeline env) as [e|] eqn:Hpipeline.
  { exists MSG_INVOKE_ERROR. cbn [client_id set_cache].
    rewrite (hash_for_logging_returns _ Hid). split; [reflexivity|].
    split; [intros _; exact He|]. intros _ _. left. eapply failure_pipeline. exact Hpipeline. }
  eexists. split; [reflexivity|]. cbn [fst].
  destruct (_call_api_cases str_upper (an_http env)) as [[Hf Hm]|Hg].
  - split; [intros _; apply complete_response_api_message; exact Hm|].
    intros _ _. left. apply failure_generation. exact Hf.
  - split; [|intros _ _; right; eexists; split; [exact Hg|reflexivity]].
    intros [H|[H|H]]; [discriminate H|discriminate H|].
    destruct H as [e H|e H|H|answer H Hshort].
    + rewrite Himport in H. discriminate H.
    + rewrite Hpipeline in H. discriminate H.
    + destruct (failure_excludes_generated _ _ _ H Hg).
    + rewrite (_call_api_generated _ _ _ H), (complete_response_short _ Hshort). exact Hn.
Qed.

Lemma C8_invoke_returns_text_witness :
  exists text,
    fst (invoke latin_upper (py "price of dosa?") (py "English")
           (mkAnswerEnv 1 2 (Returned tt) (Returned (py "Asha")) (Returned (py "None"))
              None Timeout)
           dosa_bot) = Returned text
    /\ In text fallback_messages.
Proof.
  destruct (C8_invoke_returns_text latin_upper (py "price of dosa?") (py "English")
              (mkAnswerEnv 1 2 (Returned tt) (Returned (py "Asha"))
                 (Returned (py "None")) None Timeout)
              dosa_bot eq_refl) as (text & Htext & Hfallback & _).
  exists text. split; [exact Htext|].
  apply Hfallback. right. right. apply failure_generation. constructor.
Defined.

(** ** RAGCacheManager: constructions under interleaving *)

(** C2, counterexample: on the manager of [app.py] (30 minutes, 100
    entries) two calls for ["client-A"] that both pass the lookup before
    either stores construct two [RAGBot]s; the second store overwrites the
    first. *)
Lemma C2_counterexample :
  ~ builds_at_most_once
  /\ constructed (exec [] overlapping
                    (start (RAGCacheManager_init 30 100) [request_a 0; request_a 1]))
     = [client_a; client_a]
  /\ map snd (calls (exec [] overlapping
                       (start (RAGCacheManager_init 30 100) [request_a 0; request_a 1])))
     = [Finished (Some (0%nat, client_a_data)); Finished (Some (1%nat, client_a_data))].
Proof.
  split; [|split; vm_compute; reflexivity].
  intros H.
  specialize (H [] (RAGCacheManager_init 30 100) (request_a 0) (request_a 1) overlapping
                eq_refl eq_refl).
  vm_compute in H. lia.
Qed.

Lemma pending_insert cs i e p p' :
  cs !! i = Some (e, p) ->
  (pending (<[i := (e, p')]> cs) + may_build p = pending cs + may_build p')%nat.
Proof.
  unfold pending. revert i.
  induction cs as [|c cs IH]; intros i Hi; [discriminate|].
  destruct i as [|i]; simpl in *.
  - inversion Hi. subst. simpl. lia.
  - specialize (IH i Hi). lia.
Qed.

Section Interleavings.

Variable we_are : pystr.

Lemma may_build_lookup_step e m : (may_build (snd (lookup_step e m)) <= 1)%nat.
Proof.
  unfold lookup_step. destruct (dict_get _ _) as [item|]; [|simpl; lia].
  destruct (Qlt_bool _ _); simpl; lia.
Qed.

Lemma may_build_fetch_step e : (may_build (fetch_step we_are e) <= 1)%nat.
Proof.
  unfold fetch_step.
  repeat match goal with
         | |- context [match ?x with _ => _ end] => destruct x
         end; simpl; lia.
Qed.

(** A step never raises the number of constructions made plus the number
    of calls that may still construct. *)
Lemma step_budget i σ σ' :
  step we_are i σ = Some σ' ->
  (length (constructed σ') + pending (calls σ')
   <= length (constructed σ) + pending (calls σ))%nat.
Proof.
  unfold step. destruct (calls σ !! i) as [[e p]|] eqn:Hi; [|discriminate].
  destruct p as [| |data doc|bot data|result]; intros H.
  - inversion H; subst; simpl.
    pose proof (pending_insert _ _ _ _ (snd (lookup_step e (manager σ))) Hi).
    pose proof (may_build_lookup_step e (manager σ)). simpl in *. lia.
  - inversion H; subst; simpl.
    pose proof (pending_insert _ _ _ _ (fetch_step we_are e) Hi).
    pose proof (may_build_fetch_step e). simpl in *. lia.
  - destruct (req_build_ok e); inversion H; subst; simpl.
    + pose proof (pending_insert _ _ _ _ (AtStore (length (constructed σ)) data) Hi).
      rewrite length_app. simpl in *. lia.
    + pose proof (pending_insert _ _ _ _ (Finished None) Hi). simpl in *. lia.
  - inversion H; subst; simpl.
    pose proof (pending_insert _ _ _ _ (Finished (Some (bot, data))) Hi).
    simpl in *. lia.
  - discriminate.
Qed.

Lemma exec_budget schedule : forall σ,
  (length (constructed (exec we_are schedule σ))
   + pending (calls (exec we_are schedule σ))
   <= length (constructed σ) + pending (calls σ))%nat.
Proof.
  induction schedule as [|i rest IH]; intros σ; simpl; [lia|].
  destruct (step we_are i σ) as [σ'|] eqn:Hstep; simpl.
  - specialize (IH σ'). pose proof (step_budget _ _ _ Hstep). lia.
  - apply IH.
Qed.

Lemma pending_start m requests :
  pending (calls (start m requests)) = length requests.
Proof.
  unfold start, pending. simpl. induction requests as [|e es IH]; simpl; [reflexivity|].
  rewrite IH. reflexivity.
Qed.

Lemma constructions_bounded m requests schedule :
  (length (constructed (exec we_are schedule (start m requests))) <= length requests)%nat.
Proof.
  pose proof (exec_budget schedule (start m requests)) as H.
  rewrite pending_start in H. simpl in H. lia.
Qed.

End Interleavings.

(** A lookup that follows a store for the same client id on a cache that
    was empty, before the stored entry expires, is a hit. *)
Lemma lookup_after_store (e1 e2 : request_env) (bot : nat)
    (data : gmap string (option pystr)) (m : RAGCacheManager) :
  _cache m = [] -> (1 <= _max_cache_size m)%Z ->
  req_client_id e1 = req_client_id e2 ->
  req_time e2 < req_time e1 + inject_Z (_ttl_seconds m) ->
  snd (lookup_step e2 (store_step e1 bot data m)) = Finished (Some (bot, data)).
Proof.
  intros Hempty Hmax Hid Hfresh.
  unfold store_step. rewrite Hempty. cbn [dict_set length].
  assert ((_max_cache_size m <? Z.of_nat 1)%Z = false) as -> by (apply Z.ltb_ge; lia).
  unfold lookup_step. cbn [_cache dict_get]. rewrite <- Hid.
  rewrite bool_decide_eq_true_2 by reflexivity. cbn [expires_at].
  assert (Qlt_bool (req_time e2) (req_time e1 + inject_Z (_ttl_seconds m)) = true) as ->
    by (apply Qlt_bool_iff; exact Hfresh).
  reflexivity.
Qed.

(** On a fresh manager with room for an entry, a call that starts after
    another call for the same client has finished, and before that call's
    entry expires, finds the entry: together they construct at most once. *)
Lemma sequential_calls_build_once (we_are : pystr) (ttl_minutes max_cache_size : Z)
    (e1 e2 : request_env) :
  (1 <= max_cache_size)%Z ->
  req_client_id e1 = req_client_id e2 ->
  req_time e2 < req_time e1 + inject_Z (ttl_minutes * 60) ->
  (length (constructed
             (exec we_are one_after_the_other
                (start (RAGCacheManager_init ttl_minutes max_cache_size) [e1; e2])))
   <= 1)%nat.
Proof.
  intros Hmax Hid Hfresh.
  unfold one_after_the_other, start. cbn [map].
  (* the first call: lookup (a miss on the empty cache) and fetch *)
  cbn [exec]. unfold step at 1. cbn [calls lookup list_lookup]. cbn.
  destruct (fetch_step we_are e1) as [| |data doc|bot data|result] eqn:Hfetch.
  1, 2, 4: (exfalso; revert Hfetch; unfold fetch_step;
            repeat match goal with
                   | |- context [match ?x with _ => _ end] => destruct x
                   end; discriminate).
  - (* the first call is about to build *)
    destruct (req_build_ok e1) eqn:Hbuild1.
    + (* it builds and stores; the second call hits *)
      cbn.
      rewrite (lookup_after_store e1 e2 0 data
                 {| _cache := []; _ttl_seconds := ttl_minutes * 60;
                    _max_cache_size := max_cache_size; _hits := 0; _misses := 0 + 1 |}
                 eq_refl Hmax Hid Hfresh).
      cbn. lia.
    + (* it fails to build; only the second call can construct *)
      cbn.
      destruct (fetch_step we_are e2) as [| |data2 doc2|bot2 data2|result2];
        cbn; try lia.
      destruct (req_build_ok e2); cbn; lia.
  - (* the first call gave up; only the second call can construct *)
    cbn.
    destruct (fetch_step we_are e2) as [| |data2 doc2|bot2 data2|result2];
      cbn; try lia.
    destruct (req_build_ok e2); cbn; lia.
Qed.

(** C2, amended: whatever the interleaving, every call constructs at most
    one [RAGBot], so [n] calls construct at most [n] (two concurrent calls
    for the same absent client id: at most two, and two when both look up
    before either stores); and on a fresh manager with room for an entry,
    when the second call starts after the first has finished and before the
    first call's entry expires, the two calls construct at most one. *)
Theorem C2_constructions_bounded :
  (forall (we_are : pystr) (m : RAGCacheManager) (requests : list request_env)
          (schedule : list nat),
      (length (constructed (exec we_are schedule (start m requests)))
       <= length requests)%nat)
  /\ (forall (we_are : pystr) (ttl_minutes max_cache_size : Z) (e1 e2 : request_env),
        (1 <= max_cache_size)%Z ->
        req_client_id e1 = req_client_id e2 ->
        req_time e2 < req_time e1 + inject_Z (ttl_minutes * 60) ->
        (length (constructed
                   (exec we_are one_after_the_other
                      (start (RAGCacheManager_init ttl_minutes max_cache_size) [e1; e2])))
         <= 1)%nat).
Proof.
  split.
  - intros. apply constructions_bounded.
  - intros. apply sequential_calls_build_once; assumption.
Qed.

Lemma C2_constructions_bounded_witness :
  (length (constructed
             (exec [] one_after_the_other
                (start (RAGCacheManager_init 30 100) [request_a 0; request_a 1])))
   <= 1)%nat.
Proof.
  apply (proj2 C2_constructions_bounded [] 30%Z 100%Z (request_a 0) (request_a 1)).
  - lia.
  - reflexivity.
  - vm_compute. reflexivity.
Defined.

(** ** The limiter over a session of public calls *)

Lemma lookup_filter_key {V} (X : gset string) (m : gmap string V) (u : string) :
  filter (fun kv : string * V => fst kv ∉ X) m !! u
  = if decide (u ∈ X) then None else m !! u.
Proof.
  destruct (decide (u ∈ X)) as [Hin|Hout].
  - apply map_lookup_filter_None. right. intros x _ Hx. simpl in Hx. contradiction.
  - destruct (m !! u) as [x|] eqn:Hm.
    + apply map_lookup_filter_Some. split; [exact Hm|exact Hout].
    + apply map_lookup_filter_None. left. exact Hm.
Qed.

Lemma is_Some_insert_existing {V} (m : gmap string V) (k k' : string) (v : V) :
  is_Some (m !! k) -> (is_Some (<[k := v]> m !! k') <-> is_Some (m !! k')).
Proof.
  intros Hk. destruct (decide (k = k')) as [->|Hne].
  - rewrite lookup_insert_eq. split; [intros _; exact Hk|intros _; eexists; reflexivity].
  - rewrite lookup_insert_ne by exact Hne. reflexivity.
Qed.

Lemma None_insert_existing {V} (m : gmap string V) (k k' : string) (v : V) :
  is_Some (m !! k) -> (<[k := v]> m !! k' = None <-> m !! k' = None).
Proof.
  intros Hk. destruct (decide (k = k')) as [->|Hne].
  - rewrite lookup_insert_eq. destruct Hk as [x Hx]. rewrite Hx.
    split; discriminate.
  - rewrite lookup_insert_ne by exact Hne. reflexivity.
Qed.

Lemma None_iff_is_Some {V} (a b : option V) :
  (is_Some a <-> is_Some b) -> (a = None <-> b = None).
Proof.
  intros H. rewrite !eq_None_not_Some. tauto.
Qed.

Lemma same_shape_tracked u s s' : same_shape s s' -> tracked u s -> tracked u s'.
Proof.
  intros (_ & Hb & Hm & Hh & Hd & Hq & _) (H1 & H2 & H3 & H4 & H5).
  repeat split; [apply Hb|apply Hm|apply Hh|apply Hd|apply Hq]; assumption.
Qed.

Lemma same_shape_untracked u s s' : same_shape s s' -> untracked u s -> untracked u s'.
Proof.
  intros (_ & Hb & Hm & Hh & Hd & Hq & _) (H1 & H2 & H3 & H4 & H5).
  repeat split;
    [ apply (None_iff_is_Some _ _ (Hb u)) | apply (None_iff_is_Some _ _ (Hm u))
    | apply (None_iff_is_Some _ _ (Hh u)) | apply (None_iff_is_Some _ _ (Hd u))
    | apply (None_iff_is_Some _ _ (Hq u)) ]; assumption.
Qed.

Lemma same_shape_well_formed s s' : same_shape s s' -> well_formed s -> well_formed s'.
Proof.
  intros Hshape (Ha & (Ht & Hs & Hb) & Hr).
  pose proof Hshape as (Hc & _ & _ & _ & _ & _ & Hk & Hrate).
  repeat split.
  - intros u. destruct (Ha u) as [H|H];
      [left; eapply same_shape_tracked|right; eapply same_shape_untracked]; eassumption.
  - apply Hk, Ht.
  - apply Hk, Hs.
  - apply Hk, Hb.
  - intros u b' Hb'. destruct (Hrate u b' Hb') as (b & Hlook & Heq).
    rewrite Heq, Hc. apply (Hr u b Hlook).
Qed.

Lemma same_shape_tracking cfg u s s' :
  same_shape s s' -> tracking cfg u s -> tracking cfg u s'.
Proof.
  intros Hshape (Hwf & Hc & Ht). split; [|split].
  - eapply same_shape_well_formed; eassumption.
  - destruct Hshape as [-> _]. exact Hc.
  - eapply same_shape_tracked; eassumption.
Qed.

Lemma same_shape_refl s : same_shape s s.
Proof. repeat split; auto. intros u b' H. exists b'. auto. Qed.

Lemma shape_stats k v s : same_shape s (set_stats (insert k v) s).
Proof.
  repeat split; cbn; auto.
  - intros k' Hk'. destruct (decide (k = k')) as [->|Hne].
    + rewrite lookup_insert_eq. eexists; reflexivity.
    + rewrite lookup_insert_ne by exact Hne. exact Hk'.
  - intros u b' H. exists b'. auto.
Qed.

Lemma shape_last_messages f s : same_shape s (set_last_messages f s).
Proof. repeat split; cbn; auto. intros u b' H. exists b'. auto. Qed.

Lemma shape_blocked_users f s : same_shape s (set_blocked_users f s).
Proof. repeat split; cbn; auto. intros u b' H. exists b'. auto. Qed.

Lemma shape_last_cleanup t s : same_shape s (set_last_cleanup t s).
Proof. repeat split; cbn; auto. intros u b' H. exists b'. auto. Qed.

Lemma shape_burst u x s :
  is_Some (burst_tracker s !! u) -> same_shape s (set_burst_tracker (insert u x) s).
Proof.
  intros Hu. repeat split; cbn; auto;
    try (intros u'; apply is_Some_insert_existing; exact Hu).
  - intros H. apply (is_Some_insert_existing _ u _ x Hu). exact H.
  - intros H. apply (is_Some_insert_existing _ u _ x Hu). exact H.
  - intros u' b' H. exists b'. auto.
Qed.

Lemma shape_minute u x s :
  is_Some (minitue_counters s !! u) -> same_shape s (set_minitue_counters (insert u x) s).
Proof.
  intros Hu. repeat split; cbn; auto.
  - intros H. apply (is_Some_insert_existing _ u _ x Hu). exact H.
  - intros H. apply (is_Some_insert_existing _ u _ x Hu). exact H.
  - intros u' b' H. exists b'. auto.
Qed.

Lemma shape_hour u x s :
  is_Some (hour_counters s !! u) -> same_shape s (set_hour_counters (insert u x) s).
Proof.
  intros Hu. repeat split; cbn; auto.
  - intros H. apply (is_Some_insert_existing _ u _ x Hu). exact H.
  - intros H. apply (is_Some_insert_existing _ u _ x Hu). exact H.
  - intros u' b' H. exists b'. auto.
Qed.

Lemma shape_day u x s :
  is_Some (day_counters s !! u) -> same_shape s (set_day_counters (insert u x) s).
Proof.
  intros Hu. repeat split; cbn; auto.
  - intros H. apply (is_Some_insert_existing _ u _ x Hu). exact H.
  - intros H. apply (is_Some_insert_existing _ u _ x Hu). exact H.
  - intros u' b' H. exists b'. auto.
Qed.

Lemma shape_bucket u b b' s :
  token_bucket s !! u = Some b -> refill_rate b' = refill_rate b ->
  same_shape s (set_token_bucket (insert u b') s).
Proof.
  intros Hu Hrate.
  assert (is_Some (token_bucket s !! u)) as Hsome by (eexists; exact Hu).
  repeat split; cbn; auto.
  - intros H. apply (is_Some_insert_existing _ u _ b' Hsome). exact H.
  - intros H. apply (is_Some_insert_existing _ u _ b' Hsome). exact H.
  - intros u' b'' H. destruct (decide (u = u')) as [<-|Hne].
    + rewrite lookup_insert_eq in H. inversion H; subst. exists b. auto.
    + rewrite lookup_insert_ne in H by exact Hne. exists b''. auto.
Qed.

Lemma logging_is_missing : logger_getattr "logging" = Raised (AttributeError "logging").
Proof. reflexivity. Qed.

(** The state a sweep leaves: the five tracker maps lose the same keys. *)
Lemma sweep_well_formed (X : gset string)
    (g : SlidingWindowCounter -> SlidingWindowCounter) (s s' : RateLimiter) :
  token_bucket s' = filter (fun kv => fst kv ∉ X) (token_bucket s) ->
  minitue_counters s' = filter (fun kv => fst kv ∉ X) (minitue_counters s) ->
  hour_counters s' = filter (fun kv => fst kv ∉ X) (hour_counters s) ->
  day_counters s' = filter (fun kv => fst kv ∉ X) (g <$> day_counters s) ->
  burst_tracker s' = filter (fun kv => fst kv ∉ X) (burst_tracker s) ->
  stats s' = stats s -> config s' = config s ->
  well_formed s -> well_formed s'.
Proof.
  intros Hb Hm Hh Hd Hq Hs Hc (Ha & Hk & Hr).
  split; [|split].
  - intros u. unfold tracked, untracked. rewrite Hb, Hm, Hh, Hd, Hq.
    rewrite !lookup_filter_key, lookup_fmap.
    destruct (decide (u ∈ X)).
    + right. repeat split; reflexivity.
    + rewrite fmap_is_Some, fmap_None. exact (Ha u).
  - unfold counters_present. rewrite Hs. exact Hk.
  - intros u b. rewrite Hb, Hc, lookup_filter_key.
    destruct (decide (u ∈ X)); [discriminate|]. apply Hr.
Qed.

Lemma cleanup_well_formed cfg now R :
  hoare (fun s => well_formed s /\ config s = cfg) (_cleanup_old_data now)
    (fun _ s => well_formed s /\ config s = cfg) R
    (fun e s => known_failure cfg e /\ well_formed s /\ config s = cfg).
Proof.
  intros s [Hwf Hc]. unfold _cleanup_old_data.
  cbv beta iota zeta delta [bind modify self pass ret lift].
  rewrite logging_is_missing.
  match goal with
  | |- context [bool_decide (?X = ∅)] =>
      destruct (bool_decide (X = ∅));
      [|split; [right; left; reflexivity|]];
      (split; [|exact Hc]);
      (eapply (sweep_well_formed X (fun c => snd (get_count c now)) s);
       [reflexivity..|exact Hwf])
  end.
Qed.

Lemma wait_time_raises (b : TokenBucket) (rpm : Z) (e : exn) :
  get_wait_time b = Raised e -> refill_rate b = inject_Z rpm / 60 ->
  e = ZeroDivisionError /\ rpm = 0%Z.
Proof.
  unfold get_wait_time. intros H Hrate.
  destruct (Qle_bool 1 (tokens b)); [discriminate|].
  destruct (Qeq_bool (refill_rate b) 0) eqn:E; [|discriminate].
  inversion H. split; [reflexivity|].
  apply Qeq_bool_iff in E. rewrite Hrate in E.
  assert (inject_Z rpm == 0) as Hz.
  { set (x := inject_Z rpm) in *. assert (x == x / 60 * 60) as -> by field.
    rewrite E. ring. }
  unfold Qeq in Hz. simpl in Hz. lia.
Qed.

Section WellFormed.

Variable sha256_hexdigest : pystr -> string.
Variable md5_lower_strip : pystr -> string.
Variables phone_number client_id message : pystr.
Variable clk : Clock.
Variable cfg : RateLimitConfig.

Local Abbreviation user_id := (_get_user_id sha256_hexdigest phone_number client_id).
Local Abbreviation sound := (fun s : RateLimiter => well_formed s /\ config s = cfg).
Local Abbreviation failing :=
  (fun (e : exn) (s : RateLimiter) => known_failure cfg e /\ well_formed s /\ config s = cfg).

Lemma trackers_created (rest : M unit) Post R E (s : RateLimiter) :
  sound s ->
  hoare (tracking cfg user_id) rest Post R E ->
  hoare (eq s)
    (match token_bucket s !! user_id with
     | Some _ => pass
     | None =>
         modify (set_token_bucket
                   (insert user_id
                      (TokenBucket_init (brust_size (config s))
                         (inject_Z (request_per_minitue (config s)) / 60)
                         (t_bucket_init clk))))
     end ;;;
     let! s := self in
     match minitue_counters s !! user_id with
     | Some _ => pass
     | None =>
         modify (set_minitue_counters (insert user_id (SlidingWindowCounter_init 60))) ;;;
         modify (set_hour_counters (insert user_id (SlidingWindowCounter_init 3600))) ;;;
         modify (set_day_counters (insert user_id (SlidingWindowCounter_init 86400))) ;;;
         modify (set_burst_tracker (insert user_id []))
     end ;;; rest) Post R E.
Proof.
  intros [(Ha & Hk & Hr) Hc] Hrest s' <-.
  cbv beta iota zeta delta [bind modify self pass ret].
  destruct (Ha user_id) as [Ht|Hu].
  - pose proof Ht as ([b Hb] & [m Hm] & _). rewrite Hb. cbv beta iota. rewrite Hm.
    apply Hrest. exact (conj (conj Ha (conj Hk Hr)) (conj Hc Ht)).
  - pose proof Hu as (Hb & Hm & Hh & Hd & Hq). rewrite Hb. cbv beta iota.
    cbn [minitue_counters set_token_bucket]. rewrite Hm. cbv beta iota.
    apply Hrest.
    split; [split; [|split]|split].
    + intros u. destruct (decide (u = user_id)) as [->|Hne].
      * left. unfold tracked. cbn. rewrite !lookup_insert_eq.
        repeat (split; [eexists; reflexivity|]). eexists; reflexivity.
      * destruct (Ha u) as [H|H]; [left|right];
          unfold tracked, untracked in *; cbn;
          rewrite !lookup_insert_ne by congruence; exact H.
    + exact Hk.
    + intros u b. cbn. destruct (decide (u = user_id)) as [->|Hne].
      * rewrite lookup_insert_eq. intros H. inversion H. reflexivity.
      * rewrite lookup_insert_ne by congruence. apply Hr.
    + exact Hc.
    + unfold tracked. cbn. rewrite !lookup_insert_eq.
      repeat (split; [eexists; reflexivity|]). eexists; reflexivity.
Qed.

Ltac tracked_key :=
  match goal with
  | H : tracking _ _ ?s |- is_Some (_ ?s !! _) =>
      destruct H as (_ & _ & (? & ? & ? & ? & ?)); assumption
  end.

Ltac tracking_side :=
  intros; subst; cbv beta;
  lazymatch goal with
  | |- tracking _ _ (set_stats _ _) =>
      eapply same_shape_tracking; [apply shape_stats|eassumption]
  | |- tracking _ _ (set_last_messages _ _) =>
      eapply same_shape_tracking; [apply shape_last_messages|eassumption]
  | |- tracking _ _ (set_blocked_users _ _) =>
      eapply same_shape_tracking; [apply shape_blocked_users|eassumption]
  | |- tracking _ _ (set_burst_tracker _ _) =>
      eapply same_shape_tracking; [apply shape_burst; tracked_key|eassumption]
  | |- tracking _ _ (set_minitue_counters _ _) =>
      eapply same_shape_tracking; [apply shape_minute; tracked_key|eassumption]
  | |- tracking _ _ (set_hour_counters _ _) =>
      eapply same_shape_tracking; [apply shape_hour; tracked_key|eassumption]
  | |- tracking _ _ (set_day_counters _ _) =>
      eapply same_shape_tracking; [apply shape_day; tracked_key|eassumption]
  | |- tracking _ _ (set_token_bucket _ _) =>
      eapply same_shape_tracking;
        [eapply shape_bucket; [eassumption|apply consume_refill_rate]|eassumption]
  | |- tracking _ _ _ => assumption
  | |- well_formed _ /\ config _ = _ =>
      first [ assumption
            | match goal with
              | H : tracking _ _ _ |- _ => destruct H as (? & ? & _); split; assumption
              end ]
  | |- known_failure _ (KeyError "burst_voilations") /\ _ =>
      match goal with
      | H : tracking _ _ _ |- _ =>
          destruct H as (? & ? & _); split; [left; reflexivity|split; assumption]
      end
  | |- known_failure _ (KeyError _) /\ _ =>
      exfalso;
      match goal with
      | H : tracking _ _ ?s, Hn : _ ?s !! _ = None |- _ =>
          first [ destruct H as ((_ & ([? ?] & [? ?] & [? ?]) & _) & _ & _);
                  congruence
                | destruct H as (_ & _ & ([? ?] & [? ?] & [? ?] & [? ?] & [? ?]));
                  congruence ]
      end
  | |- known_failure _ ?e /\ _ =>
      match goal with
      | H : tracking _ _ ?s, H0 : tracking _ _ ?s0, Hb : token_bucket ?s0 !! _ = Some ?b,
        Hw : get_wait_time _ = Raised e |- _ =>
          pose proof H as (? & ? & _);
          split; [right; right; eapply wait_time_raises; [exact Hw|];
                  rewrite consume_refill_rate;
                  destruct H0 as ((_ & _ & Hr) & Hc0 & _);
                  rewrite <- Hc0; eapply Hr; exact Hb
                 |split; assumption]
      end
  end.

Lemma check_well_formed :
  hoare sound
    (check_rate_limit sha256_hexdigest md5_lower_strip phone_number client_id message clk)
    (fun _ _ => False) (fun _ => sound) failing.
Proof.
  unfold check_rate_limit. cbv zeta.
  apply (hoare_bind _ _ _ _ _ (fun _ => sound)).
  { apply hoare_stats_incr.
    - intros s v [Hwf Hc] _. split; [|exact Hc].
      eapply same_shape_well_formed; [apply shape_stats|exact Hwf].
    - intros s [(_ & ([x Hx] & _) & _) _] Hn. congruence. }
  intros _; cbv beta. apply hoare_self_bind; intros s1 H1; cbv beta.
  apply (hoare_bind _ _ _ _ _ (fun _ => sound)).
  { destruct H1 as [Hwf Hc].
    destruct (blocked_users s1 !! user_id) as [unblock_time|];
      [destruct (Qlt_bool (t_check clk) unblock_time)|];
      [apply hoare_return|apply hoare_modify|apply hoare_pass];
      intros ? <-; (split; [|exact Hc]); exact Hwf. }
  intros _; cbv beta. apply hoare_self_bind; intros s2 H2; cbv beta.
  apply trackers_created; [exact H2|].
  repeat lazymatch goal with
         | |- hoare _ (bind (if Qlt_bool _ _ then _cleanup_old_data _ else pass) _) _ _ _ =>
             apply (hoare_bind _ _ _ _ _ (fun _ => sound)); [|intros ?; cbv beta]
         | |- hoare _ (_cleanup_old_data _) _ _ _ =>
             eapply hoare_pre; [|apply cleanup_well_formed]; tracking_side
         | _ => hoare_step constr:(tracking cfg user_id) tracking_side
         end.
Qed.

Lemma unblock_user_sound (s : RateLimiter) :
  sound s -> sound (snd (unblock_user sha256_hexdigest phone_number client_id s)).
Proof.
  intros Hs. unfold unblock_user.
  destruct (blocked_users s !! user_id); exact Hs.
Qed.

Lemma reset_user_limits_sound (s : RateLimiter) :
  sound s -> sound (reset_user_limits sha256_hexdigest phone_number client_id s).
Proof.
  intros [(Ha & Hk & Hr) Hc]. split; [split; [|split]|exact Hc].
  - intros u. unfold tracked, untracked, reset_user_limits. cbn.
    destruct (decide (u = user_id)) as [->|Hne].
    + right. rewrite !lookup_delete_eq. repeat split; reflexivity.
    + rewrite !lookup_delete_ne by congruence. exact (Ha u).
  - exact Hk.
  - intros u b. unfold reset_user_limits. cbn.
    destruct (decide (u = user_id)) as [->|Hne].
    + rewrite lookup_delete_eq. discriminate.
    + rewrite lookup_delete_ne by congruence. apply Hr.
Qed.

Lemma get_user_stats_sound (t : Q) (s : RateLimiter) :
  sound s ->
  (exists d, fst (get_user_stats sha256_hexdigest phone_number client_id t s)
             = Returned d)
  /\ sound (snd (get_user_stats sha256_hexdigest phone_number client_id t s)).
Proof.
  intros [Hwf Hc]. unfold get_user_stats. cbv zeta.
  destruct (minitue_counters s !! user_id) as [minute|] eqn:Hm.
  - pose proof Hwf as (Ha & _).
    destruct (Ha user_id) as [(_ & _ & [hour Hh] & [day Hd] & _)|(_ & Hn & _)];
      [|congruence].
    cbn [hour_counters set_minitue_counters]. rewrite Hh.
    cbn [day_counters set_hour_counters set_minitue_counters]. rewrite Hd.
    split; [eexists; reflexivity|]. cbn [snd]. split; [|exact Hc].
    assert (is_Some (minitue_counters s !! user_id)) as Hm' by (eexists; exact Hm).
    assert (is_Some (hour_counters s !! user_id)) as Hh' by (eexists; exact Hh).
    assert (is_Some (day_counters s !! user_id)) as Hd' by (eexists; exact Hd).
    eapply same_shape_well_formed; [apply shape_day; exact Hd'|].
    eapply same_shape_well_formed; [apply shape_hour; exact Hh'|].
    eapply same_shape_well_formed; [apply shape_minute; exact Hm'|].
    exact Hwf.
  - split; [eexists; reflexivity|]. split; assumption.
Qed.

End WellFormed.

Lemma init_well_formed cfg t0 : well_formed (RateLimiter_init cfg t0).
Proof.
  split; [|split].
  - intros u. right. repeat split; apply lookup_empty.
  - unfold counters_present. simpl. repeat split; eexists; reflexivity.
  - intros u b. simpl. rewrite lookup_empty. discriminate.
Qed.

Lemma serve_sound sha md5 cfg calls : forall s,
  well_formed s /\ config s = cfg ->
  (well_formed (snd (serve sha md5 calls s)) /\ config (snd (serve sha md5 calls s)) = cfg)
  /\ Forall (admission_fails_as_known cfg) (fst (serve sha md5 calls s))
  /\ Forall stats_returned (fst (serve sha md5 calls s)).
Proof.
  induction calls as [|c calls IH]; intros s Hs.
  - simpl. repeat split; try apply Hs; constructor.
  - cbn [serve fst snd].
    assert ((well_formed (snd (serve_one sha md5 c s))
             /\ config (snd (serve_one sha md5 c s)) = cfg)
            /\ admission_fails_as_known cfg (fst (serve_one sha md5 c s))
            /\ stats_returned (fst (serve_one sha md5 c s))) as (Hnext & Hadm & Hst).
    { destruct c as [p c m clk|p c|p c|p c t|]; cbn [serve_one fst snd].
      - pose proof (hoare_call _ _ _ _ _ s (check_well_formed sha md5 p c m clk cfg) Hs)
          as Hcall.
        destruct (call (check_rate_limit sha md5 p c m clk) s) as [[r|e] s'];
          cbn [fst snd admission_fails_as_known stats_returned].
        + split; [exact Hcall|split; exact I].
        + destruct Hcall as [(Hf & Hwf)|[_ []]]. split; [exact Hwf|split; [exact Hf|exact I]].
      - split; [apply unblock_user_sound; exact Hs|split; exact I].
      - split; [apply reset_user_limits_sound; exact Hs|split; exact I].
      - destruct (get_user_stats_sound sha p c cfg t s Hs) as [[d Hd] Hsound].
        split; [exact Hsound|]. rewrite Hd. split; exact I.
      - split; [exact Hs|split; exact I]. }
    destruct (IH _ Hnext) as (Hfinal & Hadms & Hsts).
    split; [exact Hfinal|]. split; constructor; assumption.
Qed.

(** X5: the exceptions of [check_rate_limit] are the known ones.  Over any
    session of public calls whose strings have a UTF-8 encoding, on a
    limiter created with any configuration of values that a float holds
    exactly, and whatever the hash functions and the readings of the clock,
    a [check_rate_limit] call that raises raises [KeyError] on the misspelt
    key of the burst counter, [AttributeError] on [logger.logging] in the
    sweep, or, only when the configured rate per minute is zero,
    [ZeroDivisionError]; no look-up of a tracker of the identity and no
    other counter of [stats] ever fails.  (A str that holds a surrogate
    makes the digest raise [UnicodeEncodeError], and an int beyond the
    range of a float makes the arithmetic raise [OverflowError]; the
    embedding has neither, which is why the two conditions are stated.) *)
Theorem X5_check_raises_only_known_failures
    (sha256_hexdigest md5_lower_strip : pystr -> string)
    (cfg : RateLimitConfig) (t0 : Q) (calls : list public_call) :
  float_config cfg -> Forall encodable_call calls ->
  Forall (admission_fails_as_known cfg)
    (fst (serve sha256_hexdigest md5_lower_strip calls (RateLimiter_init cfg t0))).
Proof.
  intros _ _.
  apply (serve_sound sha256_hexdigest md5_lower_strip cfg calls).
  split; [apply init_well_formed|reflexivity].
Qed.

Lemma X5_check_raises_only_known_failures_witness :
  let cfg := mkRateLimitConfig 300 5000 50000 0 60 10 4000 100 120 in
  let calls := [CheckRateLimit sender tenant text_a (at_time 1)] in
  fst (serve plain_digest plain_digest calls (RateLimiter_init cfg 0))
  = [Admission (Raised (KeyError "burst_voilations"))]
  /\ Forall (admission_fails_as_known cfg)
       (fst (serve plain_digest plain_digest calls (RateLimiter_init cfg 0))).
Proof.
  intros cfg calls. split; [vm_compute; reflexivity|].
  apply X5_check_raises_only_known_failures.
  - unfold float_config, float_exact. simpl. lia.
  - repeat constructor.
Defined.

(** X6: [get_user_stats] never raises.  Over any session of public calls,
    every [get_user_stats] call returns a dict: an identity that has a
    minute counter also has its hour and day counters.  And right after
    [reset_user_limits] the dict of the identity is the one of an identity
    without activity: three zero counts and [is_blocked] false. *)
Theorem X6_user_stats_always_returned
    (sha256_hexdigest md5_lower_strip : pystr -> string)
    (cfg : RateLimitConfig) (t0 : Q) (calls : list public_call) :
  Forall stats_returned
    (fst (serve sha256_hexdigest md5_lower_strip calls (RateLimiter_init cfg t0)))
  /\ (forall (phone_number client_id : pystr) (current_time : Q) (s : RateLimiter),
        fst (get_user_stats sha256_hexdigest phone_number client_id current_time
               (reset_user_limits sha256_hexdigest phone_number client_id s))
        = Returned no_activity).
Proof.
  split.
  - apply (serve_sound sha256_hexdigest md5_lower_strip cfg calls).
    split; [apply init_well_formed|reflexivity].
  - intros p c t s. unfold get_user_stats, reset_user_limits. cbv zeta.
    cbn [minitue_counters set_blocked_users set_last_messages set_burst_tracker
         set_hour_counters set_day_counters set_minitue_counters set_token_bucket].
    rewrite lookup_delete_eq. reflexivity.
Qed.

(** ** The counters of get_global_stats *)

Ltac stat_side :=
  intros; subst; cbv beta;
  cbn [stats set_stats set_last_messages set_blocked_users set_burst_tracker
       set_token_bucket set_minitue_counters set_hour_counters set_day_counters
       set_last_cleanup];
  try match goal with
      | |- match ?o with Returned _ => _ | Raised _ => _ end => destruct o
      end;
  try (match goal with
       | |- context [rejected_with ?a ?b] =>
           let v := eval lazy in (rejected_with a b) in
           change (rejected_with a b) with v
       end; cbv iota);
  try rewrite Z.add_0_r;
  first [ assumption
        | rewrite lookup_insert_ne by discriminate; assumption
        | match goal with
          | H : ?x = Some _, H' : ?x = None |- _ => rewrite H in H'; discriminate
          end ].

Section Statistics.

Variable sha256_hexdigest : pystr -> string.
Variable md5_lower_strip : pystr -> string.
Variables phone_number client_id message : pystr.
Variable clk : Clock.

Local Abbreviation check :=
  (check_rate_limit sha256_hexdigest md5_lower_strip phone_number client_id message clk).

Lemma check_counts_total (n : Z) :
  hoare (fun s => stats s !! "total_requests" = Some n) check
    (fun _ _ => False)
    (fun _ s => stats s !! "total_requests" = Some (n + 1)%Z)
    (fun _ s => stats s !! "total_requests" = Some (n + 1)%Z).
Proof.
  unfold check_rate_limit, _cleanup_old_data. cbv zeta.
  apply (hoare_bind _ _ _ _ _
           (fun _ s => stats s !! "total_requests" = Some (n + 1)%Z)).
  { apply hoare_stats_incr.
    - intros s v Hs Hv. cbn [stats set_stats]. rewrite lookup_insert_eq. congruence.
    - intros s Hs Hn. congruence. }
  intros _; cbv beta.
  repeat hoare_step constr:(fun s => stats s !! "total_requests" = Some (n + 1)%Z)
           stat_side.
Qed.

Lemma check_counts_duplicates (n : Z) :
  hoare (fun s => stats s !! "spam_detected" = Some n) check
    (fun _ _ => False)
    (fun r s => stats s !! "spam_detected"
                = Some (n + if rejected_with duplicate_reason (Admission (Returned r))
                            then 1 else 0)%Z)
    (fun _ s => stats s !! "spam_detected" = Some n).
Proof.
  unfold check_rate_limit, _cleanup_old_data. cbv zeta.
  repeat lazymatch goal with
         | |- hoare _ (bind (stats_incr "spam_detected") _) _ _ _ =>
             apply (hoare_bind _ _ _ _ _
                      (fun _ s => stats s !! "spam_detected" = Some (n + 1)%Z));
             [apply hoare_stats_incr;
              [intros ? v ? Hv; subst; cbn [stats set_stats];
               rewrite lookup_insert_eq; congruence
              |intros; subst; congruence]
             |intros _; apply hoare_return; intros ? Hs; exact Hs]
         | _ => hoare_step constr:(fun s => stats s !! "spam_detected" = Some n)
                  stat_side
         end.
Qed.

Lemma check_counts_blocks (n : Z) :
  hoare (fun s => stats s !! "blocked_requests" = Some n) check
    (fun _ _ => False)
    (fun r s => stats s !! "blocked_requests"
                = Some (n + if rejected_with suspicious_reason (Admission (Returned r))
                            then 1 else 0)%Z)
    (fun _ s => stats s !! "blocked_requests" = Some n).
Proof.
  unfold check_rate_limit, _cleanup_old_data. cbv zeta.
  repeat lazymatch goal with
         | |- hoare _ (bind (stats_incr "blocked_requests") _) _ _ _ =>
             apply (hoare_bind _ _ _ _ _
                      (fun _ s => stats s !! "blocked_requests" = Some (n + 1)%Z));
             [apply hoare_stats_incr;
              [intros ? v ? Hv; subst; cbn [stats set_stats];
               rewrite lookup_insert_eq; congruence
              |intros; subst; congruence]
             |intros _; apply hoare_return; intros ? Hs; exact Hs]
         | _ => hoare_step constr:(fun s => stats s !! "blocked_requests" = Some n)
                  stat_side
         end.
Qed.

Lemma check_never_counts_bursts (n : Z) :
  hoare (fun s => stats s !! "burst_violations" = Some n) check
    (fun _ _ => False)
    (fun _ s => stats s !! "burst_violations" = Some n)
    (fun _ s => stats s !! "burst_violations" = Some n).
Proof.
  unfold check_rate_limit, _cleanup_old_data. cbv zeta.
  repeat hoare_step constr:(fun s => stats s !! "burst_violations" = Some n)
           stat_side.
Qed.

End Statistics.

Lemma serve_counts (key : string) (hit : answer -> bool) sha md5 :
  (forall c s n, stats s !! key = Some n ->
     stats (snd (serve_one sha md5 c s)) !! key
     = Some (n + if hit (fst (serve_one sha md5 c s)) then 1 else 0)%Z) ->
  forall session s n, stats s !! key = Some n ->
    stats (snd (serve sha md5 session s)) !! key
    = Some (n + count_answers hit (fst (serve sha md5 session s)))%Z.
Proof.
  intros Hone session. induction session as [|c session IH]; intros s n Hs.
  - simpl. unfold count_answers. simpl. rewrite Z.add_0_r. exact Hs.
  - cbn [serve fst snd]. rewrite (IH _ _ (Hone c s n Hs)).
    unfold count_answers. cbn [List.filter].
    destruct (hit (fst (serve_one sha md5 c s))); cbn [length]; f_equal; lia.
Qed.

Lemma stats_of_other_calls sha md5 (c : public_call) (s : RateLimiter) :
  match c with CheckRateLimit _ _ _ _ => False | _ => True end ->
  stats (snd (serve_one sha md5 c s)) = stats s.
Proof.
  destruct c as [p c m clk|p c|p c|p c t|]; intros H; try contradiction;
    cbn [serve_one snd].
  - unfold unblock_user. destruct (blocked_users s !! _); reflexivity.
  - reflexivity.
  - unfold get_user_stats. cbv zeta.
    destruct (minitue_counters s !! _); [|reflexivity].
    cbn [hour_counters set_minitue_counters].
    destruct (hour_counters s !! _); [|reflexivity].
    cbn [day_counters set_hour_counters set_minitue_counters].
    destruct (day_counters s !! _); reflexivity.
  - reflexivity.
Qed.

Lemma global_stats_counter (key : string) (s : RateLimiter) :
  key <> "tracked_messages" -> key <> "blocked_users" -> key <> "active_users" ->
  get_global_stats s !! key = stats s !! key.
Proof.
  intros H1 H2 H3. unfold get_global_stats.
  rewrite !lookup_insert_ne by congruence. reflexivity.
Qed.

(** X7: what the counters of [get_global_stats] count.  After any session
    of public calls on a limiter created with any configuration,
    ['total_requests'] is the number of [check_rate_limit] calls made,
    those that raised included; ['spam_detected'] is the number of calls
    answered with the duplicate rejection; ['blocked_requests'] is the
    number of calls answered with the suspicious-activity rejection (the
    calls turned away later by the block it sets are not counted); and
    ['burst_violations'] is still 0, since the burst path increments
    another key. *)
Theorem X7_global_stats_count_the_answers
    (sha256_hexdigest md5_lower_strip : pystr -> string)
    (cfg : RateLimitConfig) (t0 : Q) (calls : list public_call) :
  let r := serve sha256_hexdigest md5_lower_strip calls (RateLimiter_init cfg t0) in
  let d := get_global_stats (snd r) in
  d !! "total_requests" = Some (count_answers is_admission (fst r))
  /\ d !! "spam_detected"
     = Some (count_answers (rejected_with duplicate_reason) (fst r))
  /\ d !! "blocked_requests"
     = Some (count_answers (rejected_with suspicious_reason) (fst r))
  /\ d !! "burst_violations" = Some 0%Z.
Proof.
  intros r d. subst d r.
  rewrite !global_stats_counter by discriminate.
  repeat split.
  - rewrite (serve_counts "total_requests" is_admission _ _) with (n := 0%Z);
      [reflexivity| |reflexivity].
    intros c s n Hs. destruct c as [p c m clk|p c|p c|p c t|];
      try (rewrite stats_of_other_calls by exact I; cbn [serve_one fst is_admission];
           rewrite Z.add_0_r; exact Hs).
    cbn [serve_one fst snd is_admission].
    pose proof (hoare_call _ _ _ _ _ s
                  (check_counts_total sha256_hexdigest md5_lower_strip p c m clk n) Hs)
      as Hcall.
    destruct (call _ s) as [[r|e] s']; cbn [snd]; [exact Hcall|].
    destruct Hcall as [H|[_ []]]; exact H.
  - rewrite (serve_counts "spam_detected" (rejected_with duplicate_reason) _ _)
      with (n := 0%Z); [reflexivity| |reflexivity].
    intros c s n Hs. destruct c as [p c m clk|p c|p c|p c t|];
      try (rewrite stats_of_other_calls by exact I; cbn [serve_one fst rejected_with];
           rewrite Z.add_0_r; exact Hs).
    cbn [serve_one fst snd].
    pose proof (hoare_call _ _ _ _ _ s
                  (check_counts_duplicates sha256_hexdigest md5_lower_strip p c m clk n)
                  Hs) as Hcall.
    destruct (call _ s) as [[r|e] s']; cbn [snd]; [exact Hcall|].
    cbn [rejected_with]. rewrite Z.add_0_r.
    destruct Hcall as [H|[_ []]]; exact H.
  - rewrite (serve_counts "blocked_requests" (rejected_with suspicious_reason) _ _)
      with (n := 0%Z); [reflexivity| |reflexivity].
    intros c s n Hs. destruct c as [p c m clk|p c|p c|p c t|];
      try (rewrite stats_of_other_calls by exact I; cbn [serve_one fst rejected_with];
           rewrite Z.add_0_r; exact Hs).
    cbn [serve_one fst snd].
    pose proof (hoare_call _ _ _ _ _ s
                  (check_counts_blocks sha256_hexdigest md5_lower_strip p c m clk n)
                  Hs) as Hcall.
    destruct (call _ s) as [[r|e] s']; cbn [snd]; [exact Hcall|].
    cbn [rejected_with]. rewrite Z.add_0_r.
    destruct Hcall as [H|[_ []]]; exact H.
  - rewrite (serve_counts "burst_violations" (fun _ => false) _ _) with (n := 0%Z).
    + unfold count_answers. clear. f_equal.
      induction (fst (serve sha256_hexdigest md5_lower_strip calls
                        (RateLimiter_init cfg t0))) as [|a l IH]; [reflexivity|exact IH].
    + intros c s n Hs. rewrite Z.add_0_r.
      destruct c as [p c m clk|p c|p c|p c t|];
        try (rewrite stats_of_other_calls by exact I; exact Hs).
      cbn [serve_one snd].
      pose proof (hoare_call _ _ _ _ _ s
                    (check_never_counts_bursts sha256_hexdigest md5_lower_strip p c m clk
                       n) Hs) as Hcall.
      destruct (call _ s) as [[r|e] s']; cbn [snd]; [exact Hcall|].
      destruct Hcall as [H|[_ []]]; exact H.
    + reflexivity.
Qed.

(** ** The block set by the suspicious-activity rejection *)

Ltac block_side :=
  intros; subst; cbv beta; unfold counted_under in *;
  cbn [fst snd config stats set_stats set_last_messages set_blocked_users
       set_burst_tracker set_token_bucket set_minitue_counters set_hour_counters
       set_day_counters set_last_cleanup];
  try match goal with
      | |- match ?o with Returned _ => _ | Raised _ => _ end => destruct o
      end;
  first [ exact I
        | assumption
        | discriminate
        | match goal with
          | H : _ /\ _ |- _ /\ _ =>
              destruct H; split; [assumption|apply is_Some_lookup_insert; assumption]
          end ].

Lemma suspicious_rejection_blocks sha md5 p c m clk cfg :
  hoare (fun s => config s = cfg) (check_rate_limit sha md5 p c m clk)
    (fun _ _ => False)
    (fun r s' =>
       snd (fst r) = Some suspicious_reason ->
       blocked_users s' !! _get_user_id sha p c
       = Some (t_check clk + inject_Z (block_durtion cfg))
       /\ is_Some (stats s' !! "total_requests"))
    (fun _ _ => True).
Proof.
  unfold check_rate_limit, _cleanup_old_data. cbv zeta.
  apply (hoare_bind _ _ _ _ _ (fun _ => counted_under cfg)).
  { apply hoare_stats_incr.
    - intros s v Hs Hv. split; [exact Hs|]. cbn [stats set_stats].
      rewrite lookup_insert_eq. eexists; reflexivity.
    - intros; exact I. }
  intros _; cbv beta.
  repeat lazymatch goal with
         | |- hoare _ (bind (modify (set_blocked_users (insert _ _))) _) _ _ _ =>
             apply (hoare_bind _ _ _ _ _
                      (fun _ s' =>
                         counted_under cfg s'
                         /\ blocked_users s' !! _get_user_id sha p c
                            = Some (t_check clk + inject_Z (block_durtion cfg))));
             [apply hoare_modify; intros ? <-;
              match goal with H : counted_under _ _ |- _ => destruct H as [Hc Ht] end;
              split; [split; assumption|];
              cbn [blocked_users set_blocked_users]; rewrite lookup_insert_eq, Hc;
              reflexivity
             |intros _; cbv beta;
              apply (hoare_bind _ _ _ _ _
                       (fun _ s' =>
                          counted_under cfg s'
                          /\ blocked_users s' !! _get_user_id sha p c
                             = Some (t_check clk + inject_Z (block_durtion cfg))));
              [apply hoare_stats_incr;
               [intros ? v [[Hc Ht] Hb] Hv; split; [split; [exact Hc|]|exact Hb];
                cbn [stats set_stats]; apply is_Some_lookup_insert; exact Ht
               |intros; exact I]
              |intros _; apply hoare_return; intros ? [[Hc Ht] Hb] _;
               split; assumption]]
         | _ => hoare_step constr:(counted_under cfg) block_side
         end.
Qed.

(** X9: the block outlasts the rejection that set it.  When a
    [check_rate_limit] call is answered with the suspicious-activity
    rejection, the next call of the same identity, whatever its message,
    made before the block duration has passed since the rejected call, is
    answered with the block rejection, and its retry hint is the rest of
    the block in whole seconds, rounded down. *)
Theorem X9_block_outlasts_the_rejection
    (sha256_hexdigest md5_lower_strip : pystr -> string)
    (phone_number client_id message next_message : pystr) (clk next_clk : Clock)
    (s s' : RateLimiter) (r : response) :
  call (check_rate_limit sha256_hexdigest md5_lower_strip phone_number client_id
          message clk) s = (Returned r, s') ->
  snd (fst r) = Some suspicious_reason ->
  t_check next_clk < t_check clk + inject_Z (block_durtion (config s)) ->
  fst (call (check_rate_limit sha256_hexdigest md5_lower_strip phone_number client_id
               next_message next_clk) s')
  = Returned (block_rejection
                (py_int (t_check clk + inject_Z (block_durtion (config s))
                         - t_check next_clk))).
Proof.
  intros Hcall Hr Hnext.
  pose proof (hoare_call _ _ _ _ _ s
                (suspicious_rejection_blocks sha256_hexdigest md5_lower_strip
                   phone_number client_id message clk (config s)) eq_refl) as H.
  rewrite Hcall in H. destruct (H Hr) as [Hblocked Htotal].
  pose proof (hoare_call _ _ _ _ _ s'
                (rejected_as_blocked sha256_hexdigest md5_lower_strip phone_number
                   client_id next_message next_clk s' _ Htotal Hblocked Hnext) eq_refl)
    as H'.
  destruct (call _ s') as [[r'|e] s'']; cbn [fst].
  - rewrite H'. reflexivity.
  - destruct H' as [[]|[_ []]].
Qed.

Lemma X9_block_outlasts_the_rejection_witness :
  let cfg := mkRateLimitConfig 300 5000 50000 120 60 10 4000 0 120 in
  let first := call (check_rate_limit plain_digest plain_digest sender tenant text_a
                       (at_time 1)) (RateLimiter_init cfg 0) in
  fst first = Returned (false, Some suspicious_reason, Some 120%Z)
  /\ fst (call (check_rate_limit plain_digest plain_digest sender tenant text_b
                  (at_time 100)) (snd first))
     = Returned (block_rejection 21).
Proof.
  split; [vm_compute; reflexivity|].
  refine (X9_block_outlasts_the_rejection plain_digest plain_digest sender tenant
            text_a text_b (at_time 1) (at_time 100)
            (RateLimiter_init (mkRateLimitConfig 300 5000 50000 120 60 10 4000 0 120) 0)
            _ (false, Some suspicious_reason, Some 120%Z) _ _ _).
  - vm_compute. reflexivity.
  - reflexivity.
  - vm_compute. reflexivity.
Defined.

(** ** What an admitted message leaves behind *)

Lemma popleft_length_le cutoff d :
  (length (popleft_while_lt cutoff d) <= length d)%nat.
Proof.
  induction d as [|x d IH]; simpl; [lia|].
  destruct (Qlt_bool x cutoff); simpl; lia.
Qed.

Lemma get_count_length c t :
  (length (request (snd (get_count c t))) <= length (request c))%nat.
Proof. unfold get_count, _cleanup. simpl. apply popleft_length_le. Qed.

Lemma get_count_value c t :
  fst (get_count c t) = Z.of_nat (length (request (snd (get_count c t)))).
Proof. reflexivity. Qed.

Lemma cleanup_within_limits cfg u now R :
  hoare (within_limits cfg u) (_cleanup_old_data now)
    (fun _ => within_limits cfg u) R (fun _ _ => True).
Proof.
  intros s (Hq & Hm & Hh & Hd). unfold _cleanup_old_data.
  cbv beta iota zeta delta [bind modify self pass ret lift].
  rewrite logging_is_missing.
  match goal with
  | |- context [bool_decide (?X = ∅)] => destruct (bool_decide (X = ∅)); [|exact I]
  end.
  unfold within_limits.
  cbn [burst_tracker minitue_counters hour_counters day_counters set_burst_tracker
       set_day_counters set_hour_counters set_minitue_counters set_token_bucket
       set_blocked_users set_last_messages set_last_cleanup].
  repeat split.
  - intros q H. apply map_lookup_filter_Some in H. apply Hq, H.
  - apply map_lookup_filter_Some in H. apply Hm, H.
  - apply map_lookup_filter_Some in H. apply Hm, H.
  - intros k H. apply map_lookup_filter_Some in H. apply Hh, H.
  - intros k H. apply map_lookup_filter_Some in H. destruct H as [H _].
    rewrite lookup_fmap in H. destruct (day_counters s !! u) as [k0|] eqn:Hk0;
      [|discriminate].
    assert (Some (snd (get_count k0 now)) = Some k) as Hk by exact H.
    apply (inj Some) in Hk. rewrite <- Hk.
    pose proof (Hd k0 eq_refl). pose proof (get_count_length k0 now). lia.
Qed.

Ltac limits_side :=
  intros; subst; cbv beta;
  unfold burst_within, holds_at_most, admitted in *;
  cbn [config burst_tracker minitue_counters hour_counters day_counters
       set_stats set_last_messages set_blocked_users set_burst_tracker
       set_token_bucket set_minitue_counters set_hour_counters set_day_counters
       set_last_cleanup];
  try match goal with
      | |- match ?o with Returned _ => _ | Raised _ => _ end => destruct o
      end;
  first [ exact I | assumption | discriminate | tauto ].

(** The next statement of a method body, with [Inv] before and after. *)
Ltac peel Inv :=
  lazymatch goal with
  | |- hoare _ (bind self _) _ _ _ => apply hoare_self_bind; intros ? ?; cbv beta
  | |- hoare _ (bind _ _) _ _ _ =>
      apply (hoare_bind _ _ _ _ _ (fun _ => Inv));
      [solve [repeat hoare_step Inv limits_side]|intros _; cbv beta]
  end.

Section LetThrough.

Variable sha256_hexdigest : pystr -> string.
Variable md5_lower_strip : pystr -> string.
Variables phone_number client_id message : pystr.
Variable clk : Clock.
Variable cfg : RateLimitConfig.

Local Abbreviation user_id := (_get_user_id sha256_hexdigest phone_number client_id).
Local Abbreviation configured := (fun s : RateLimiter => config s = cfg).
Local Abbreviation short :=
  (fun s : RateLimiter =>
     config s = cfg /\ (Z.of_nat (length message) <= max_message_lengh cfg)%Z).
Local Abbreviation queued :=
  (fun s : RateLimiter => short s /\ burst_within cfg user_id s).

Lemma admitted_within_limits :
  hoare configured
    (check_rate_limit sha256_hexdigest md5_lower_strip phone_number client_id message clk)
    (fun _ _ => False)
    (fun r s' =>
       r = admitted ->
       (Z.of_nat (length message) <= max_message_lengh cfg)%Z
       /\ within_limits cfg user_id s')
    (fun _ _ => True).
Proof.
  unfold check_rate_limit. cbv zeta.
  do 11 peel constr:(configured).
  (* the length test *)
  apply (hoare_bind _ _ _ _ _ (fun _ => short)).
  { match goal with H : config ?s = cfg |- hoare (eq ?s) _ _ _ _ => rewrite H end.
    destruct (max_message_lengh cfg <? Z.of_nat (length message))%Z eqn:Hlen.
    - apply hoare_return. intros ? _ Heq. discriminate Heq.
    - apply hoare_pass. intros ? <-. split; [assumption|].
      apply Z.ltb_ge in Hlen. exact Hlen. }
  intros _; cbv beta.
  (* the burst queue *)
  apply (hoare_bind _ _ _ _ _ (fun _ => queued)).
  { match goal with H : config ?s = cfg |- context [burst_tracker ?s] => rewrite H end.
    match goal with
    | |- context [burst_tracker ?s !! _] =>
        destruct (burst_tracker s !! user_id) as [tracker|]
    end; [|apply hoare_raise; intros; exact I].
    set (tracker' := popleft_while_lt (t_check clk - inject_Z (brust_window cfg))
                       (tracker ++ [t_check clk])).
    apply (hoare_bind _ _ _ _ _
             (fun _ s => short s /\ burst_tracker s !! user_id = Some tracker')).
    { apply hoare_modify. intros s' Hs'. split; [exact Hs'|].
      cbn [burst_tracker set_burst_tracker]. apply lookup_insert_eq. }
    intros _; cbv beta.
    destruct (brust_size cfg <? Z.of_nat (length tracker'))%Z eqn:Hburst.
    - repeat hoare_step constr:(fun _ : RateLimiter => True) limits_side.
    - apply hoare_pass. intros s' [Hs' Hq]. split; [exact Hs'|].
      intros q Hq'. rewrite Hq in Hq'. apply (inj Some) in Hq'. subst q.
      apply Z.ltb_ge in Hburst. exact Hburst. }
  intros _; cbv beta.
  do 5 peel constr:(queued).
  (* the three counts *)
  apply (hoare_bind _ _ _ _ _
           (fun n s => queued s /\ holds_at_most minitue_counters user_id n s)).
  { apply hoare_counter_count; [|intros; exact I].
    intros s c Hs Hc. split; [exact Hs|]. intros k Hk.
    cbn [minitue_counters set_minitue_counters] in Hk.
    rewrite lookup_insert_eq in Hk. apply (inj Some) in Hk. subst k.
    rewrite get_count_value. lia. }
  intros minute_count; cbv beta.
  apply (hoare_bind _ _ _ _ _
           (fun n s => (queued s /\ holds_at_most minitue_counters user_id minute_count s)
                       /\ holds_at_most hour_counters user_id n s)).
  { apply hoare_counter_count; [|intros; exact I].
    intros s c Hs Hc. split; [exact Hs|]. intros k Hk.
    cbn [hour_counters set_hour_counters] in Hk.
    rewrite lookup_insert_eq in Hk. apply (inj Some) in Hk. subst k.
    rewrite get_count_value. lia. }
  intros hour_count; cbv beta.
  apply (hoare_bind _ _ _ _ _
           (fun n s => ((queued s /\ holds_at_most minitue_counters user_id minute_count s)
                        /\ holds_at_most hour_counters user_id hour_count s)
                       /\ holds_at_most day_counters user_id n s)).
  { apply hoare_counter_count; [|intros; exact I].
    intros s c Hs Hc. split; [exact Hs|]. intros k Hk.
    cbn [day_counters set_day_counters] in Hk.
    rewrite lookup_insert_eq in Hk. apply (inj Some) in Hk. subst k.
    rewrite get_count_value. lia. }
  intros day_count; cbv beta.
  apply hoare_self_bind.
  intros s (((((Hc & Hshort) & Hq) & Hm) & Hh) & Hd); cbv beta.
  rewrite Hc.
  destruct (suspicious_requests_per_minitue cfg <? minute_count)%Z eqn:E1;
    [repeat hoare_step constr:(fun _ : RateLimiter => True) limits_side|].
  destruct (request_per_minitue cfg <? minute_count)%Z eqn:E2;
    [repeat hoare_step constr:(fun _ : RateLimiter => True) limits_side|].
  destruct (request_per_hour cfg <? hour_count)%Z eqn:E3;
    [repeat hoare_step constr:(fun _ : RateLimiter => True) limits_side|].
  destruct (request_per_day cfg <? day_count)%Z eqn:E4;
    [repeat hoare_step constr:(fun _ : RateLimiter => True) limits_side|].
  apply Z.ltb_ge in E1, E2, E3, E4.
  apply (hoare_bind _ _ _ _ _ (fun _ => within_limits cfg user_id)).
  { eapply hoare_pre with (P' := within_limits cfg user_id).
    - intros ? <-. unfold within_limits.
      split; [exact Hq|]. split; [|split].
      + intros k Hk. pose proof (Hm k Hk). lia.
      + intros k Hk. pose proof (Hh k Hk). lia.
      + intros k Hk. pose proof (Hd k Hk). lia.
    - destruct (Qlt_bool (_cleanup_interval s) (t_check clk - _last_cleanup s)).
      + apply cleanup_within_limits.
      + apply hoare_pass. intros ? Hw. exact Hw. }
  intros _. apply hoare_return. intros s' Hs' _. split; assumption.
Qed.

End LetThrough.

(** X8: an admitted message leaves the identity within every limit.
    Whatever the state of the limiter, when [check_rate_limit] answers
    [(True, None, None)] the message is not longer than the maximum length,
    and after the call the trackers that the identity has are within the
    limits of the configuration: the burst queue holds at most [brust_size]
    timestamps, the minute counter at most the suspicious threshold and at
    most the limit per minute, the hour counter at most the limit per hour
    and the day counter at most the limit per day. *)
Theorem X8_admitted_message_is_within_limits
    (sha256_hexdigest md5_lower_strip : pystr -> string)
    (phone_number client_id message : pystr) (clk : Clock) (s s' : RateLimiter) :
  call (check_rate_limit sha256_hexdigest md5_lower_strip phone_number client_id
          message clk) s = (Returned admitted, s') ->
  (Z.of_nat (length message) <= max_message_lengh (config s))%Z
  /\ within_limits (config s) (_get_user_id sha256_hexdigest phone_number client_id) s'.
Proof.
  intros Hcall.
  pose proof (hoare_call _ _ _ _ _ s
                (admitted_within_limits sha256_hexdigest md5_lower_strip phone_number
                   client_id message clk (config s)) eq_refl) as H.
  rewrite Hcall in H. apply H. reflexivity.
Qed.

Lemma X8_admitted_message_is_within_limits_witness :
  let s := RateLimiter_init default_config 0 in
  let r := call (check_rate_limit plain_digest plain_digest sender tenant text_a
                   (at_time 1)) s in
  fst r = Returned admitted
  /\ within_limits default_config (_get_user_id plain_digest sender tenant) (snd r).
Proof.
  split; [vm_compute; reflexivity|].
  refine (proj2 (X8_admitted_message_is_within_limits plain_digest plain_digest sender
                   tenant text_a (at_time 1) (RateLimiter_init default_config 0) _ _)).
  vm_compute. reflexivity.
Defined.

(** ** SlidingWindowCounter: timestamps in any order *)

Lemma popleft_suffix cutoff d : exists dropped, d = dropped ++ popleft_while_lt cutoff d.
Proof.
  induction d as [|x d IH]; [exists []; reflexivity|]. simpl.
  destruct (Qlt_bool x cutoff).
  - destruct IH as [p Hp]. exists (x :: p). simpl. f_equal. exact Hp.
  - exists []. reflexivity.
Qed.

Lemma popleft_keeps_last cutoff d x :
  Qlt_bool x cutoff = false ->
  exists kept, popleft_while_lt cutoff (d ++ [x]) = kept ++ [x].
Proof.
  intros Hx. induction d as [|y d IH]; simpl.
  - rewrite Hx. exists []. reflexivity.
  - destruct (Qlt_bool y cutoff); [exact IH|]. exists (y :: d). reflexivity.
Qed.

Lemma recorded_queue_is_suffix (w : Z) (l : list Q) :
  exists dropped, l = dropped ++ request (record_all (SlidingWindowCounter_init w) l).
Proof.
  induction l as [|x l IH] using rev_ind; [exists []; reflexivity|].
  rewrite record_all_snoc. unfold add_request, _cleanup. cbn [request window_size].
  destruct IH as [p Hp].
  destruct (popleft_suffix (x - inject_Z (window_size
                                            (record_all (SlidingWindowCounter_init w) l)))
              (request (record_all (SlidingWindowCounter_init w) l) ++ [x])) as [p' Hp'].
  exists (p ++ p'). rewrite <- app_assoc, <- Hp'. rewrite app_assoc, <- Hp. reflexivity.
Qed.

(** X4: events leave the counter from the old end only, and the newest
    stays.  For a window that is not negative and timestamps recorded in
    any order, the queue of the counter is a suffix of the recorded
    sequence and ends with the timestamp recorded last; so [get_count] at
    that timestamp counts the event just recorded, and never more events
    than were recorded. *)
Theorem X4_newest_event_is_counted (w : Z) (timestamps : list Q) (t : Q) :
  (0 <= w)%Z ->
  let c := record_all (SlidingWindowCounter_init w) (timestamps ++ [t]) in
  (exists dropped, timestamps ++ [t] = dropped ++ request c)
  /\ last (request c) = Some t
  /\ (1 <= fst (get_count c t) <= Z.of_nat (length (timestamps ++ [t])))%Z.
Proof.
  intros Hw c. pose proof (inject_Z_nonneg w Hw) as Hw'.
  assert (Qlt_bool t (t - inject_Z w) = false) as Ht by (apply Qlt_bool_false; lra).
  split; [apply recorded_queue_is_suffix|].
  destruct (recorded_queue_is_suffix w (timestamps ++ [t])) as [dropped Hsuffix].
  fold c in Hsuffix.
  assert (exists kept, request c = kept ++ [t]) as [kept Hkept].
  { unfold c. rewrite record_all_snoc. unfold add_request, _cleanup.
    cbn [request window_size]. rewrite record_all_window_size. cbn [window_size SlidingWindowCounter_init].
    apply popleft_keeps_last. exact Ht. }
  split; [rewrite Hkept; apply last_snoc|].
  unfold get_count, _cleanup. cbn [fst request window_size].
  assert (window_size c = w) as -> by (unfold c; apply record_all_window_size).
  rewrite Hkept. destruct (popleft_keeps_last (t - inject_Z w) kept t Ht) as [kept' Hk'].
  split.
  - rewrite Hk', length_app. simpl. lia.
  - pose proof (popleft_length_le (t - inject_Z w) (kept ++ [t])) as Hle.
    assert (length (kept ++ [t]) <= length (timestamps ++ [t]))%nat.
    { rewrite Hsuffix, Hkept, !length_app. lia. }
    lia.
Qed.

Lemma X4_newest_event_is_counted_witness :
  let c := record_all (SlidingWindowCounter_init 60) ([100; 0] ++ [30]) in
  request c = [100; 0; 30] /\ last (request c) = Some 30.
Proof.
  split; [reflexivity|].
  apply (X4_newest_event_is_counted 60 [100; 0] 30). lia.
Defined.

(** ** The first message of an identity *)

Lemma fresh_bucket_grants (cap : Z) (rate t0 t : Q) :
  (1 <= cap)%Z -> 0 <= rate -> t0 <= t ->
  fst (consume (TokenBucket_init cap rate t0) 1 t) = true.
Proof.
  intros Hcap Hrate Ht. unfold consume.
  assert (1 <= inject_Z cap) as Hcap'.
  { change 1 with (inject_Z 1). rewrite <- Zle_Qle. exact Hcap. }
  assert (Qle_bool (inject_Z 1) (refilled (TokenBucket_init cap rate t0) t) = true) as ->;
    [|reflexivity].
  apply Qle_bool_iff. change (inject_Z 1) with 1. unfold refilled. simpl.
  assert (0 <= (t - t0) * rate) by (apply Qmult_le_0_compat; lra).
  apply py_min_ge; lra.
Qed.

Lemma fresh_counter_counts_one (w : Z) (t : Q) :
  (0 <= w)%Z ->
  fst (get_count (add_request (SlidingWindowCounter_init w) t) t) = 1%Z.
Proof.
  intros Hw. pose proof (inject_Z_nonneg w Hw) as Hw'.
  assert (Qlt_bool t (t - inject_Z w) = false) as E by (apply Qlt_bool_false; lra).
  unfold get_count, add_request, _cleanup. simpl. rewrite E. simpl. rewrite E.
  reflexivity.
Qed.

Lemma first_in_burst_queue (cutoff t : Q) :
  (length (popleft_while_lt cutoff ([] ++ [t])) <= 1)%nat.
Proof. simpl. destruct (Qlt_bool t cutoff); simpl; lia. Qed.

Lemma cleanup_flow now s :
  fst (_cleanup_old_data now s) = Next tt
  \/ fst (_cleanup_old_data now s) = Raise (AttributeError "logging").
Proof.
  unfold _cleanup_old_data.
  cbv beta iota zeta delta [bind modify self pass ret lift].
  rewrite logging_is_missing.
  match goal with
  | |- context [bool_decide (?X = ∅)] => destruct (bool_decide (X = ∅))
  end; [left|right]; reflexivity.
Qed.

Section FirstMessage.

Variable sha256_hexdigest : pystr -> string.
Variable md5_lower_strip : pystr -> string.
Variables phone_number client_id message : pystr.
Variable clk : Clock.
Variable s : RateLimiter.

Local Abbreviation user_id := (_get_user_id sha256_hexdigest phone_number client_id).

Hypothesis Hlenient : lenient (config s).
Hypothesis Htotal : is_Some (stats s !! "total_requests").
Hypothesis Hnew : new_identity user_id s.
Hypothesis Hshort : (Z.of_nat (length message) <= max_message_lengh (config s))%Z.
Hypothesis Hclock : t_bucket_init clk <= t_consume clk.

Lemma first_message_admitted :
  fst (call (check_rate_limit sha256_hexdigest md5_lower_strip phone_number client_id
               message clk) s) = Returned admitted
  \/ fst (call (check_rate_limit sha256_hexdigest md5_lower_strip phone_number client_id
                  message clk) s) = Raised (AttributeError "logging").
Proof.
  destruct Hlenient as (Hb & Hrpm & Hrph & Hrpd & Hsus).
  destruct Htotal as [v Hv].
  destruct Hnew as ((Ntb & Nmc & Nhc & Ndc & Nbq) & Nlast & Nblocked).
  unfold call, check_rate_limit, stats_incr, counter_add, counter_count.
  cbv beta iota zeta delta [bind self modify pass ret return_ raise].
  rewrite Hv.
  assert ((max_message_lengh (config s) <? Z.of_nat (length message))%Z = false) as Elen
    by (apply Z.ltb_ge; exact Hshort).
  assert (forall cutoff,
             (brust_size (config s)
              <? Z.of_nat (length (popleft_while_lt cutoff ([] ++ [t_check clk]))))%Z
             = false) as Eburst.
  { intros cutoff. apply Z.ltb_ge.
    pose proof (first_in_burst_queue cutoff (t_check clk)). lia. }
  assert (fst (consume (TokenBucket_init (brust_size (config s))
                          (inject_Z (request_per_minitue (config s)) / 60)
                          (t_bucket_init clk)) 1 (t_consume clk)) = true) as Etoken.
  { apply fresh_bucket_grants; [exact Hb| |exact Hclock].
    assert (0 <= inject_Z (request_per_minitue (config s)))
      by (apply inject_Z_nonneg; lia).
    apply Qle_shift_div_l; lra. }
  assert ((suspicious_requests_per_minitue (config s) <? 1)%Z = false) as E1
    by (apply Z.ltb_ge; exact Hsus).
  assert ((request_per_minitue (config s) <? 1)%Z = false) as E2
    by (apply Z.ltb_ge; exact Hrpm).
  assert ((request_per_hour (config s) <? 1)%Z = false) as E3
    by (apply Z.ltb_ge; exact Hrph).
  assert ((request_per_day (config s) <? 1)%Z = false) as E4
    by (apply Z.ltb_ge; exact Hrpd).
  repeat (cbv beta iota;
          cbn [config stats blocked_users token_bucket minitue_counters hour_counters
               day_counters burst_tracker last_messages _cleanup_interval _last_cleanup
               set_stats set_blocked_users set_token_bucket set_minitue_counters
               set_hour_counters set_day_counters set_burst_tracker set_last_messages];
          rewrite ?lookup_insert_eq, ?Nblocked, ?Ntb, ?Nmc, ?Nlast, ?Elen, ?Eburst,
            ?Etoken, ?(fresh_counter_counts_one 60), ?(fresh_counter_counts_one 3600),
            ?(fresh_counter_counts_one 86400), ?E1, ?E2, ?E3, ?E4 by lia).
  match goal with
  | |- context [(if _ then _cleanup_old_data _ else _) ?S] => set (final := S)
  end.
  destruct (Qlt_bool (_cleanup_interval s) (t_check clk - _last_cleanup s)).
  - destruct (cleanup_flow (t_check clk) final) as [Hflow|Hflow];
      destruct (_cleanup_old_data (t_check clk) final) as [f s'];
      simpl in Hflow; subst f; [left|right]; reflexivity.
  - left. reflexivity.
Qed.

End FirstMessage.

Lemma reset_gives_new_identity sha p c s :
  new_identity (_get_user_id sha p c) (reset_user_limits sha p c s).
Proof.
  unfold new_identity, untracked, reset_user_limits.
  cbn [token_bucket minitue_counters hour_counters day_counters burst_tracker
       last_messages blocked_users set_blocked_users set_last_messages
       set_burst_tracker set_hour_counters set_day_counters set_minitue_counters
       set_token_bucket].
  rewrite !lookup_delete_eq. repeat split; reflexivity.
Qed.

(** X10: the first message of an identity is let through.  When the
    limiter holds nothing about an identity (no tracker, no last message, no
    block), which is the case of an identity it has never seen and of one
    whose limits were just reset, then under a configuration whose limits
    are all at least 1, for a message not longer than the maximum length and
    a clock that does not step back between the creation of the bucket and
    its use, [check_rate_limit] answers [(True, None, None)], unless the
    sweep at the end of the call raises on [logger.logging].  The strings of
    the call have a UTF-8 encoding and the values of the configuration are
    held exactly by a float: the digest of a str with a surrogate and the
    conversion of an int beyond the range of a float raise, and the
    embedding has neither exception. *)
Theorem X10_first_message_is_admitted :
  (forall (sha256_hexdigest md5_lower_strip : pystr -> string)
          (phone_number client_id message : pystr) (clk : Clock) (s : RateLimiter),
      encodable_call (CheckRateLimit phone_number client_id message clk) ->
      float_config (config s) ->
      lenient (config s) ->
      is_Some (stats s !! "total_requests") ->
      new_identity (_get_user_id sha256_hexdigest phone_number client_id) s ->
      (Z.of_nat (length message) <= max_message_lengh (config s))%Z ->
      t_bucket_init clk <= t_consume clk ->
      fst (call (check_rate_limit sha256_hexdigest md5_lower_strip phone_number
                   client_id message clk) s) = Returned admitted
      \/ fst (call (check_rate_limit sha256_hexdigest md5_lower_strip phone_number
                      client_id message clk) s) = Raised (AttributeError "logging"))
  /\ (forall (sha256_hexdigest : pystr -> string) (phone_number client_id : pystr)
             (s : RateLimiter),
        new_identity (_get_user_id sha256_hexdigest phone_number client_id)
          (reset_user_limits sha256_hexdigest phone_number client_id s)).
Proof.
  split.
  - intros sha md5 p c m clk s _ _. intros. apply first_message_admitted; assumption.
  - intros. apply reset_gives_new_identity.
Qed.

Lemma X10_first_message_is_admitted_witness :
  fst (call (check_rate_limit plain_digest plain_digest sender tenant text_a
               (at_time (103 # 4)))
         (reset_user_limits plain_digest sender tenant flooded))
  = Returned admitted
  \/ fst (call (check_rate_limit plain_digest plain_digest sender tenant text_a
                  (at_time (103 # 4)))
            (reset_user_limits plain_digest sender tenant flooded))
     = Raised (AttributeError "logging").
Proof.
  apply (proj1 X10_first_message_is_admitted).
  - repeat split; reflexivity.
  - unfold float_config, float_exact. vm_compute. repeat split; discriminate.
  - vm_compute. repeat split; discriminate.
  - vm_compute. eexists; reflexivity.
  - apply (proj2 X10_first_message_is_admitted).
  - vm_compute. discriminate.
  - vm_compute. discriminate.
Defined.

(** ** After unblock_user and after a sweep *)

Ltac plain_side :=
  intros; subst; cbv beta; unfold block_reason, swept_at, is_attribute_error in *;
  cbn [fst snd _last_cleanup _cleanup_interval blocked_users
       set_stats set_last_messages set_blocked_users set_burst_tracker
       set_token_bucket set_minitue_counters set_hour_counters set_day_counters];
  try match goal with
      | |- match ?o with Returned _ => _ | Raised _ => _ end => destruct o
      end;
  first [ exact I | assumption | discriminate
        | match goal with
          | H : get_wait_time _ = Raised ?e |- _ =>
              unfold get_wait_time in H;
              repeat match type of H with
                     | (if ?b then _ else _) = _ => destruct b
                     end;
              first [discriminate H | inversion H; subst; first [exact I | tauto]]
          end
        | tauto ].

Lemma unblocked_is_not_turned_away sha md5 p c m clk :
  hoare (fun s => blocked_users s !! _get_user_id sha p c = None)
    (check_rate_limit sha md5 p c m clk)
    (fun _ _ => False)
    (fun r _ => snd (fst r) <> Some block_reason)
    (fun _ _ => True).
Proof.
  unfold check_rate_limit, _cleanup_old_data. cbv zeta.
  apply (hoare_bind _ _ _ _ _
           (fun _ s => blocked_users s !! _get_user_id sha p c = None)).
  { apply hoare_stats_incr; [intros s v Hs _; exact Hs|intros; exact I]. }
  intros _; cbv beta. apply hoare_self_bind; intros s1 H1; cbv beta.
  apply (hoare_bind _ _ _ _ _ (fun _ _ => True)).
  { rewrite H1. apply hoare_pass. intros; exact I. }
  intros _; cbv beta.
  repeat hoare_step constr:(fun _ : RateLimiter => True) plain_side.
Qed.

(** X22: [unblock_user] and [reset_user_limits] lift the block.
    [unblock_user] returns true exactly when the identity had an entry in
    [blocked_users] (an expired one counts), and after it, as after
    [reset_user_limits], the next [check_rate_limit] call of the identity
    is never answered with the block rejection, whatever the state, the
    message and the time. *)
Theorem X22_unblock_lifts_the_block
    (sha256_hexdigest md5_lower_strip : pystr -> string)
    (phone_number client_id message : pystr) (clk : Clock) (s : RateLimiter) :
  let user_id := _get_user_id sha256_hexdigest phone_number client_id in
  let check := check_rate_limit sha256_hexdigest md5_lower_strip phone_number client_id
                 message clk in
  (fst (unblock_user sha256_hexdigest phone_number client_id s) = true
   <-> is_Some (blocked_users s !! user_id))
  /\ (forall r, fst (call check (snd (unblock_user sha256_hexdigest phone_number
                                        client_id s))) = Returned r ->
                snd (fst r) <> Some block_reason)
  /\ (forall r, fst (call check (reset_user_limits sha256_hexdigest phone_number
                                   client_id s)) = Returned r ->
                snd (fst r) <> Some block_reason).
Proof.
  intros user_id check.
  assert (forall s0, blocked_users s0 !! user_id = None ->
                     forall r, fst (call check s0) = Returned r ->
                               snd (fst r) <> Some block_reason) as Hfree.
  { intros s0 Hs0 r Hr.
    pose proof (hoare_call _ _ _ _ _ s0
                  (unblocked_is_not_turned_away sha256_hexdigest md5_lower_strip
                     phone_number client_id message clk) Hs0) as H.
    fold check in H. destruct (call check s0) as [[r'|e] s']; simpl in Hr; [|discriminate].
    inversion Hr; subst. exact H. }
  split; [|split].
  - unfold unblock_user. fold user_id.
    destruct (blocked_users s !! user_id) as [x|]; simpl.
    + split; [intros _; eexists; reflexivity|reflexivity].
    + split; [discriminate|intros [x Hx]; discriminate].
  - apply Hfree. unfold unblock_user. fold user_id.
    destruct (blocked_users s !! user_id) as [x|] eqn:E; cbn [snd blocked_users set_blocked_users].
    + apply lookup_delete_eq.
    + exact E.
  - apply Hfree. unfold reset_user_limits. fold user_id.
    cbn [blocked_users set_blocked_users]. apply lookup_delete_eq.
Qed.

Lemma X22_unblock_lifts_the_block_witness :
  let cfg := mkRateLimitConfig 300 5000 50000 120 60 10 4000 1 120 in
  let blocked :=
    snd (call (check_rate_limit plain_digest plain_digest sender tenant text_b (at_time 2))
           (snd (call (check_rate_limit plain_digest plain_digest sender tenant text_a
                         (at_time 1)) (RateLimiter_init cfg 0)))) in
  let check := check_rate_limit plain_digest plain_digest sender tenant text_a
                 (at_time 100) in
  fst (call check blocked) = Returned (block_rejection 22)
  /\ fst (unblock_user plain_digest sender tenant blocked) = true
  /\ fst (call check (snd (unblock_user plain_digest sender tenant blocked)))
     = Returned admitted
  /\ snd (fst admitted) <> Some block_reason.
Proof.
  intros cfg blocked check.
  pose proof (X22_unblock_lifts_the_block plain_digest plain_digest sender tenant text_a
                (at_time 100) blocked) as [Hflag [Hlifted _]].
  split; [vm_compute; reflexivity|].
  split; [apply Hflag; vm_compute; eexists; reflexivity|].
  assert (fst (call check (snd (unblock_user plain_digest sender tenant blocked)))
          = Returned admitted) as Hanswer by (vm_compute; reflexivity).
  split; [exact Hanswer|].
  exact (Hlifted admitted Hanswer).
Defined.


Lemma cleanup_marks_the_sweep now interval R :
  hoare (fun s => _cleanup_interval s = interval) (_cleanup_old_data now)
    (fun _ s => _cleanup_interval s = interval) R
    (fun e s => is_attribute_error e -> swept_at now interval s).
Proof.
  intros s Hs. unfold _cleanup_old_data.
  cbv beta iota zeta delta [bind modify self pass ret lift].
  rewrite logging_is_missing.
  match goal with
  | |- context [bool_decide (?X = ∅)] => destruct (bool_decide (X = ∅)); [exact Hs|]
  end.
  intros _. split; [reflexivity|exact Hs].
Qed.

Lemma attribute_error_marks_the_sweep sha md5 p c m clk interval :
  hoare (fun s => _cleanup_interval s = interval) (check_rate_limit sha md5 p c m clk)
    (fun _ _ => False) (fun _ _ => True)
    (fun e s => is_attribute_error e -> swept_at (t_check clk) interval s).
Proof.
  unfold check_rate_limit. cbv zeta.
  repeat lazymatch goal with
         | |- hoare _ (_cleanup_old_data _) _ _ _ =>
             eapply hoare_pre; [|apply cleanup_marks_the_sweep]; plain_side
         | _ => hoare_step constr:(fun s => _cleanup_interval s = interval) plain_side
         end.
Qed.

Lemma no_sweep_keeps_the_mark sha md5 p c m clk t interval :
  t_check clk - t <= interval ->
  hoare (swept_at t interval) (check_rate_limit sha md5 p c m clk)
    (fun _ _ => False) (fun _ s => swept_at t interval s)
    (fun e s => ~ is_attribute_error e /\ swept_at t interval s).
Proof.
  intros Hsoon. unfold check_rate_limit. cbv zeta.
  repeat lazymatch goal with
         | |- hoare _ (_cleanup_old_data _) _ _ _ =>
             exfalso;
             match goal with
             | H : swept_at _ _ ?s, E : Qlt_bool (_cleanup_interval ?s) _ = true |- _ =>
                 destruct H as [Hl Hi]; rewrite Hl, Hi in E;
                 apply Qlt_bool_iff in E; lra
             end
         | _ => hoare_step constr:(swept_at t interval) plain_side
         end.
Qed.

Lemma serve_keeps_the_mark sha md5 t interval session : forall s,
  swept_at t interval s -> Forall (within_interval t interval) session ->
  Forall no_attribute_error (fst (serve sha md5 session s)).
Proof.
  induction session as [|c session IH]; intros s Hs Hsession; [constructor|].
  inversion Hsession as [|c' session' Hc Hrest]; subst.
  cbn [serve fst snd].
  assert (no_attribute_error (fst (serve_one sha md5 c s))
          /\ swept_at t interval (snd (serve_one sha md5 c s))) as [Hanswer Hnext].
  { destruct c as [p c m clk|p c|p c|p c now|]; cbn [serve_one fst snd].
    - pose proof (hoare_call _ _ _ _ _ s
                    (no_sweep_keeps_the_mark sha md5 p c m clk t interval Hc) Hs) as H.
      destruct (call (check_rate_limit sha md5 p c m clk) s) as [[r|e] s'];
        cbn [fst snd no_attribute_error].
      + split; [exact I|exact H].
      + destruct H as [H|[_ []]]. exact H.
    - split; [exact I|]. unfold unblock_user.
      destruct (blocked_users s !! _get_user_id sha p c); exact Hs.
    - split; [exact I|exact Hs].
    - split; [exact I|]. unfold get_user_stats. cbv zeta.
      destruct (minitue_counters s !! _get_user_id sha p c); [|exact Hs].
      match goal with |- context [hour_counters ?s1 !! ?u] =>
        destruct (hour_counters s1 !! u); [|exact Hs] end.
      match goal with |- context [day_counters ?s2 !! ?u] =>
        destruct (day_counters s2 !! u); exact Hs end.
    - split; [exact I|exact Hs]. }
  constructor; [exact Hanswer|]. apply IH; assumption.
Qed.

(** X23: the failure of the sweep costs one call per interval.  When a
    [check_rate_limit] call raises [AttributeError] (the sweep, on
    [logger.logging]), the sweep has already recorded its time: over any
    session of public calls that follows, of any identities and with any
    messages, no [check_rate_limit] call raises [AttributeError] as long as
    the [check_rate_limit] calls of the session read the clock at most the
    cleanup interval after the failed call. *)
Theorem X23_sweep_fails_once_per_interval
    (sha256_hexdigest md5_lower_strip : pystr -> string)
    (phone_number client_id message : pystr) (clk : Clock) (s s' : RateLimiter)
    (e : exn) (session : list public_call) :
  call (check_rate_limit sha256_hexdigest md5_lower_strip phone_number client_id
          message clk) s = (Raised e, s') ->
  is_attribute_error e ->
  Forall (within_interval (t_check clk) (_cleanup_interval s)) session ->
  Forall no_attribute_error
    (fst (serve sha256_hexdigest md5_lower_strip session s')).
Proof.
  intros Hcall He Hsoon.
  pose proof (hoare_call _ _ _ _ _ s
                (attribute_error_marks_the_sweep sha256_hexdigest md5_lower_strip
                   phone_number client_id message clk (_cleanup_interval s)) eq_refl)
    as H.
  rewrite Hcall in H. destruct H as [H|[_ []]]. specialize (H He).
  eapply serve_keeps_the_mark; eassumption.
Qed.

Lemma X23_sweep_fails_once_per_interval_witness :
  let s := snd (call (check_rate_limit plain_digest plain_digest sender tenant text_a
                        (at_time 1)) (RateLimiter_init default_config 0)) in
  let r := call (check_rate_limit plain_digest plain_digest (py "918888888888") tenant
                   text_a (at_time 86402)) s in
  let session :=
    [ CheckRateLimit (py "918888888888") tenant text_b (at_time 86500);
      GetUserStats sender tenant 86600;
      UnblockUser sender tenant;
      CheckRateLimit sender tenant text_a (at_time 86702) ] in
  fst r = Raised (AttributeError "logging")
  /\ Forall no_attribute_error (fst (serve plain_digest plain_digest session (snd r))).
Proof.
  intros s r session. split; [vm_compute; reflexivity|].
  refine (X23_sweep_fails_once_per_interval plain_digest plain_digest
            (py "918888888888") tenant text_a (at_time 86402) s (snd r)
            (AttributeError "logging") session _ _ _).
  - vm_compute. reflexivity.
  - exact I.
  - repeat constructor; vm_compute; discriminate.
Defined.

(** ** RAGCache: the conversation history *)

Lemma last_n_snoc {A} (n : nat) (l : list A) (a : A) :
  (1 <= n)%nat -> last_n n (last_n n l ++ [a]) = last_n n (l ++ [a]).
Proof.
  intros Hn. unfold last_n.
  destruct (Nat.le_gt_cases (length l) n) as [Hle|Hgt].
  - replace (length l - n)%nat with 0%nat by lia. reflexivity.
  - rewrite !length_app, length_drop. simpl.
    replace (length l - (length l - n) + 1 - n)%nat with 1%nat by lia.
    replace (length l + 1 - n)%nat with (S (length l - n)) by lia.
    rewrite (drop_app_le l [a]) by lia.
    rewrite drop_app_le by (rewrite length_drop; lia).
    rewrite drop_drop. f_equal. f_equal. lia.
Qed.

Lemma py_slice_last_positive {A} (n : Z) (l : list A) :
  (0 < n)%Z -> py_slice_last n l = last_n (Z.to_nat n) l.
Proof.
  intros Hn. unfold py_slice_last, last_n.
  assert ((n =? 0)%Z = false) as -> by (apply Z.eqb_neq; lia).
  assert ((0 <? n)%Z = true) as -> by (apply Z.ltb_lt; lia).
  reflexivity.
Qed.

Lemma add_to_history_sizes client role content now c :
  max_history_size (add_to_history client role content now c) = max_history_size c.
Proof. unfold add_to_history. destruct (py_strip content); reflexivity. Qed.

Lemma record_turns_snoc c calls h :
  record_turns c (calls ++ [h])
  = add_to_history (hc_client h) (hc_role h) (hc_content h) (hc_now h)
      (record_turns c calls).
Proof. unfold record_turns. rewrite fold_left_app. reflexivity. Qed.

Lemma record_turns_sizes calls : forall c,
  max_history_size (record_turns c calls) = max_history_size c.
Proof.
  induction calls as [|h calls IH]; intros c; [reflexivity|].
  simpl. rewrite IH. apply add_to_history_sizes.
Qed.

Lemma turns_of_snoc client calls h :
  turns_of client (calls ++ [h]) = turns_of client calls ++ turns_of client [h].
Proof. unfold turns_of. rewrite flat_map_app. reflexivity. Qed.

Lemma history_is_last_turns (n m : Z) (client : pystr) (calls : list history_call) :
  (0 < n)%Z ->
  get_history client (record_turns (RAGCache_init n m) calls)
  = last_n (Z.to_nat n) (turns_of client calls).
Proof.
  intros Hn. induction calls as [|h calls IH] using rev_ind.
  - reflexivity.
  - rewrite record_turns_snoc, turns_of_snoc.
    set (c := record_turns (RAGCache_init n m) calls) in *.
    assert (max_history_size c = n) as Hsize by apply record_turns_sizes.
    unfold add_to_history, turns_of. simpl flat_map. rewrite app_nil_r.
    destruct (py_strip (hc_content h)) as [|x stripped] eqn:Hstrip.
    + destruct (bool_decide (hc_client h = client)); rewrite app_nil_r; exact IH.
    + unfold get_history in *. cbn [conversation_history].
      destruct (bool_decide (hc_client h = client)) eqn:Hclient.
      * apply bool_decide_eq_true in Hclient. rewrite Hclient.
        rewrite lookup_insert_eq. cbn [default from_option id].
        rewrite Hsize, py_slice_last_positive by exact Hn.
        rewrite IH. apply last_n_snoc. lia.
      * apply bool_decide_eq_false in Hclient.
        rewrite lookup_insert_ne by exact Hclient. rewrite app_nil_r. exact IH.
Qed.

Lemma history_unbounded (m : Z) (client : pystr) (calls : list history_call) :
  get_history client (record_turns (RAGCache_init 0 m) calls) = turns_of client calls.
Proof.
  induction calls as [|h calls IH] using rev_ind.
  - reflexivity.
  - rewrite record_turns_snoc, turns_of_snoc.
    set (c := record_turns (RAGCache_init 0 m) calls) in *.
    assert (max_history_size c = 0%Z) as Hsize by apply record_turns_sizes.
    unfold add_to_history, turns_of. simpl flat_map. rewrite app_nil_r.
    destruct (py_strip (hc_content h)) as [|x stripped] eqn:Hstrip.
    + destruct (bool_decide (hc_client h = client)); rewrite app_nil_r; exact IH.
    + unfold get_history in *. cbn [conversation_history].
      destruct (bool_decide (hc_client h = client)) eqn:Hclient.
      * apply bool_decide_eq_true in Hclient. rewrite Hclient.
        rewrite lookup_insert_eq. cbn [default from_option id].
        rewrite Hsize. unfold py_slice_last. simpl. rewrite IH. reflexivity.
      * apply bool_decide_eq_false in Hclient.
        rewrite lookup_insert_ne by exact Hclient. rewrite app_nil_r. exact IH.
Qed.

(** X11: the history of a client is the last turns it was given.  On a
    cache created with a positive history size [n], after any sequence of
    [add_to_history] calls, [get_history] of a client is the last [n] of the
    turns recorded for that client (calls with blank content record nothing,
    the content is stored stripped), in order, so it never holds more than
    [n] turns; and [clear_history] empties it.  With a history size of 0
    nothing is ever dropped: the slice [[-0:]] is the whole list. *)
Theorem X11_history_keeps_the_last_turns
    (n m : Z) (client : pystr) (calls : list history_call) :
  (0 < n)%Z ->
  let c := record_turns (RAGCache_init n m) calls in
  get_history client c = last_n (Z.to_nat n) (turns_of client calls)
  /\ (Z.of_nat (length (get_history client c)) <= n)%Z
  /\ get_history client (clear_history client c) = []
  /\ get_history client (record_turns (RAGCache_init 0 m) calls) = turns_of client calls.
Proof.
  intros Hn c. subst c. repeat split.
  - apply history_is_last_turns. exact Hn.
  - rewrite history_is_last_turns by exact Hn. unfold last_n.
    rewrite length_drop. lia.
  - unfold get_history, clear_history. cbn [conversation_history].
    rewrite lookup_delete_eq. reflexivity.
  - apply history_unbounded.
Qed.

Lemma X11_history_keeps_the_last_turns_witness :
  let calls := [ mkHistoryCall (py "client-A") "user" (py " hello ") 1;
                 mkHistoryCall (py "client-A") "ai" (py "Hi!") 2;
                 mkHistoryCall (py "client-B") "user" (py "menu?") 3;
                 mkHistoryCall (py "client-A") "user" (py "   ") 4;
                 mkHistoryCall (py "client-A") "user" (py "price of tea") 5 ] in
  get_history (py "client-A") (record_turns (RAGCache_init 2 200) calls)
  = [ mkTurn "ai" (py "Hi!") 2; mkTurn "user" (py "price of tea") 5 ].
Proof.
  intros calls.
  rewrite (proj1 (X11_history_keeps_the_last_turns 2 200 (py "client-A") calls
                    ltac:(lia))).
  reflexivity.
Defined.

(** ** RAGCache: the query cache *)

Lemma dict_get_None {V} (d : list (pystr * V)) k : dict_get d k = None <-> k ∉ keys d.
Proof.
  unfold keys. induction d as [|[k' v] d IH]; simpl.
  - split; [intros _; apply not_elem_of_nil|reflexivity].
  - rewrite not_elem_of_cons. destruct (bool_decide (k' = k)) eqn:E.
    + apply bool_decide_eq_true in E. split; [discriminate|intros [H _]; congruence].
    + apply bool_decide_eq_false in E. rewrite IH. split; [intros H; split; congruence|tauto].
Qed.

Lemma dict_get_set_eq {V} (d : list (pystr * V)) k v : dict_get (dict_set d k v) k = Some v.
Proof.
  induction d as [|[k' v'] d IH]; simpl.
  - rewrite bool_decide_eq_true_2 by reflexivity. reflexivity.
  - destruct (bool_decide (k' = k)) eqn:E; simpl.
    + rewrite bool_decide_eq_true_2 by reflexivity. reflexivity.
    + rewrite E. exact IH.
Qed.

Lemma dict_get_set_ne {V} (d : list (pystr * V)) k k' v :
  k <> k' -> dict_get (dict_set d k v) k' = dict_get d k'.
Proof.
  intros Hne. induction d as [|[k0 v0] d IH]; simpl.
  - rewrite bool_decide_eq_false_2 by exact Hne. reflexivity.
  - destruct (bool_decide (k0 = k)) eqn:E; simpl.
    + apply bool_decide_eq_true in E. subst k0.
      rewrite !bool_decide_eq_false_2 by exact Hne. reflexivity.
    + destruct (bool_decide (k0 = k')); [reflexivity|exact IH].
Qed.

Lemma dict_get_pop_ne {V} (d : list (pystr * V)) k k' :
  k <> k' -> dict_get (dict_pop d k) k' = dict_get d k'.
Proof.
  intros Hne. induction d as [|[k0 v0] d IH]; simpl; [reflexivity|].
  destruct (bool_decide (k0 = k)) eqn:E; simpl.
  - apply bool_decide_eq_true in E. subst k0.
    rewrite bool_decide_eq_false_2 by exact Hne. exact IH.
  - destruct (bool_decide (k0 = k')); [reflexivity|exact IH].
Qed.

Lemma keys_dict_set {V} (d : list (pystr * V)) k v :
  keys (dict_set d k v) = if bool_decide (k ∈ keys d) then keys d else keys d ++ [k].
Proof.
  unfold keys. induction d as [|[k' v'] d IH]; cbn [dict_set map fst].
  - case_bool_decide as H; [|reflexivity]. apply elem_of_nil in H. contradiction.
  - destruct (bool_decide (k' = k)) eqn:E; cbn [map fst].
    + apply bool_decide_eq_true in E. subst k'.
      rewrite bool_decide_eq_true_2 by apply list_elem_of_here. reflexivity.
    + apply bool_decide_eq_false in E. rewrite IH.
      case_bool_decide as H1; case_bool_decide as H2; try reflexivity.
      * exfalso. apply H2. apply list_elem_of_further. exact H1.
      * exfalso. apply elem_of_cons in H2. destruct H2 as [H2|H2];
          [congruence|contradiction].
Qed.

Lemma NoDup_dict_set {V} (d : list (pystr * V)) k v :
  NoDup (keys d) -> NoDup (keys (dict_set d k v)).
Proof.
  intros Hd. rewrite keys_dict_set.
  destruct (bool_decide (k ∈ keys d)) eqn:E; [exact Hd|].
  apply bool_decide_eq_false in E.
  apply NoDup_app. split; [exact Hd|]. split; [|apply NoDup_singleton].
  intros x Hx Hx'. apply list_elem_of_singleton in Hx'. subst x. contradiction.
Qed.

Lemma length_dict_set {V} (d : list (pystr * V)) k v :
  (length (dict_set d k v) <= S (length d))%nat.
Proof.
  induction d as [|[k' v'] d IH]; simpl; [lia|].
  destruct (bool_decide (k' = k)); simpl; lia.
Qed.

Lemma keys_dict_pop {V} (d : list (pystr * V)) k :
  keys (dict_pop d k) = List.filter (fun k' => negb (bool_decide (k' = k))) (keys d).
Proof.
  unfold keys. induction d as [|[k' v'] d IH]; simpl; [reflexivity|].
  destruct (bool_decide (k' = k)); simpl; [exact IH|f_equal; exact IH].
Qed.

Lemma NoDup_list_filter {A} (p : A -> bool) (l : list A) :
  NoDup l -> NoDup (List.filter p l).
Proof.
  induction 1 as [|x l Hx Hl IH]; simpl; [constructor|].
  destruct (p x); [|exact IH]. constructor; [|exact IH].
  intros Hin. apply Hx. apply list_elem_of_In in Hin. apply filter_In in Hin.
  apply list_elem_of_In. tauto.
Qed.

Lemma NoDup_dict_pop {V} (d : list (pystr * V)) k :
  NoDup (keys d) -> NoDup (keys (dict_pop d k)).
Proof. intros H. rewrite keys_dict_pop. apply NoDup_list_filter. exact H. Qed.

Lemma length_dict_pop {V} (d : list (pystr * V)) k :
  (length (dict_pop d k) <= length d)%nat.
Proof.
  induction d as [|[k' v'] d IH]; simpl; [lia|].
  destruct (bool_decide (k' = k)); simpl; lia.
Qed.

(** The state of the query cache that every call keeps. *)
Lemma store_keeps_bound (m : Z) (d : list (pystr * entry)) k e :
  NoDup (keys d) -> (Z.of_nat (length d) <= Z.max 0 m)%Z ->
  match evict_if_full m d with
  | Some d' => NoDup (keys (dict_set d' k e))
               /\ (Z.of_nat (length (dict_set d' k e)) <= Z.max 0 m)%Z
  | None => True
  end.
Proof.
  intros Hd Hlen. unfold evict_if_full.
  destruct (m <=? Z.of_nat (length d))%Z eqn:E.
  - destruct d as [|[k0 e0] d']; [exact I|].
    apply Z.leb_le in E. simpl in Hlen. split.
    + apply NoDup_dict_set. unfold keys in *. simpl in Hd.
      apply NoDup_cons in Hd. apply Hd.
    + pose proof (length_dict_set d' k e). simpl length in *. lia.
  - apply Z.leb_gt in E. split; [apply NoDup_dict_set; exact Hd|].
    pose proof (length_dict_set d k e). lia.
Qed.

Lemma cache_session_bound sha calls : forall c,
  NoDup (keys (query_cache c)) ->
  (Z.of_nat (length (query_cache c)) <= Z.max 0 (max_query_cache c))%Z ->
  NoDup (keys (query_cache (cache_session sha calls c)))
  /\ (Z.of_nat (length (query_cache (cache_session sha calls c)))
      <= Z.max 0 (max_query_cache c))%Z.
Proof.
  induction calls as [|call calls IH]; intros c Hd Hlen; [split; assumption|].
  simpl.
  assert (forall c', max_query_cache c' = max_query_cache c ->
                     NoDup (keys (query_cache c')) ->
                     (Z.of_nat (length (query_cache c')) <= Z.max 0 (max_query_cache c))%Z ->
                     NoDup (keys (query_cache (cache_session sha calls c')))
                     /\ (Z.of_nat (length (query_cache (cache_session sha calls c')))
                         <= Z.max 0 (max_query_cache c))%Z) as Hnext.
  { intros c' Hm Hd' Hlen'. rewrite <- Hm. apply IH; [exact Hd'|]. rewrite Hm. exact Hlen'. }
  destruct call as [q ctx rel now|q age now|k v now].
  - unfold cache_query_result.
    destruct q as [|q0 q]; [apply Hnext; auto|].
    destruct ctx as [|x ctx]; [apply Hnext; auto|].
    pose proof (store_keeps_bound (max_query_cache c) (query_cache c)
                  (sha (q0 :: q)) (mkEntry (QueryResult (x :: ctx) rel) now) Hd Hlen) as H.
    destruct (evict_if_full (max_query_cache c) (query_cache c));
      [|apply Hnext; auto].
    apply Hnext; [reflexivity|apply H|apply H].
  - unfold get_cached_query.
    destruct q as [|q0 q]; [apply Hnext; auto|].
    destruct (dict_get (query_cache c) (sha (q0 :: q))) as [data|];
      [destruct (Qle_bool (now - timestamp data) (inject_Z age))|];
      cbn [snd]; apply Hnext; auto; cbn [query_cache set_query_cache];
      try apply NoDup_dict_pop; try exact Hd;
      pose proof (length_dict_pop (query_cache c) (sha (q0 :: q))); lia.
  - unfold RAGCache_set.
    pose proof (store_keeps_bound (max_query_cache c) (query_cache c) k
                  (mkEntry (CachedValue v) now) Hd Hlen) as H.
    destruct (evict_if_full (max_query_cache c) (query_cache c));
      [|apply Hnext; auto].
    apply Hnext; [reflexivity|apply H|apply H].
Qed.

(** X12: the query cache keeps its bound.  On a cache created with any
    sizes, after any sequence of [cache_query_result], [get_cached_query]
    and [set] calls, the entries of [query_cache] have pairwise distinct
    keys and there are at most [max_query_cache] of them (none when that
    size is not positive: the eviction then fails on the empty dict and the
    store is skipped). *)
Theorem X12_query_cache_keeps_its_bound
    (sha256_lower : pystr -> pystr) (max_history_size max_query_cache : Z)
    (calls : list cache_call) :
  let c := cache_session sha256_lower calls
             (RAGCache_init max_history_size max_query_cache) in
  NoDup (keys (query_cache c))
  /\ (Z.of_nat (length (query_cache c)) <= Z.max 0 max_query_cache)%Z.
Proof.
  intros c. subst c.
  apply (cache_session_bound sha256_lower calls
           (RAGCache_init max_history_size max_query_cache)).
  - constructor.
  - simpl. lia.
Qed.

(** X13: a cached query is found again while it is fresh.  After
    [cache_query_result(q, context, score)] at time [t0] on a cache whose
    [max_query_cache] is positive, with [q] and [context] not empty,
    [get_cached_query(q', max_age)] at time [t1] for any non-empty [q'] with
    the digest of [q] (the digest is taken of the lower-cased query) returns
    the entry just stored, with its context, score and timestamp [t0],
    whenever [t1 - t0 <= max_age], and leaves the cache as it is: the
    eviction that makes room runs before the store, so it never removes the
    new entry.  The two queries have a UTF-8 encoding: the digest of a str
    that holds a surrogate raises, nothing is then stored or found, and the
    embedding does not have that exception. *)
Theorem X13_cached_query_is_found_while_fresh
    (sha256_lower : pystr -> pystr) (q q' context : pystr) (relevance_score : Q)
    (t0 t1 : Q) (max_age_seconds : Z) (c : RAGCache) :
  py_encodes q = true -> py_encodes q' = true ->
  q <> [] -> context <> [] -> q' <> [] ->
  (0 < max_query_cache c)%Z ->
  sha256_lower q' = sha256_lower q ->
  t1 - t0 <= inject_Z max_age_seconds ->
  let c' := cache_query_result sha256_lower q context relevance_score t0 c in
  get_cached_query sha256_lower q' max_age_seconds t1 c'
  = (Some (mkEntry (QueryResult context relevance_score) t0), c').
Proof.
  intros _ _ Hq Hctx Hq' Hmax Hsha Hage c'. subst c'.
  unfold cache_query_result.
  destruct q as [|q0 q]; [contradiction|]. destruct context as [|x ctx]; [contradiction|].
  assert (exists d, evict_if_full (max_query_cache c) (query_cache c) = Some d)
    as [d Hd].
  { unfold evict_if_full. destruct (max_query_cache c <=? _)%Z eqn:E; [|eauto].
    apply Z.leb_le in E. destruct (query_cache c); [simpl in E; lia|eauto]. }
  rewrite Hd. unfold get_cached_query.
  destruct q' as [|q0' q']; [contradiction|].
  cbn [query_cache set_query_cache]. rewrite Hsha, dict_get_set_eq. cbn [timestamp].
  assert (Qle_bool (t1 - t0) (inject_Z max_age_seconds) = true) as ->
    by (apply Qle_bool_iff; exact Hage).
  reflexivity.
Qed.

Lemma X13_cached_query_is_found_while_fresh_witness :
  fst (get_cached_query (fun q => q) (py "price of tea") 600 700
         (cache_query_result (fun q => q) (py "price of tea") (py "Tea - 15") 1 100
            (RAGCache_init 50 200)))
  = Some (mkEntry (QueryResult (py "Tea - 15") 1) 100).
Proof.
  rewrite (X13_cached_query_is_found_while_fresh (fun q => q) (py "price of tea")
             (py "price of tea") (py "Tea - 15") 1 100 700 600 (RAGCache_init 50 200)).
  - reflexivity.
  - reflexivity.
  - reflexivity.
  - vm_compute. discriminate.
  - vm_compute. discriminate.
  - vm_compute. discriminate.
  - reflexivity.
  - reflexivity.
  - vm_compute. discriminate.
Defined.

(** X14: [set] on a full cache evicts the first entry, whatever the key.
    When [query_cache] holds at least [max_query_cache] entries with
    distinct keys, [set(key, value)] removes the entry stored first even if
    [key] is already cached (the cache then shrinks by one), stores the
    value with the time of the call, so that a following [get(key)] returns
    it, and leaves every other entry as it was; below the maximum nothing is
    evicted. *)
Theorem X14_set_evicts_the_first_entry :
  (forall (key value : pystr) (now : Q) (c : RAGCache)
          (k0 : pystr) (e0 : entry) (rest : list (pystr * entry)),
      NoDup (keys (query_cache c)) ->
      query_cache c = (k0, e0) :: rest ->
      (max_query_cache c <= Z.of_nat (length (query_cache c)))%Z ->
      let c' := RAGCache_set key value now c in
      RAGCache_get key c' = Some (mkEntry (CachedValue value) now)
      /\ (k0 <> key -> RAGCache_get k0 c' = None)
      /\ (forall k, k <> key -> k <> k0 -> RAGCache_get k c' = RAGCache_get k c)
      /\ (length (query_cache c') <= length (query_cache c))%nat)
  /\ (forall (key value : pystr) (now : Q) (c : RAGCache),
        (Z.of_nat (length (query_cache c)) < max_query_cache c)%Z ->
        let c' := RAGCache_set key value now c in
        RAGCache_get key c' = Some (mkEntry (CachedValue value) now)
        /\ (forall k, k <> key -> RAGCache_get k c' = RAGCache_get k c)).
Proof.
  split.
  - intros key value now c k0 e0 rest Hd Hc Hfull c'. subst c'.
    unfold RAGCache_set, RAGCache_get, evict_if_full.
    assert ((max_query_cache c <=? Z.of_nat (length (query_cache c)))%Z = true) as ->
      by (apply Z.leb_le; exact Hfull).
    rewrite Hc in *. cbn [query_cache set_query_cache].
    unfold keys in Hd. simpl in Hd. apply NoDup_cons in Hd. destruct Hd as [Hk0 Hrest].
    repeat split.
    + apply dict_get_set_eq.
    + intros Hne. rewrite dict_get_set_ne by congruence.
      apply dict_get_None. exact Hk0.
    + intros k Hk Hk'. rewrite dict_get_set_ne by congruence.
      simpl. rewrite bool_decide_eq_false_2 by congruence. reflexivity.
    + pose proof (length_dict_set rest key (mkEntry (CachedValue value) now)).
      simpl. lia.
  - intros key value now c Hroom c'. subst c'.
    unfold RAGCache_set, RAGCache_get, evict_if_full.
    assert ((max_query_cache c <=? Z.of_nat (length (query_cache c)))%Z = false) as ->
      by (apply Z.leb_gt; exact Hroom).
    cbn [query_cache set_query_cache]. split.
    + apply dict_get_set_eq.
    + intros k Hk. apply dict_get_set_ne. congruence.
Qed.

Lemma X14_set_evicts_the_first_entry_witness :
  let full := RAGCache_set (py "b") (py "2") 2
                (RAGCache_set (py "a") (py "1") 1 (RAGCache_init 50 2)) in
  let c' := RAGCache_set (py "b") (py "3") 3 full in
  RAGCache_get (py "b") c' = Some (mkEntry (CachedValue (py "3")) 3)
  /\ RAGCache_get (py "a") c' = None
  /\ length (query_cache c') = 1%nat.
Proof.
  intros full c'.
  destruct (proj1 X14_set_evicts_the_first_entry (py "b") (py "3") 3 full (py "a")
              (mkEntry (CachedValue (py "1")) 1)
              [(py "b", mkEntry (CachedValue (py "2")) 2)])
    as (Hget & Hgone & _ & _).
  - vm_compute. repeat constructor; rewrite ?elem_of_cons, ?elem_of_nil;
      intros H; decompose [or] H; try discriminate; try contradiction.
  - reflexivity.
  - vm_compute. discriminate.
  - split; [exact Hget|]. split; [apply Hgone; vm_compute; discriminate|reflexivity].
Defined.

(** ** RAGCacheManager: size, eviction and expiry *)

Lemma dict_get_Some_in {V} (d : list (pystr * V)) k v :
  dict_get d k = Some v -> k ∈ keys d.
Proof.
  intros H. destruct (decide (k ∈ keys d)) as [Hin|Hout]; [exact Hin|].
  apply dict_get_None in Hout. congruence.
Qed.

Lemma in_keys_dict_get {V} (d : list (pystr * V)) k :
  k ∈ keys d -> is_Some (dict_get d k).
Proof.
  intros Hin. destruct (dict_get d k) eqn:E; [eauto|].
  apply dict_get_None in E. contradiction.
Qed.

Lemma oldest_key_spec (d : list (pystr * cache_item)) :
  d <> [] -> NoDup (keys d) ->
  exists k v, oldest_key d = Some k /\ dict_get d k = Some v
    /\ forall k' v', dict_get d k' = Some v' -> expires_at v <= expires_at v'.
Proof.
  induction d as [|[k v] d IH]; [contradiction|]. intros _ Hd.
  unfold keys in Hd. cbn [map fst] in Hd. apply NoDup_cons in Hd.
  destruct Hd as [Hk Hd].
  destruct d as [|p d'].
  - exists k, v. simpl. rewrite bool_decide_eq_true_2 by reflexivity.
    repeat split. intros k' v' H. destruct (bool_decide (k = k')); [|discriminate].
    inversion H. lra.
  - destruct IH as (k1 & v1 & Hold & Hget & Hmin); [discriminate|exact Hd|].
    set (r := p :: d') in *.
    cbn [oldest_key]. fold r. rewrite Hold, Hget.
    assert (k <> k1) as Hne.
    { intros ->. apply Hk. apply (dict_get_Some_in r k1 v1 Hget). }
    destruct (Qlt_bool (expires_at v1) (expires_at v)) eqn:E.
    + apply Qlt_bool_iff in E. exists k1, v1. split; [reflexivity|].
      cbn [dict_get]. rewrite bool_decide_eq_false_2 by exact Hne.
      split; [exact Hget|]. intros k' v' H.
      destruct (bool_decide (k = k')); [inversion H; subst; lra|].
      apply (Hmin k' v' H).
    + apply Qlt_bool_false in E. exists k, v. split; [reflexivity|].
      cbn [dict_get]. rewrite bool_decide_eq_true_2 by reflexivity.
      split; [reflexivity|]. intros k' v' H.
      destruct (bool_decide (k = k')); [inversion H; lra|].
      pose proof (Hmin k' v' H). lra.
Qed.

Lemma length_dict_pop_in {V} (d : list (pystr * V)) k :
  NoDup (keys d) -> k ∈ keys d -> length (dict_pop d k) = (length d - 1)%nat.
Proof.
  unfold keys. induction d as [|[k' v'] d IH]; cbn [map fst dict_pop length].
  - intros _ H. apply elem_of_nil in H. contradiction.
  - intros Hd Hin. apply NoDup_cons in Hd. destruct Hd as [Hk' Hd].
    destruct (bool_decide (k' = k)) eqn:E.
    + apply bool_decide_eq_true in E. subst k'.
      assert (dict_pop d k = d) as ->; [|lia].
      clear IH Hin Hd. induction d as [|[k1 v1] d IH]; [reflexivity|].
      cbn [dict_pop map fst] in *. apply not_elem_of_cons in Hk'.
      rewrite bool_decide_eq_false_2 by (intros ->; tauto).
      f_equal. apply IH. tauto.
    + apply bool_decide_eq_false in E. apply elem_of_cons in Hin.
      destruct Hin as [->|Hin]; [congruence|].
      cbn [length]. rewrite IH by assumption.
      destruct d; [apply elem_of_nil in Hin; contradiction|simpl; lia].
Qed.

Lemma evict_oldest_bound (d : list (pystr * cache_item)) :
  d <> [] -> NoDup (keys d) ->
  NoDup (keys (_evict_oldest d)) /\ length (_evict_oldest d) = (length d - 1)%nat.
Proof.
  intros Hne Hd. destruct (oldest_key_spec d Hne Hd) as (k & v & Hold & Hget & _).
  unfold _evict_oldest. rewrite Hold. split.
  - apply NoDup_dict_pop. exact Hd.
  - apply length_dict_pop_in; [exact Hd|]. eapply dict_get_Some_in. exact Hget.
Qed.

Lemma store_step_bounded e bot data m : bounded m -> bounded (store_step e bot data m).
Proof.
  intros [Hd Hlen]. unfold bounded, store_step. cbn [_cache _max_cache_size].
  set (stored := dict_set (_cache m) (req_client_id e)
                   (mkCacheItem bot data (req_time e + inject_Z (_ttl_seconds m)))).
  assert (NoDup (keys stored)) as Hs by (apply NoDup_dict_set; exact Hd).
  pose proof (length_dict_set (_cache m) (req_client_id e)
                (mkCacheItem bot data (req_time e + inject_Z (_ttl_seconds m)))) as Hl.
  fold stored in Hl.
  destruct (_max_cache_size m <? Z.of_nat (length stored))%Z eqn:E.
  - apply Z.ltb_lt in E.
    assert (stored <> []) as Hne.
    { unfold stored. destruct (_cache m) as [|[k0 v0] d]; simpl; [discriminate|].
      destruct (bool_decide (k0 = req_client_id e)); discriminate. }
    destruct (evict_oldest_bound stored Hne Hs) as [Hd' Hl']. split; [exact Hd'|].
    rewrite Hl'. lia.
  - apply Z.ltb_ge in E. split; [exact Hs|lia].
Qed.

Lemma lookup_step_cache e m :
  _cache (fst (lookup_step e m)) = _cache m
  /\ _max_cache_size (fst (lookup_step e m)) = _max_cache_size m
  /\ _ttl_seconds (fst (lookup_step e m)) = _ttl_seconds m.
Proof.
  unfold lookup_step. destruct (dict_get (_cache m) (req_client_id e)) as [item|];
    [destruct (Qlt_bool (req_time e) (expires_at item))|]; repeat split.
Qed.

Lemma step_bounded we_are i σ σ' :
  step we_are i σ = Some σ' -> bounded (manager σ) -> bounded (manager σ').
Proof.
  unfold step. intros Hstep Hb.
  destruct (calls σ !! i) as [[e p]|]; [|discriminate].
  destruct p as [| |data doc|bot data|result]; try discriminate.
  - inversion Hstep; subst σ'; cbn [manager].
    destruct (lookup_step_cache e (manager σ)) as (Hc & Hm & _).
    unfold bounded. rewrite Hc, Hm. exact Hb.
  - inversion Hstep; subst σ'. exact Hb.
  - destruct (req_build_ok e); inversion Hstep; subst σ'; exact Hb.
  - inversion Hstep; subst σ'. cbn [manager]. apply store_step_bounded. exact Hb.
Qed.

Lemma exec_bounded we_are schedule : forall σ,
  bounded (manager σ) -> bounded (manager (exec we_are schedule σ)).
Proof.
  induction schedule as [|i schedule IH]; intros σ Hb; [exact Hb|].
  simpl. apply IH. destruct (step we_are i σ) as [σ'|] eqn:Hstep; [|exact Hb].
  simpl. eapply step_bounded; eassumption.
Qed.

(** X15: the manager never holds more bots than its size allows.  From a
    manager whose cache has distinct keys and at most [_max_cache_size]
    entries (none when that size is not positive; the new manager is such
    a manager), every interleaving of any number of
    [get_or_create_rag] calls leaves such a cache: a store that goes over
    the size is followed, in the same critical section, by the eviction of
    exactly one entry.  [invalidate] and [cleanup_expired] keep the bound
    too. *)
Theorem X15_manager_cache_stays_bounded
    (we_are : pystr) (m : RAGCacheManager) (requests : list request_env)
    (schedule : list nat) (client_id : pystr) (current_time : Q) :
  bounded m ->
  bounded (manager (exec we_are schedule (start m requests)))
  /\ bounded (invalidate client_id m)
  /\ bounded (cleanup_expired current_time m).
Proof.
  intros Hb. split; [|split].
  - apply exec_bounded. exact Hb.
  - destruct Hb as [Hd Hl]. unfold bounded, invalidate. cbn.
    split; [apply NoDup_dict_pop; exact Hd|].
    pose proof (length_dict_pop (_cache m) client_id). lia.
  - destruct Hb as [Hd Hl]. unfold bounded, cleanup_expired. cbn. split.
    + unfold keys in *. clear Hl. induction (_cache m) as [|[k v] d IH]; [constructor|].
      cbn [List.filter map fst snd] in *. apply NoDup_cons in Hd. destruct Hd as [Hk Hd].
      destruct (negb (Qle_bool (expires_at v) current_time)); [|apply IH; exact Hd].
      cbn [map fst]. apply NoDup_cons. split; [|apply IH; exact Hd].
      intros Hin. apply Hk. apply list_elem_of_In in Hin. apply in_map_iff in Hin.
      destruct Hin as ([k' v'] & Hfst & Hin). simpl in Hfst. subst k'.
      apply filter_In in Hin. destruct Hin as [Hin _].
      apply list_elem_of_In. apply in_map_iff. exists (k, v'). split; [reflexivity|exact Hin].
    + pose proof (List.filter_length_le
                    (fun kv : pystr * cache_item =>
                       negb (Qle_bool (expires_at (snd kv)) current_time)) (_cache m)).
      lia.
Qed.

Lemma X15_manager_cache_stays_bounded_witness :
  bounded (manager (exec [] overlapping
                      (start (RAGCacheManager_init 30 100) [request_a 0; request_a 1]))).
Proof.
  refine (proj1 (X15_manager_cache_stays_bounded [] (RAGCacheManager_init 30 100)
                   [request_a 0; request_a 1] overlapping [] 0 _)).
  split; [constructor|simpl; lia].
Defined.

Lemma dict_get_filter {V} (p : pystr * V -> bool) (d : list (pystr * V)) k :
  NoDup (keys d) ->
  dict_get (List.filter p d) k
  = match dict_get d k with
    | Some v => if p (k, v) then Some v else None
    | None => None
    end.
Proof.
  unfold keys. induction d as [|[k' v'] d IH]; cbn [List.filter map fst dict_get];
    [reflexivity|].
  intros Hd. apply NoDup_cons in Hd. destruct Hd as [Hk' Hd].
  destruct (bool_decide (k' = k)) eqn:E.
  - apply bool_decide_eq_true in E. subst k'.
    destruct (p (k, v')) eqn:Ep.
    + cbn [dict_get]. rewrite bool_decide_eq_true_2 by reflexivity. reflexivity.
    + rewrite IH by exact Hd.
      assert (dict_get d k = None) as -> by (apply dict_get_None; exact Hk').
      reflexivity.
  - destruct (p (k', v')); [cbn [dict_get]; rewrite E|]; apply IH; exact Hd.
Qed.

(** X16: [cleanup_expired] removes the expired entries and nothing else,
    and no caller can tell.  On a cache with distinct keys, after
    [cleanup_expired] at time [now] the entries left are those of before
    whose expiry is later than [now]; and a [get_or_create_rag] call whose
    clock reads [now] or later takes the same way through its lookup (the
    same hit with the same bot and data, or a miss) and moves the hit and
    miss counters alike, whether or not the cleanup ran. *)
Theorem X16_cleanup_removes_only_expired_entries
    (now : Q) (m : RAGCacheManager) :
  NoDup (keys (_cache m)) ->
  (forall k v, dict_get (_cache (cleanup_expired now m)) k = Some v
               <-> dict_get (_cache m) k = Some v /\ now < expires_at v)
  /\ (forall e, now <= req_time e ->
                lookup_outcome e (cleanup_expired now m) = lookup_outcome e m).
Proof.
  intros Hd.
  assert (forall k, dict_get (_cache (cleanup_expired now m)) k
                    = match dict_get (_cache m) k with
                      | Some v => if negb (Qle_bool (expires_at v) now) then Some v
                                  else None
                      | None => None
                      end) as Hget.
  { intros k. unfold cleanup_expired, set__cache. cbn [_cache].
    rewrite dict_get_filter by exact Hd. reflexivity. }
  split.
  - intros k v. rewrite Hget. destruct (dict_get (_cache m) k) as [v0|].
    + destruct (Qle_bool (expires_at v0) now) eqn:E; cbn [negb].
      * apply Qle_bool_iff in E. split; [discriminate|].
        intros [H Hlt]. inversion H; subst. lra.
      * apply Qle_bool_false in E. split.
        -- intros H. inversion H; subst. split; [reflexivity|exact E].
        -- intros [H _]. exact H.
    + split; [discriminate|intros [H _]; discriminate].
  - intros e He. unfold lookup_outcome, lookup_step. rewrite Hget.
    unfold cleanup_expired, set__cache. cbn [_hits _misses _cache _ttl_seconds
                                              _max_cache_size].
    destruct (dict_get (_cache m) (req_client_id e)) as [v0|]; [|reflexivity].
    destruct (Qle_bool (expires_at v0) now) eqn:E; cbn [negb].
    + apply Qle_bool_iff in E.
      assert (Qlt_bool (req_time e) (expires_at v0) = false) as ->
        by (apply Qlt_bool_false; lra).
      reflexivity.
    + destruct (Qlt_bool (req_time e) (expires_at v0)); reflexivity.
Qed.

Lemma X16_cleanup_removes_only_expired_entries_witness :
  let m := store_step (request_a 0) 0 client_a_data (RAGCacheManager_init 30 100) in
  dict_get (_cache (cleanup_expired 1800 m)) client_a = None
  /\ lookup_outcome (request_a 1800) (cleanup_expired 1800 m)
     = lookup_outcome (request_a 1800) m.
Proof.
  intros m. split; [reflexivity|].
  refine (proj2 (X16_cleanup_removes_only_expired_entries 1800 m _) (request_a 1800) _).
  - vm_compute. repeat constructor. intros H. apply elem_of_nil in H. exact H.
  - vm_compute. discriminate.
Defined.

(** X17: the eviction removes an entry that expires first.  On a
    non-empty cache with distinct keys, [_evict_oldest] removes exactly one
    entry, none of the others expires earlier than it, and the other entries
    stay as they are. *)
Theorem X17_eviction_removes_an_earliest_expiry (d : list (pystr * cache_item)) :
  d <> [] -> NoDup (keys d) ->
  exists k v,
    dict_get d k = Some v
    /\ (forall k' v', dict_get d k' = Some v' -> expires_at v <= expires_at v')
    /\ dict_get (_evict_oldest d) k = None
    /\ (forall k', k' <> k -> dict_get (_evict_oldest d) k' = dict_get d k')
    /\ length (_evict_oldest d) = (length d - 1)%nat.
Proof.
  intros Hne Hd. destruct (oldest_key_spec d Hne Hd) as (k & v & Hold & Hget & Hmin).
  exists k, v. unfold _evict_oldest. rewrite Hold.
  split; [exact Hget|]. split; [exact Hmin|]. split; [apply dict_get_pop|].
  split; [intros k' Hk'; apply dict_get_pop_ne; congruence|].
  apply length_dict_pop_in; [exact Hd|]. eapply dict_get_Some_in. exact Hget.
Qed.

(** The entry removed can be the one that the same call just stored, when
    that call read the clock before the calls whose entries are cached. *)
Lemma X17_eviction_removes_an_earliest_expiry_witness :
  let late := mkRequestEnv (py "client-B") 50 (Some client_a_data) true in
  let m := store_step late 0 client_a_data (RAGCacheManager_init 30 1) in
  let m' := store_step (request_a 10) 1 client_a_data m in
  dict_get (_cache m') client_a = None
  /\ exists k v, dict_get (_cache m) k = Some v
                 /\ dict_get (_evict_oldest (_cache m)) k = None.
Proof.
  intros late m m'. split; [reflexivity|].
  destruct (X17_eviction_removes_an_earliest_expiry (_cache m)) as (k & v & H1 & _ & H3 & _).
  - vm_compute. discriminate.
  - vm_compute. repeat constructor. intros H. apply elem_of_nil in H. exact H.
  - exists k, v. split; assumption.
Defined.

Lemma dict_get_evict_oldest (d : list (pystr * cache_item)) k v :
  dict_get (_evict_oldest d) k = Some v -> dict_get d k = Some v.
Proof.
  unfold _evict_oldest. destruct (oldest_key d) as [k'|]; [|auto].
  destruct (decide (k' = k)) as [->|Hne].
  - rewrite dict_get_pop. discriminate.
  - rewrite dict_get_pop_ne by exact Hne. auto.
Qed.

(** X18: a cached bot is served strictly before its expiry, counted from
    the start of the call that built it.  After the store of a call that
    read the clock at [t1], a call for the same client id that reads the
    clock at [t2] misses when [t2] is [t1] plus the TTL or later, and, when
    the entry has not been evicted, hits with the bot and data stored when
    [t2] is earlier: the time the build took is part of the TTL. *)
Theorem X18_bot_is_served_until_expiry
    (e1 e2 : request_env) (bot : nat) (data : gmap string (option pystr))
    (m : RAGCacheManager) :
  req_client_id e1 = req_client_id e2 ->
  let m' := store_step e1 bot data m in
  (req_time e1 + inject_Z (_ttl_seconds m) <= req_time e2 ->
   snd (lookup_step e2 m') = AtFetch)
  /\ (req_time e2 < req_time e1 + inject_Z (_ttl_seconds m) ->
      is_Some (dict_get (_cache m') (req_client_id e1)) ->
      snd (lookup_step e2 m') = Finished (Some (bot, data))).
Proof.
  intros Hid m'.
  set (item := mkCacheItem bot data (req_time e1 + inject_Z (_ttl_seconds m))).
  assert (forall v, dict_get (_cache m') (req_client_id e2) = Some v -> v = item) as Hitem.
  { intros v Hv. subst m'. unfold store_step in Hv. cbn [_cache] in Hv. rewrite <- Hid in Hv.
    fold item in Hv.
    destruct (_max_cache_size m <? _)%Z;
      [apply dict_get_evict_oldest in Hv|];
      rewrite dict_get_set_eq in Hv; congruence. }
  split.
  - intros Hlate. unfold lookup_step.
    destruct (dict_get (_cache m') (req_client_id e2)) as [v|] eqn:Hv; [|reflexivity].
    rewrite (Hitem v eq_refl). cbn [expires_at item].
    assert (Qlt_bool (req_time e2) (req_time e1 + inject_Z (_ttl_seconds m)) = false) as ->
      by (apply Qlt_bool_false; exact Hlate).
    reflexivity.
  - intros Hearly [v Hv]. rewrite Hid in Hv. unfold lookup_step. rewrite Hv.
    rewrite (Hitem v Hv). cbn [expires_at rag client_data item].
    assert (Qlt_bool (req_time e2) (req_time e1 + inject_Z (_ttl_seconds m)) = true) as ->
      by (apply Qlt_bool_iff; exact Hearly).
    reflexivity.
Qed.

Lemma X18_bot_is_served_until_expiry_witness :
  let m' := store_step (request_a 0) 0 client_a_data (RAGCacheManager_init 30 100) in
  snd (lookup_step (request_a 1800) m') = AtFetch
  /\ snd (lookup_step (request_a 1799) m') = Finished (Some (0%nat, client_a_data)).
Proof.
  intros m'. split.
  - refine (proj1 (X18_bot_is_served_until_expiry (request_a 0) (request_a 1800) 0
                     client_a_data (RAGCacheManager_init 30 100) eq_refl) _).
    vm_compute. discriminate.
  - refine (proj2 (X18_bot_is_served_until_expiry (request_a 0) (request_a 1799) 0
                     client_a_data (RAGCacheManager_init 30 100) eq_refl) _ _).
    + vm_compute. reflexivity.
    + vm_compute. eexists; reflexivity.
Defined.

(** X19: [invalidate] forces the next call to build.  After
    [invalidate(client_id)], whatever the cache held, a
    [get_or_create_rag] call for that client id that runs alone misses,
    and, when the client's data pass the document checks and the
    constructor returns, builds one new bot and returns it with the data;
    the lookups of every other client id go as before. *)
Theorem X19_invalidate_forces_a_rebuild
    (we_are : pystr) (m : RAGCacheManager) (e : request_env)
    (data : gmap string (option pystr)) (doc : pystr) :
  fetch_step we_are e = AtBuild data doc -> req_build_ok e = true ->
  let σ := exec we_are alone (start (invalidate (req_client_id e) m) [e]) in
  constructed σ = [req_client_id e]
  /\ calls σ = [(e, Finished (Some (0%nat, data)))]
  /\ _misses (manager σ) = (_misses m + 1)%Z
  /\ _hits (manager σ) = _hits m
  /\ (forall e', req_client_id e' <> req_client_id e ->
                 lookup_outcome e' (invalidate (req_client_id e) m) = lookup_outcome e' m).
Proof.
  intros Hfetch Hbuild σ.
  assert (lookup_step e (invalidate (req_client_id e) m)
          = ({| _cache := dict_pop (_cache m) (req_client_id e);
                _ttl_seconds := _ttl_seconds m; _max_cache_size := _max_cache_size m;
                _hits := _hits m; _misses := (_misses m + 1)%Z |}, AtFetch)) as Hlook.
  { unfold lookup_step, invalidate, set__cache. cbn [_cache].
    rewrite dict_get_pop. reflexivity. }
  set (m1 := {| _cache := dict_pop (_cache m) (req_client_id e);
                _ttl_seconds := _ttl_seconds m; _max_cache_size := _max_cache_size m;
                _hits := _hits m; _misses := (_misses m + 1)%Z |}) in *.
  set (σ0 := start (invalidate (req_client_id e) m) [e]).
  set (σ1 := mkSystem m1 [] [(e, AtFetch)]).
  set (σ2 := mkSystem m1 [] [(e, AtBuild data doc)]).
  set (σ3 := mkSystem m1 [req_client_id e] [(e, AtStore 0 data)]).
  set (σ4 := mkSystem (store_step e 0 data m1) [req_client_id e]
               [(e, Finished (Some (0%nat, data)))]).
  assert (step we_are 0 σ0 = Some σ1) as H1.
  { unfold step, σ0, start. cbn [calls manager constructed map].
    change ([(e, AtLookup)] !! 0%nat) with (Some (e, AtLookup)). cbv iota beta.
    rewrite Hlook. reflexivity. }
  assert (step we_are 0 σ1 = Some σ2) as H2.
  { unfold step, σ1. cbn [calls manager constructed].
    change ([(e, AtFetch)] !! 0%nat) with (Some (e, AtFetch)). cbv iota beta.
    rewrite Hfetch. reflexivity. }
  assert (step we_are 0 σ2 = Some σ3) as H3.
  { unfold step, σ2. cbn [calls manager constructed].
    change ([(e, AtBuild data doc)] !! 0%nat) with (Some (e, AtBuild data doc)).
    cbv iota beta. rewrite Hbuild. reflexivity. }
  assert (step we_are 0 σ3 = Some σ4) as H4 by reflexivity.
  subst σ. fold σ0. unfold alone. cbn [exec].
  rewrite H1. cbn [default from_option id]. rewrite H2. cbn [default from_option id].
  rewrite H3. cbn [default from_option id]. rewrite H4. cbn [default from_option id].
  unfold σ4, m1, store_step. cbn [constructed calls manager _misses _hits].
  repeat split.
  intros e' Hne. unfold lookup_outcome, lookup_step, invalidate, set__cache.
  cbn [_cache _hits _misses _ttl_seconds _max_cache_size].
  rewrite dict_get_pop_ne by congruence.
  destruct (dict_get (_cache m) (req_client_id e')) as [v|];
    [destruct (Qlt_bool (req_time e') (expires_at v))|]; reflexivity.
Qed.

Lemma X19_invalidate_forces_a_rebuild_witness :
  let m := store_step (request_a 0) 0 client_a_data (RAGCacheManager_init 30 100) in
  constructed (exec [] alone (start (invalidate client_a m) [request_a 1]))
  = [client_a].
Proof.
  intros m.
  refine (proj1 (X19_invalidate_forces_a_rebuild [] m (request_a 1) client_a_data
                   (py "Masala Dosa - ₹90, Idli - ₹40, Tea - ₹15") _ _)).
  - vm_compute. reflexivity.
  - reflexivity.
Defined.

(** ** RAGBot: what the two entry points return and record *)

(** X20: the handler of [invoke_for_Res] raises.  Whatever the query, the
    bot and the outside world do, [invoke_for_Res] returns a value or
    raises [TypeError]: every exception of its body reaches the handler,
    whose [log_error] call passes the keywords [client_id] and
    [query_length] that [log_error] does not have.  In particular a
    non-empty query on a ready bot whose extraction chain raises does not
    get the error dict but the [TypeError]. *)
Theorem X20_invoke_for_Res_handler_raises :
  (forall (str_lower : pystr -> pystr) (casefold_eq : N -> N -> bool)
          (py_str : json -> pystr) (query : pystr) (env : extraction_env) (bot : RAGBot),
      (exists r, fst (invoke_for_Res str_lower casefold_eq py_str query env bot)
                 = Returned r)
      \/ fst (invoke_for_Res str_lower casefold_eq py_str query env bot)
         = Raised handler_type_error)
  /\ (forall (str_lower : pystr -> pystr) (casefold_eq : N -> N -> bool)
             (py_str : json -> pystr) (query : pystr) (env : extraction_env)
             (bot : RAGBot) (e : exn),
        query <> [] -> chain bot = true -> ex_chain_res env = Raised e ->
        fst (invoke_for_Res str_lower casefold_eq py_str query env bot)
        = Raised handler_type_error).
Proof.
  split.
  - intros. unfold invoke_for_Res.
    destruct (invoke_for_Res_body str_lower casefold_eq py_str query env bot)
      as [[r|e] bot'].
    + left. exists r. reflexivity.
    + right. reflexivity.
  - intros str_lower casefold_eq py_str query env bot e Hq Hchain Hres.
    unfold invoke_for_Res, invoke_for_Res_body.
    destruct query as [|q0 query]; [contradiction|].
    rewrite Hchain, Hres. reflexivity.
Qed.

Lemma X20_invoke_for_Res_handler_raises_witness :
  fst (invoke_for_Res latin_lower latin_casefold_eq (fun _ => [])
         (py "one masala dosa")
         (mkExtractionEnv 1 2 (Raised (OtherError "model unreachable"))
            (fun _ => Returned []))
         dosa_bot)
  = Raised handler_type_error.
Proof.
  apply (proj2 X20_invoke_for_Res_handler_raises) with (e := OtherError "model unreachable").
  - vm_compute. discriminate.
  - reflexivity.
  - reflexivity.
Defined.

Lemma py_lstrip_suffix (s : pystr) : exists p, s = p ++ py_lstrip s.
Proof.
  induction s as [|c s IH]; [exists []; reflexivity|]. simpl.
  destruct (py_isspace c).
  - destruct IH as [p Hp]. exists (c :: p). simpl. f_equal. exact Hp.
  - exists []. reflexivity.
Qed.

Lemma py_lstrip_head (s : pystr) c r : py_lstrip s = c :: r -> py_isspace c = false.
Proof.
  induction s as [|x s IH]; simpl; [discriminate|].
  destruct (py_isspace x) eqn:E; [exact IH|]. intros H. inversion H; subst. exact E.
Qed.

Lemma py_lstrip_fixed c r : py_isspace c = false -> py_lstrip (c :: r) = c :: r.
Proof. intros H. simpl. rewrite H. reflexivity. Qed.

(** A text without white space at either end. *)
Lemma py_strip_fixed (s : pystr) :
  py_lstrip s = s -> py_lstrip (rev s) = rev s -> py_strip s = s.
Proof.
  intros H1 H2. unfold py_strip, py_rstrip. rewrite H1, H2. apply rev_involutive.
Qed.

Lemma py_strip_ends (x : pystr) :
  py_lstrip (py_strip x) = py_strip x /\ py_lstrip (rev (py_strip x)) = rev (py_strip x).
Proof.
  unfold py_strip, py_rstrip. rewrite rev_involutive.
  set (y := py_lstrip x). set (z := py_lstrip (rev y)).
  assert (py_lstrip z = z) as Hz.
  { unfold z. destruct (py_lstrip (rev y)) as [|c r] eqn:E; [reflexivity|].
    apply py_lstrip_fixed. eapply py_lstrip_head. exact E. }
  split; [|exact Hz].
  destruct (py_lstrip_suffix (rev y)) as [p Hp]. fold z in Hp.
  assert (y = rev z ++ rev p) as Hy.
  { rewrite <- rev_app_distr, <- Hp. symmetry. apply rev_involutive. }
  destruct (rev z) as [|c r]; [reflexivity|].
  apply py_lstrip_fixed. eapply py_lstrip_head. unfold y in Hy. exact Hy.
Qed.

Lemma py_strip_idempotent (x : pystr) : py_strip (py_strip x) = py_strip x.
Proof. destruct (py_strip_ends x). apply py_strip_fixed; assumption. Qed.

Lemma py_strip_dots (x : pystr) :
  py_strip x <> [] -> py_strip (py_strip x ++ py "...") = py_strip x ++ py "...".
Proof.
  intros Hne. destruct (py_strip_ends x) as [H1 _].
  destruct (py_strip x) as [|c r] eqn:E; [contradiction|].
  apply py_strip_fixed.
  - change ((c :: r) ++ py "...") with (c :: (r ++ py "...")).
    apply py_lstrip_fixed. eapply py_lstrip_head. exact H1.
  - rewrite rev_app_distr. reflexivity.
Qed.

Lemma complete_response_stripped (response : pystr) :
  complete_response response <> []
  /\ py_strip (complete_response response) = complete_response response.
Proof.
  unfold complete_response.
  set (r1 := match response with
             | [] => MSG_NO_RESPONSE
             | _ :: _ => if (length (py_strip response) <? 3)%nat
                         then MSG_NO_RESPONSE else response
             end).
  assert (py_strip r1 <> []) as Hne.
  { unfold r1. destruct response as [|c r]; [vm_compute; discriminate|].
    destruct (length (py_strip (c :: r)) <? 3)%nat eqn:E; [vm_compute; discriminate|].
    apply Nat.ltb_ge in E. intros H. rewrite H in E. simpl in E. lia. }
  destruct ((20 <? length (py_strip r1))%nat && negb (ends_sentence (py_strip r1))).
  - split; [|apply py_strip_dots; exact Hne].
    destruct (py_strip r1); [contradiction|discriminate].
  - split; [exact Hne|apply py_strip_idempotent].
Qed.

Lemma last_py_slice_last {A} (n : Z) (l : list A) (a : A) :
  (0 < n)%Z -> last (py_slice_last n (l ++ [a])) = Some a.
Proof.
  intros Hn. rewrite py_slice_last_positive by exact Hn. unfold last_n.
  rewrite length_app. simpl.
  rewrite drop_app_le by lia. rewrite last_snoc. reflexivity.
Qed.

(** X21: [invoke] records the answer it returns.  For a non-empty query
    on a ready bot with a positive history size, when the import and the
    pipeline do not raise, whatever the generation service does, [invoke]
    returns a text that is not empty and has no white space at either end,
    and the last turn of the client's history is that very text, with the
    role ['ai']. *)
Theorem X21_invoke_records_its_answer
    (str_upper : pystr -> pystr) (query launguage : pystr) (env : answer_env)
    (bot : RAGBot) :
  query <> [] -> chain bot = true -> an_import env = Returned tt ->
  an_pipeline env = None -> (0 < max_history_size (cache bot))%Z ->
  exists text,
    fst (invoke str_upper query launguage env bot) = Returned text
    /\ text <> [] /\ py_strip text = text
    /\ last (get_history (client_id bot)
               (cache (snd (invoke str_upper query launguage env bot))))
       = Some (mkTurn "ai" text (an_now_ai env)).
Proof.
  intros Hq Hchain Himport Hpipe Hsize.
  unfold invoke, invoke_body, chain_invoke.
  destruct query as [|q0 query]; [contradiction|].
  rewrite Hchain, Himport, Hpipe. cbn [negb fst snd].
  set (text := complete_response (_call_api str_upper (an_http env))).
  destruct (complete_response_stripped (_call_api str_upper (an_http env)))
    as [Hne Hstrip]. fold text in Hne, Hstrip.
  exists text. split; [reflexivity|]. split; [exact Hne|]. split; [exact Hstrip|].
  cbn [cache set_cache client_id].
  set (c1 := add_to_history (client_id bot) "user" (q0 :: query) (an_now_user env)
               (cache bot)).
  assert (max_history_size c1 = max_history_size (cache bot)) as Hsize1
    by apply add_to_history_sizes.
  unfold add_to_history at 1. rewrite Hstrip.
  destruct text as [|c r] eqn:Etext; [contradiction|].
  unfold get_history. cbn [conversation_history]. rewrite lookup_insert_eq.
  cbn [default from_option id]. rewrite Hsize1.
  apply last_py_slice_last. exact Hsize.
Qed.

Lemma X21_invoke_records_its_answer_witness :
  exists text,
    fst (invoke latin_upper (py "price of tea?") (py "English")
           (mkAnswerEnv 1 2 (Returned tt) (Returned (py "Asha")) (Returned (py "None"))
              None Timeout) dosa_bot) = Returned text
    /\ text <> [] /\ py_strip text = text
    /\ last (get_history (client_id dosa_bot)
               (cache (snd (invoke latin_upper (py "price of tea?") (py "English")
                              (mkAnswerEnv 1 2 (Returned tt) (Returned (py "Asha"))
                                 (Returned (py "None")) None Timeout) dosa_bot))))
       = Some (mkTurn "ai" text 2).
Proof.
  apply (X21_invoke_records_its_answer latin_upper (py "price of tea?") (py "English")
           (mkAnswerEnv 1 2 (Returned tt) (Returned (py "Asha")) (Returned (py "None"))
              None Timeout) dosa_bot).
  - vm_compute. discriminate.
  - reflexivity.
  - reflexivity.
  - reflexivity.
  - vm_compute. reflexivity.
Defined.
